(** * Financial statements, ratios and health scoring: a shallow embedding

    The development follows the two Python modules of the application:

    - [financialstatementfunctions_p.py]: column selection on the raw
      statements, the ratio functions, the year-over-year change and the
      ranking tables;
    - [health.py]: the rule-based health scorer.

    Numbers.  pandas stores the line items as 64-bit floats.  They are
    embedded as _extended rationals_: a value is NaN, plus or minus
    infinity, or an exact rational.  Rounding error, overflow and the sign
    of zero are abstracted away; the special values, which is what the
    code's null handling is about, are kept.  A Python [None] is the [None]
    of an [option number]. *)

From Stdlib Require Import ZArith QArith Qabs Qround Qreduction.
From Stdlib Require Import List String Bool Lia Permutation Sorted.
Import ListNotations.

Local Open Scope string_scope.
Local Open Scope Z_scope.
Local Open Scope list_scope.

(* ================================================================= *)
(** ** Numbers *)

Module Num.

Inductive number : Type :=
| NaN
| Inf (neg : bool)
| Fin (q : Q).

(** [pd.isna] on a float. *)
Definition isnan (x : number) : bool :=
  match x with NaN => true | _ => false end.

Definition is_inf (x : number) : bool :=
  match x with Inf _ => true | _ => false end.

Definition Qneg_b (q : Q) : bool := (Qnum q <? 0)%Z.

Definition fneg (x : number) : number :=
  match x with
  | NaN => NaN
  | Inf s => Inf (negb s)
  | Fin q => Fin (Qred (- q))
  end.

Definition fabs (x : number) : number :=
  match x with
  | NaN => NaN
  | Inf _ => Inf false
  | Fin q => Fin (Qred (Qabs q))
  end.

Definition fadd (x y : number) : number :=
  match x, y with
  | NaN, _ | _, NaN => NaN
  | Inf s, Inf t => if Bool.eqb s t then Inf s else NaN
  | Inf s, Fin _ => Inf s
  | Fin _, Inf t => Inf t
  | Fin p, Fin q => Fin (Qred (p + q))
  end.

Definition fsub (x y : number) : number := fadd x (fneg y).

Definition fmul (x y : number) : number :=
  match x, y with
  | NaN, _ | _, NaN => NaN
  | Inf s, Inf t => Inf (xorb s t)
  | Inf s, Fin q | Fin q, Inf s =>
      if Qeq_bool q 0 then NaN else Inf (xorb s (Qneg_b q))
  | Fin p, Fin q => Fin (Qred (p * q))
  end.

(** Float division as numpy performs it: a zero divisor gives an
    infinity of the sign of the dividend, and NaN for 0/0; nothing is
    raised. *)
Definition fdiv (x y : number) : number :=
  match x, y with
  | NaN, _ | _, NaN => NaN
  | Inf _, Inf _ => NaN
  | Inf s, Fin q => Inf (xorb s (Qneg_b q))
  | Fin _, Inf _ => Fin 0
  | Fin p, Fin q =>
      if Qeq_bool q 0 then
        match Z.sgn (Qnum p) with
        | Z0 => NaN
        | Zpos _ => Inf false
        | Zneg _ => Inf true
        end
      else Fin (Qred (p / q))
  end.

(** Ordering; [None] when a NaN takes part, so that every comparison
    with NaN is false. *)
Definition fcmp (x y : number) : option comparison :=
  match x, y with
  | NaN, _ | _, NaN => None
  | Inf s, Inf t =>
      Some (if Bool.eqb s t then Eq else if s then Lt else Gt)
  | Inf s, Fin _ => Some (if s then Lt else Gt)
  | Fin _, Inf t => Some (if t then Gt else Lt)
  | Fin p, Fin q => Some (p ?= q)%Q
  end.

Definition feqb (x y : number) : bool :=
  match fcmp x y with Some Eq => true | _ => false end.
Definition fltb (x y : number) : bool :=
  match fcmp x y with Some Lt => true | _ => false end.
Definition fgtb (x y : number) : bool :=
  match fcmp x y with Some Gt => true | _ => false end.
Definition fleb (x y : number) : bool :=
  match fcmp x y with Some Lt | Some Eq => true | _ => false end.
Definition fgeb (x y : number) : bool :=
  match fcmp x y with Some Gt | Some Eq => true | _ => false end.

(** Python truthiness of a float: only zero is false (NaN is true). *)
Definition truthy (x : number) : bool := negb (feqb x (Fin 0)).

(** Round half to even, to an integer. *)
Definition round_half_even (q : Q) : Z :=
  let f := Qfloor q in
  match (q - inject_Z f ?= 1 # 2)%Q with
  | Lt => f
  | Gt => f + 1
  | Eq => if Z.even f then f else f + 1
  end.

(** [round(x, 2)] on a float column. *)
Definition round2 (x : number) : number :=
  match x with
  | Fin q => Fin (Qred (inject_Z (round_half_even (q * 100)) / 100))
  | _ => x
  end.

(** The literals of the source. *)
Definition of_Z (z : Z) : number := Fin (inject_Z z).

End Num.
Export Num.

(* ================================================================= *)
(** ** Exceptions *)

Inductive exn : Type :=
| KeyError (key : string)
| ValueError (msg : string)
| AttributeError (msg : string)
| ProviderError (ticker : string).

Inductive result (A : Type) : Type :=
| Ok (a : A)
| Raise (e : exn).
Arguments Ok {A} a.
Arguments Raise {A} e.

Definition bind {A B} (m : result A) (k : A -> result B) : result B :=
  match m with
  | Ok a => k a
  | Raise e => Raise e
  end.

Notation "x <- m ;; k" := (bind m (fun x => k))
  (at level 61, m at next level, right associativity).
Notation "' p <- m ;; k" := (bind m (fun x => match x with p => k end))
  (at level 61, p pattern, m at next level, right associativity).

(* ================================================================= *)
(** ** Tables: the fragment of pandas the two modules use *)

Module Pandas.

(** *** Time index *)

Record date : Type := mkDate { year : Z; month : Z; day : Z }.

Definition date_compare (a b : date) : comparison :=
  match year a ?= year b with
  | Eq => match month a ?= month b with
          | Eq => day a ?= day b
          | c => c
          end
  | c => c
  end.

Definition date_eqb (a b : date) : bool :=
  match date_compare a b with Eq => true | _ => false end.
Definition date_leb (a b : date) : bool :=
  match date_compare a b with Gt => false | _ => true end.

Definition is_leap (y : Z) : bool :=
  ((y mod 4 =? 0) && negb (y mod 100 =? 0)) || (y mod 400 =? 0).

Definition days_in_month (y m : Z) : Z :=
  if m =? 2 then (if is_leap y then 29 else 28)
  else if (m =? 4) || (m =? 6) || (m =? 9) || (m =? 11) then 30
  else 31.

(** [d - pd.DateOffset(years=n)]: same month, the day clipped to the
    length of the month (29 February of a leap year becomes the 28th). *)
Definition sub_years (d : date) (n : Z) : date :=
  let y := year d - n in
  mkDate y (month d) (Z.min (day d) (days_in_month y (month d))).

Fixpoint max_date (d : date) (l : list date) : date :=
  match l with
  | [] => d
  | e :: l' => max_date (if date_leb d e then e else d) l'
  end.

(** *** Series and frames

    A [Series] is a float column with its time index.  A [DataFrame]
    has its column labels in order and one list of cells per row, cell
    [i] belonging to column [i].  The labels of a statement are
    line-item names and are distinct, and so are its periods; a cell
    read outside a row is NaN. *)

Definition Series : Type := list (date * number).

Record DataFrame : Type := mkDF {
  columns : list string;
  rows : list (date * list number)
}.

Definition df_index (df : DataFrame) : list date := map fst (rows df).

(** [pd.DataFrame()] *)
Definition empty_frame : DataFrame := mkDF [] [].

(** [df.empty]: some axis has length 0. *)
Definition empty (df : DataFrame) : bool :=
  match columns df, rows df with
  | [], _ => true
  | _, [] => true
  | _, _ => false
  end.

Fixpoint position (c : string) (cols : list string) : option nat :=
  match cols with
  | [] => None
  | c' :: cols' =>
      if String.eqb c c' then Some O
      else option_map S (position c cols')
  end.

Definition mem_col (c : string) (cols : list string) : bool :=
  match position c cols with Some _ => true | None => false end.

(** [row.get(c)] on a row of a frame: [None] when there is no such
    label. *)
Definition row_get (cols : list string) (cells : list number) (c : string)
  : option number :=
  match position c cols with
  | Some i => Some (nth i cells NaN)
  | None => None
  end.

(** [df.get(c)]: the column as a Series, [None] when absent. *)
Definition df_get (df : DataFrame) (c : string) : option Series :=
  match position c (columns df) with
  | Some i => Some (map (fun r => (fst r, nth i (snd r) NaN)) (rows df))
  | None => None
  end.

(** [df[c]]: raises KeyError when absent. *)
Definition getitem (df : DataFrame) (c : string) : result Series :=
  match df_get df c with
  | Some s => Ok s
  | None => Raise (KeyError c)
  end.

Fixpoint has_dup (l : list string) : bool :=
  match l with
  | [] => false
  | c :: l' => mem_col c l' || has_dup l'
  end.

Fixpoint cols_eqb (a b : list string) : bool :=
  match a, b with
  | [], [] => true
  | x :: a', y :: b' => String.eqb x y && cols_eqb a' b'
  | _, _ => false
  end.

Definition select_cells (cols : list string) (cells : list number)
           (target : list string) : list number :=
  map (fun c => match row_get cols cells c with
                | Some x => x
                | None => NaN
                end) target.

(** [df.reindex(columns=target)]: the frame is returned as it is when
    the labels already agree; otherwise every target label is looked up
    in the source, a label that is not found giving a NaN column.
    pandas refuses to reindex an axis with duplicate labels. *)
Definition reindex (df : DataFrame) (target : list string)
  : result DataFrame :=
  if cols_eqb (columns df) target then Ok df
  else if has_dup (columns df) then
    Raise (ValueError "cannot reindex on an axis with duplicate labels")
  else
    Ok (mkDF target
          (map (fun r => (fst r, select_cells (columns df) (snd r) target))
               (rows df))).

(** *** Sorting by the index *)

Section SortByDate.
Context {A : Type}.

Fixpoint insert_by_date (r : date * A) (l : list (date * A))
  : list (date * A) :=
  match l with
  | [] => [r]
  | e :: l' =>
      if date_leb (fst r) (fst e) then r :: l
      else e :: insert_by_date r l'
  end.

Definition sort_by_date (l : list (date * A)) : list (date * A) :=
  fold_right insert_by_date [] l.
End SortByDate.

(** [df.sort_index()]: ascending; rows of the same date, which a
    statement does not have, keep their order here. *)
Definition sort_index (df : DataFrame) : DataFrame :=
  mkDF (columns df) (sort_by_date (rows df)).

(** [l[-n:]] *)
Definition tail_n {A} (n : nat) (l : list A) : list A :=
  skipn (List.length l - n) l.

(** [df.iloc[-n:]] *)
Definition iloc_tail (n : nat) (df : DataFrame) : DataFrame :=
  mkDF (columns df) (tail_n n (rows df)).

(** *** Arithmetic on Series *)

Definition values (s : Series) : list number := map snd s.

Fixpoint dates_eqb (a b : list date) : bool :=
  match a, b with
  | [], [] => true
  | x :: a', y :: b' => date_eqb x y && dates_eqb a' b'
  | _, _ => false
  end.

Fixpoint lookup_date (d : date) (s : Series) : number :=
  match s with
  | [] => NaN
  | (e, x) :: s' => if date_eqb d e then x else lookup_date d s'
  end.

Fixpoint insert_date (d : date) (l : list date) : list date :=
  match l with
  | [] => [d]
  | e :: l' =>
      match date_compare d e with
      | Lt => d :: l
      | Eq => l
      | Gt => e :: insert_date d l'
      end
  end.

(** The union of two indexes, sorted. *)
Definition union_index (a b : list date) : list date :=
  fold_right insert_date [] (a ++ b).

(** [a / b] on two Series: the operands are aligned on their indexes.
    With the same index the division is row by row; otherwise the result
    is indexed by the sorted union, a period missing on one side
    counting as NaN.  The indexes of a statement are distinct dates. *)
Definition series_div (a b : Series) : Series :=
  if dates_eqb (map fst a) (map fst b) then
    map (fun p => (fst (fst p), fdiv (snd (fst p)) (snd (snd p))))
        (combine a b)
  else
    map (fun d => (d, fdiv (lookup_date d a) (lookup_date d b)))
        (union_index (map fst a) (map fst b)).


(** [pd.DataFrame({name: s})] *)
Definition frame_of_series (name : string) (s : Series) : DataFrame :=
  mkDF [name] (map (fun p => (fst p, [snd p])) s).

(** [df[name] = s] for a new column [name] and a Series on the index of
    [df]. *)
Definition add_column (df : DataFrame) (name : string) (s : list number)
  : DataFrame :=
  mkDF (columns df ++ [name])
       (map (fun p => (fst (fst p), snd (fst p) ++ [snd p]))
            (combine (rows df) s)).

(** [s.dropna()] *)
Definition dropna (l : list number) : list number :=
  filter (fun x => negb (isnan x)) l.

(** [s.mean()], which skips NaN; NaN when nothing is left. *)
Definition mean (l : list number) : number :=
  match dropna l with
  | [] => NaN
  | v => fdiv (fold_left fadd v (of_Z 0))
              (of_Z (Z.of_nat (List.length v)))
  end.

(** *** Year-over-year change *)

(** Forward fill: a NaN takes the last valid value before it. *)
Fixpoint ffill_from (prev : number) (l : list number) : list number :=
  match l with
  | [] => []
  | x :: l' =>
      let y := if isnan x then prev else x in
      y :: ffill_from y l'
  end.

Definition ffill (l : list number) : list number := ffill_from NaN l.

(** [s.shift(1)] *)
Definition shift1 (l : list number) : list number :=
  match l with
  | [] => []
  | _ => NaN :: removelast l
  end.

(** [s.pct_change()], that is [data / data.shift(1) - 1].  pandas up to
    2.x forward-fills the Series first ([pad = true], the default
    [fill_method='pad']); pandas 3 does not ([pad = false]). *)
Definition pct_change (pad : bool) (l : list number) : list number :=
  let data := if pad then ffill l else l in
  map (fun p => fsub (fdiv (fst p) (snd p)) (of_Z 1))
      (combine data (shift1 data)).

(** *** Frames side by side *)

Fixpoint lookup_cells (d : date) (rs : list (date * list number))
         (absent : list number) : list number :=
  match rs with
  | [] => absent
  | (e, cells) :: rs' =>
      if date_eqb d e then cells else lookup_cells d rs' absent
  end.

(** [pd.concat([a, b], axis=1)] on two float frames: the columns of [a]
    and then those of [b].  With the same index the rows are paired in
    order; otherwise the result is indexed by the sorted union, with NaN
    where a frame has no such period. *)
Definition hconcat (a b : DataFrame) : DataFrame :=
  let nans (cols : list string) := map (fun _ => NaN) cols in
  if dates_eqb (df_index a) (df_index b) then
    mkDF (columns a ++ columns b)
         (map (fun p => (fst (fst p), snd (fst p) ++ snd (snd p)))
              (combine (rows a) (rows b)))
  else
    mkDF (columns a ++ columns b)
         (map (fun d => (d, lookup_cells d (rows a) (nans (columns a))
                            ++ lookup_cells d (rows b) (nans (columns b))))
              (union_index (df_index a) (df_index b))).

(** [pd.concat(frames, axis=1)]; an empty list is refused. *)
Definition concat_axis1 (frames : list DataFrame) : result DataFrame :=
  match frames with
  | [] => Raise (ValueError "No objects to concatenate")
  | f :: fs => Ok (fold_left hconcat fs f)
  end.

End Pandas.
Export Pandas.

(* ================================================================= *)
(** ** health.py *)

Module Health.

(** A Python [dict] with string keys, in insertion order. *)
Definition dict (V : Type) : Type := list (string * V).

Fixpoint dict_set {V} (k : string) (v : V) (d : dict V) : dict V :=
  match d with
  | [] => [(k, v)]
  | (k', v') :: d' =>
      if String.eqb k k' then (k, v) :: d'
      else (k', v') :: dict_set k v d'
  end.

Definition dict_values {V} (d : dict V) : list V := map snd d.

Fixpoint dict_get {V} (k : string) (d : dict V) : option V :=
  match d with
  | [] => None
  | (k', v) :: d' => if String.eqb k k' then Some v else dict_get k d'
  end.

Record HealthAssessment : Type := mkHealth {
  score : Z;
  rating : string;
  metric_scores : dict Z;
  flags : list string;
  snapshot : dict (option number)
}.

(** The three locals the scoring code updates as it goes. *)
Record scoring : Type := mkScoring {
  s_metric_scores : dict Z;
  s_flags : list string;
  s_snapshot : dict (option number)
}.

(** [metric_scores[k] = v] *)
Definition set_metric (k : string) (v : Z) (s : scoring) : scoring :=
  mkScoring (dict_set k v (s_metric_scores s)) (s_flags s) (s_snapshot s).

(** [flags.append(msg)] *)
Definition flag (msg : string) (s : scoring) : scoring :=
  mkScoring (s_metric_scores s) (s_flags s ++ [msg]) (s_snapshot s).

(** [snapshot[k] = v] *)
Definition snap (k : string) (v : option number) (s : scoring) : scoring :=
  mkScoring (s_metric_scores s) (s_flags s) (dict_set k v (s_snapshot s)).

Definition _last_n_years (df : DataFrame) (n : nat) : DataFrame :=
  if empty df then df else iloc_tail n (sort_index df).

(** [a / b] raises TypeError when [a] is [None]; the handler turns it
    into [None].  [b == 0] is false for NaN. *)
Definition _safe_div (a b : option number) : option number :=
  match b with
  | None => None
  | Some y =>
      if feqb y (of_Z 0) then None
      else match a with
           | None => None
           | Some x => Some (fdiv x y)
           end
  end.

(** [pd.isna] on a scalar that may be [None]. *)
Definition py_isna (v : option number) : bool :=
  match v with
  | None => true
  | Some x => isnan x
  end.

(** The inner helper of [score_company_health].  When the column is
    absent, [df.get] hands over [None]; [pd.to_numeric] makes a float NaN
    of it and the call of [.dropna()] on that scalar raises.  On a float
    column [pd.to_numeric] changes nothing. *)
Definition _trend_pct (series : option Series) : result (option number) :=
  match series with
  | None =>
      Raise (AttributeError "'float' object has no attribute 'dropna'")
  | Some col =>
      let s := dropna (values col) in
      if (List.length s <? 2)%nat then Ok None
      else
        let first := hd NaN s in
        let last := List.last s NaN in
        if feqb first (of_Z 0) || isnan first || isnan last then Ok None
        else Ok (Some (fdiv (fsub last first) (fabs first)))
  end.

(** *** The metrics, in the order of the source *)

(** 1) Liquidity: current ratio *)
Definition liquidity (cur_assets cur_liab : option number) (s : scoring)
  : scoring :=
  let current_ratio := _safe_div cur_assets cur_liab in
  let s := snap "Current Ratio" current_ratio s in
  let k := "Liquidity (Current Ratio)" in
  match current_ratio with
  | None =>
      flag "Could not compute Current Ratio (missing current assets/liabilities)."
           (set_metric k 0 s)
  | Some r =>
      if fgeb r (Fin (3 # 2)) then set_metric k 10 s
      else if fgeb r (Fin 1) then set_metric k 7 s
      else if fgeb r (Fin (4 # 5)) then
        flag "Current Ratio is below 1.0 (tight short-term liquidity)."
             (set_metric k 4 s)
      else
        flag "Current Ratio is very low (high short-term liquidity risk)."
             (set_metric k 1 s)
  end.

(** 2) Leverage: debt-to-equity *)
Definition leverage (tot_liab equity : option number) (s : scoring)
  : scoring :=
  let debt_to_equity := _safe_div tot_liab equity in
  let s := snap "Debt to Equity (Liab/Equity)" debt_to_equity s in
  let k := "Leverage (Debt/Equity proxy)" in
  match debt_to_equity with
  | None =>
      flag "Could not compute leverage ratio (missing liabilities/equity)."
           (set_metric k 0 s)
  | Some r =>
      if fleb r (Fin 1) then set_metric k 10 s
      else if fleb r (Fin 2) then set_metric k 7 s
      else if fleb r (Fin 3) then
        flag "High leverage (liabilities materially exceed equity)."
             (set_metric k 4 s)
      else
        flag "Very high leverage (risk increases sharply in downturns)."
             (set_metric k 1 s)
  end.

(** 3) Solvency: debt-to-assets *)
Definition solvency (tot_liab tot_assets : option number) (s : scoring)
  : scoring :=
  let debt_to_assets := _safe_div tot_liab tot_assets in
  let s := snap "Debt to Assets (Liab/Assets)" debt_to_assets s in
  let k := "Solvency (Liab/Assets)" in
  match debt_to_assets with
  | None => set_metric k 0 s
  | Some r =>
      if fleb r (Fin (1 # 2)) then set_metric k 10 s
      else if fleb r (Fin (7 # 10)) then set_metric k 7 s
      else if fleb r (Fin (17 # 20)) then
        flag "Liabilities are a large share of assets (solvency weaker)."
             (set_metric k 4 s)
      else
        flag "Liabilities dominate the asset base (solvency risk)."
             (set_metric k 1 s)
  end.

(** 4) Profitability: operating margin *)
Definition profitability (ebit revenue : option number) (s : scoring)
  : scoring :=
  let op_margin := _safe_div ebit revenue in
  let s := snap "Operating Margin (EBIT/Revenue)" op_margin s in
  let k := "Profitability (Operating Margin)" in
  match op_margin with
  | None =>
      flag "Could not compute operating margin (missing EBIT/revenue)."
           (set_metric k 0 s)
  | Some r =>
      if fgeb r (Fin (20 # 100)) then set_metric k 10 s
      else if fgeb r (Fin (12 # 100)) then set_metric k 7 s
      else if fgeb r (Fin (6 # 100)) then
        flag "Thin operating margin (profits can vanish in a slowdown)."
             (set_metric k 4 s)
      else
        flag "Very low operating margin (business model looks fragile)."
             (set_metric k 1 s)
  end.

(** 5) Unit economics: gross margin *)
Definition unit_economics (gross_profit revenue : option number)
           (s : scoring) : scoring :=
  let gross_margin := _safe_div gross_profit revenue in
  let s := snap "Gross Margin (Gross Profit/Revenue)" gross_margin s in
  let k := "Unit Economics (Gross Margin)" in
  match gross_margin with
  | None => set_metric k 0 s
  | Some r =>
      if fgeb r (Fin (40 # 100)) then set_metric k 10 s
      else if fgeb r (Fin (25 # 100)) then set_metric k 7 s
      else if fgeb r (Fin (15 # 100)) then
        flag "Low gross margin (limited pricing power or high input costs)."
             (set_metric k 4 s)
      else
        flag "Very low gross margin (watch competitive pressure)."
             (set_metric k 1 s)
  end.

(** 6) Earnings quality: OCF vs net income *)
Definition earnings_quality (ocf net_income : option number) (s : scoring)
  : scoring :=
  let cash_to_income := _safe_div ocf net_income in
  let s := snap "OCF / Net Income" cash_to_income s in
  let k := "Earnings Quality (OCF/Net Income)" in
  match cash_to_income with
  | None =>
      flag "Could not compute OCF/Net Income (missing OCF or Net Income)."
           (set_metric k 0 s)
  | Some r =>
      if fgeb r (Fin (12 # 10)) then set_metric k 10 s
      else if fgeb r (Fin (9 # 10)) then set_metric k 7 s
      else if fgeb r (Fin (6 # 10)) then
        flag "Cash conversion is weak (profits not turning into cash)."
             (set_metric k 4 s)
      else
        flag "Very weak cash conversion (potential accrual risk)."
             (set_metric k 1 s)
  end.

(** [revenue if revenue else 1]: [None] and 0 are false, NaN is true. *)
Definition revenue_or_1 (revenue : option number) : number :=
  match revenue with
  | None => of_Z 1
  | Some r => if truthy r then r else of_Z 1
  end.

(** 7) Free cash flow health *)
Definition free_cash_flow (fcf revenue : option number) (s : scoring)
  : scoring :=
  let k := "Free Cash Flow (FCF)" in
  match fcf with
  | Some f =>
      if py_isna fcf then
        flag "Free Cash Flow missing from Yahoo Finance for this ticker."
             (set_metric k 0 s)
      else if fgtb f (of_Z 0) then set_metric k 10 s
      else if fgtb f (fmul (Fin (- (5 # 100))) (revenue_or_1 revenue)) then
        flag "FCF slightly negative (may be investment-heavy period)."
             (set_metric k 6 s)
      else
        flag "FCF materially negative (funding needs can rise)."
             (set_metric k 2 s)
  | None =>
      flag "Free Cash Flow missing from Yahoo Finance for this ticker."
           (set_metric k 0 s)
  end.

(** One [if cond: trend_points -= pts; flags.append(msg)] of the trend
    checks. *)
Definition deduct (cond : bool) (pts : Z) (msg : string)
           (st : Z * scoring) : Z * scoring :=
  if cond then (fst st - pts, flag msg (snd st)) else st.

(** [t is not None and t > c] *)
Definition some_gt (t : option number) (c : number) : bool :=
  match t with Some x => fgtb x c | None => false end.
Definition some_lt (t : option number) (c : number) : bool :=
  match t with Some x => fltb x c | None => false end.
(** [a is not None and b is not None and a > b + 0.25] *)
Definition faster_than (a b : option number) : bool :=
  match a, b with
  | Some x, Some y => fgtb x (fadd y (Fin (25 # 100)))
  | _, _ => false
  end.

(** 8) Trend sanity checks (3-year) *)
Definition trend_checks (bs3 fs3 : DataFrame) (s : scoring)
  : result scoring :=
  liab_trend <- _trend_pct (df_get bs3 "Total Liabilities Net Minority Interest") ;;
  rev_trend <- _trend_pct (df_get fs3 "Total Revenue") ;;
  ni_trend <- _trend_pct (df_get fs3 "Net Income") ;;
  rec_trend <- _trend_pct (df_get bs3 "Accounts Receivable") ;;
  inv_trend <- _trend_pct (df_get bs3 "Inventory") ;;
  let st := (10, s) in
  let st := deduct (some_gt liab_trend (Fin (1 # 2))) 3
    "Liabilities grew >50% over last ~3 reported years (leverage trending up)." st in
  let st := deduct (some_lt rev_trend (of_Z 0)) 3
    "Revenue trend is negative over last ~3 reported years." st in
  let st := deduct (some_lt ni_trend (of_Z 0)) 3
    "Net income trend is negative over last ~3 reported years." st in
  let st := deduct (faster_than rec_trend rev_trend) 2
    "Receivables rising much faster than revenue (collection risk)." st in
  let st := deduct (faster_than inv_trend rev_trend) 2
    "Inventory rising much faster than revenue (demand/stock risk)." st in
  Ok (set_metric "Trend Checks (3y)" (Z.max (fst st) 0) (snd st)).

Definition sum_Z (l : list Z) : Z := fold_right Z.add 0 l.

(** [round((total / (10 * len(metric_scores))) * 100) if metric_scores
    else 0] *)
Definition total_score (ms : dict Z) : Z :=
  match ms with
  | [] => 0
  | _ =>
      let total := sum_Z (dict_values ms) in
      round_half_even
        (inject_Z total / inject_Z (10 * Z.of_nat (List.length ms))
         * inject_Z 100)%Q
  end.

Definition rating_of (score : Z) : string :=
  if score >=? 80 then "Strong"
  else if score >=? 60 then "Okay"
  else if score >=? 40 then "Weak"
  else "Risky".

Definition no_data : HealthAssessment :=
  mkHealth 0 "No Data" []
           ["Missing statements from Yahoo Finance for this ticker."] [].

Definition latest (df : DataFrame) : list number :=
  snd (List.last (rows df) (mkDate 0 0 0, [])).

(** The scoring proper, after the early exit: [bs], [fs] and [cf] are
    the sorted, non-empty statements.  The source also takes the last
    three rows of the cash flow ([cf3]) and never reads them. *)
Definition score_latest (bs fs cf : DataFrame) : result HealthAssessment :=
  let latest_bs := row_get (columns bs) (latest bs) in
  let latest_fs := row_get (columns fs) (latest fs) in
  let latest_cf := row_get (columns cf) (latest cf) in
  let cur_assets := latest_bs "Current Assets" in
  let cur_liab := latest_bs "Current Liabilities" in
  let tot_assets := latest_bs "Total Assets" in
  let tot_liab := latest_bs "Total Liabilities Net Minority Interest" in
  let equity := latest_bs "Total Equity Gross Minority Interest" in
  let cash := latest_bs "Cash And Cash Equivalents" in
  let revenue := latest_fs "Total Revenue" in
  let ebit := latest_fs "EBIT" in
  let gross_profit := latest_fs "Gross Profit" in
  let net_income := latest_fs "Net Income" in
  let ocf := latest_cf "Operating Cash Flow" in
  let fcf := latest_cf "Free Cash Flow" in
  let capex := latest_cf "Capital Expenditure" in
  let s := mkScoring [] [] [] in
  let s := snap "Current Assets" cur_assets s in
  let s := snap "Current Liabilities" cur_liab s in
  let s := snap "Total Assets" tot_assets s in
  let s := snap "Total Liabilities" tot_liab s in
  let s := snap "Total Equity" equity s in
  let s := snap "Cash & Equivalents" cash s in
  let s := snap "Revenue" revenue s in
  let s := snap "EBIT" ebit s in
  let s := snap "Gross Profit" gross_profit s in
  let s := snap "Net Income" net_income s in
  let s := snap "Operating Cash Flow" ocf s in
  let s := snap "Free Cash Flow" fcf s in
  let s := snap "Capex" capex s in
  let bs3 := _last_n_years bs 3 in
  let fs3 := _last_n_years fs 3 in
  let s := liquidity cur_assets cur_liab s in
  let s := leverage tot_liab equity s in
  let s := solvency tot_liab tot_assets s in
  let s := profitability ebit revenue s in
  let s := unit_economics gross_profit revenue s in
  let s := earnings_quality ocf net_income s in
  let s := free_cash_flow fcf revenue s in
  s <- trend_checks bs3 fs3 s ;;
  let score := total_score (s_metric_scores s) in
  Ok (mkHealth score (rating_of score) (s_metric_scores s)
               (s_flags s) (s_snapshot s)).

(** [x.sort_index() if x is not None else pd.DataFrame()] *)
Definition sorted_or_empty (x : option DataFrame) : DataFrame :=
  match x with
  | Some d => sort_index d
  | None => empty_frame
  end.

Definition score_company_health (ticker : string)
           (balance_sheet financials cashflow : option DataFrame)
  : result HealthAssessment :=
  let bs := sorted_or_empty balance_sheet in
  let fs := sorted_or_empty financials in
  let cf := sorted_or_empty cashflow in
  if empty bs || empty fs || empty cf then Ok no_data
  else score_latest bs fs cf.

End Health.

(* ================================================================= *)
(** ** financialstatementfunctions_p.py *)

Module Statements.

(** *** Frames with a [Company] column

    The ratio tables carry one text column, [Company], beside their
    float columns.  It is kept apart from the float cells: a row is its
    period, the company ([None] where pandas would hold NaN) and the
    float cells, which belong to [cf_columns] in order. *)

Record CompanyFrame : Type := mkCF {
  cf_columns : list string;
  cf_rows : list (date * (option string * list number))
}.

(** [df['Company'] = values]: the list must be as long as the index. *)
Definition set_company (df : DataFrame) (values : list string)
  : result CompanyFrame :=
  if (List.length values =? List.length (rows df))%nat then
    Ok (mkCF (columns df)
             (map (fun p => (fst (fst p), (Some (snd p), snd (fst p))))
                  (combine (rows df) values)))
  else
    Raise (ValueError "Length of values does not match length of index").

Fixpoint union_cols (acc : list string) (l : list string) : list string :=
  match l with
  | [] => acc
  | c :: l' => union_cols (if mem_col c acc then acc else acc ++ [c]) l'
  end.

(** [pd.concat(frames, ignore_index=False)]: the rows one frame after
    the other.  Frames with the same labels are stacked as they are;
    otherwise the columns are the union of the labels.  An empty list is
    refused. *)
Definition concat (frames : list CompanyFrame) : result CompanyFrame :=
  match frames with
  | [] => Raise (ValueError "No objects to concatenate")
  | f :: fs =>
      if forallb (fun g => cols_eqb (cf_columns g) (cf_columns f)) fs then
        Ok (mkCF (cf_columns f) (flat_map cf_rows frames))
      else
        let cols := fold_left union_cols (map cf_columns frames) [] in
        Ok (mkCF cols
              (flat_map
                 (fun g =>
                    map (fun r =>
                           (fst r,
                            (fst (snd r),
                             select_cells (cf_columns g) (snd (snd r)) cols)))
                        (cf_rows g))
                 frames))
  end.

Fixpoint lookup_row {A} (d : date) (l : list (date * A)) : option A :=
  match l with
  | [] => None
  | (e, x) :: l' => if date_eqb d e then Some x else lookup_row d l'
  end.


(** The same, the frame with the company being the second one. *)
Definition concat_columns_r (a : DataFrame) (b : CompanyFrame) : CompanyFrame :=
  let nans (cols : list string) := map (fun _ => NaN) cols in
  if dates_eqb (df_index a) (map fst (cf_rows b)) then
    mkCF (columns a ++ cf_columns b)
         (map (fun p => (fst (fst p),
                         (fst (snd (snd p)),
                          snd (fst p) ++ snd (snd (snd p)))))
              (combine (rows a) (cf_rows b)))
  else
    mkCF (columns a ++ cf_columns b)
         (map (fun d =>
                 let ra := match lookup_row d (rows a) with
                           | Some r => r
                           | None => nans (columns a)
                           end in
                 let rb := match lookup_row d (cf_rows b) with
                           | Some r => r
                           | None => (None, nans (cf_columns b))
                           end in
                 (d, (fst rb, ra ++ snd rb)))
              (union_index (df_index a) (map fst (cf_rows b)))).

(** *** Grouping and ranking *)

Fixpoint insert_company (c : string) (l : list string) : list string :=
  match l with
  | [] => [c]
  | e :: l' =>
      if String.leb c e then c :: l
      else e :: insert_company c l'
  end.

Definition companies (rs : list (date * (option string * list number)))
  : list string :=
  flat_map (fun r => match fst (snd r) with
                     | Some c => [c]
                     | None => []
                     end) rs.

(** The group keys of [groupby('Company')]: the companies present,
    each once, in ascending order; rows without a company are left
    out. *)
Definition group_keys (rs : list (date * (option string * list number)))
  : list string :=
  fold_right insert_company [] (nodup string_dec (companies rs)).

Definition is_company (c : string) (r : date * (option string * list number))
  : bool :=
  match fst (snd r) with
  | Some c' => String.eqb c c'
  | None => false
  end.

(** [rows.groupby('Company')[col].mean().reset_index()] *)
Definition groupby_mean (cols : list string)
           (rs : list (date * (option string * list number)))
           (col : string) : result (list (string * number)) :=
  match position col cols with
  | None => Raise (KeyError col)
  | Some i =>
      Ok (map (fun c =>
                 (c, mean (map (fun r => nth i (snd (snd r)) NaN)
                               (filter (is_company c) rs))))
              (group_keys rs))
  end.

(** [x] comes strictly before [y] in a descending sort with NaN last. *)
Definition ranks_before (x y : number) : bool :=
  (negb (isnan x) && isnan y) || fgtb x y.

Fixpoint insert_desc (r : string * number) (l : list (string * number))
  : list (string * number) :=
  match l with
  | [] => [r]
  | e :: l' =>
      if ranks_before (snd e) (snd r) then e :: insert_desc r l'
      else r :: l
  end.

(** [t.sort_values(by=col, ascending=False)]; rows with equal values
    keep their order here, pandas promises none for them. *)
Definition sort_values_desc (t : list (string * number))
  : list (string * number) :=
  fold_right insert_desc [] t.

(** The rows of [df[df.index >= (df.index.max() - pd.DateOffset(years=2))]]. *)
Definition last_two_years {A} (rs : list (date * A)) : list (date * A) :=
  match rs with
  | [] => []
  | r :: rs' =>
      let cutoff := sub_years (max_date (fst r) (map fst rs')) 2 in
      filter (fun x => date_leb cutoff (fst x)) rs
  end.

Definition get_RankingTableProfitability (profitability : CompanyFrame)
  : result (list (string * number) * list (string * number)) :=
  let df := sort_by_date (cf_rows profitability) in
  let last_two_years := last_two_years df in
  gross <- groupby_mean (cf_columns profitability) last_two_years
                        "Gross Profit Margin YoY Change" ;;
  let gross := sort_values_desc gross in
  operating <- groupby_mean (cf_columns profitability) last_two_years
                            "Operating Profit Margin YoY Change" ;;
  let operating := sort_values_desc operating in
  Ok (gross, operating).

(** *** Column selection *)

(** Select columns defensively: missing columns become NaN. *)
Definition _safe_select_columns (df : DataFrame) (cols : list string)
  : result DataFrame :=
  reindex df cols.

Fixpoint _first_existing (df : DataFrame) (candidates : list string)
  : option string :=
  match candidates with
  | [] => None
  | c :: cs => if mem_col c (columns df) then Some c
               else _first_existing df cs
  end.

Definition current_Assets_columns : list string :=
  ["Cash And Cash Equivalents"; "Other Short Term Investments";
   "Accounts Receivable"; "Inventory"; "Other Current Assets";
   "Current Assets"].

Definition non_current_Assets_columns : list string :=
  ["Net PPE"; "Investments And Advances"; "Other Non Current Assets";
   "Total Non Current Assets"].

Definition get_Assets (balancesheet : DataFrame)
  : result (DataFrame * DataFrame * DataFrame) :=
  current_Assets <- _safe_select_columns balancesheet current_Assets_columns ;;
  non_current_Assets <-
    _safe_select_columns balancesheet non_current_Assets_columns ;;
  total_Assets <- _safe_select_columns balancesheet ["Total Assets"] ;;
  Ok (current_Assets, non_current_Assets, total_Assets).

Definition current_liabilities_columns : list string :=
  ["Other Current Liabilities"; "Current Deferred Liabilities";
   "Current Debt And Capital Lease Obligation";
   "Payables And Accrued Expenses"; "Current Liabilities"].

Definition non_current_liabilities_columns : list string :=
  ["Other Non Current Liabilities";
   "Long Term Debt And Capital Lease Obligation";
   "Total Non Current Liabilities Net Minority Interest"].

Definition get_Liabilities (balancesheet : DataFrame)
  : result (DataFrame * DataFrame * DataFrame) :=
  current_Liabilities <-
    _safe_select_columns balancesheet current_liabilities_columns ;;
  non_current_Liabilities <-
    _safe_select_columns balancesheet non_current_liabilities_columns ;;
  total_Liabilities <-
    _safe_select_columns balancesheet
      ["Total Liabilities Net Minority Interest"] ;;
  Ok (current_Liabilities, non_current_Liabilities, total_Liabilities).

Definition equity_candidates : list string :=
  ["Total Equity Gross Minority Interest"; "Stockholders Equity";
   "Total Stockholder Equity"; "Common Stock Equity"; "Total Equity"].

Definition get_Equity (balancesheet : DataFrame) : result DataFrame :=
  match _first_existing balancesheet equity_candidates with
  | None =>
      Ok (mkDF ["Total Equity Gross Minority Interest"]
               (map (fun r => (fst r, [NaN])) (rows balancesheet)))
  | Some col =>
      s <- getitem balancesheet col ;;
      Ok (frame_of_series "Total Equity Gross Minority Interest" s)
  end.

Definition financialcolumns : list string :=
  ["Total Revenue"; "Gross Profit"; "Cost Of Revenue"; "Operating Income";
   "Operating Expense"; "Other Non Operating Income Expenses";
   "Tax Provision"; "Pretax Income"; "Net Income";
   "Diluted NI Availto Com Stockholders"; "Net Interest Income";
   "Interest Expense"; "Interest Income"; "Normalized Income";
   "Net Income From Continuing And Discontinued Operation";
   "Total Expenses"; "Diluted Average Shares"; "Basic Average Shares";
   "Diluted EPS"; "Basic EPS"; "Other Income Expense";
   "Tax Effect Of Unusual Items"; "Tax Rate For Calcs";
   "Normalized EBITDA";
   "Net Income From Continuing Operation Net Minority Interest";
   "Reconciled Depreciation"; "Reconciled Cost Of Revenue"; "EBITDA";
   "EBIT"].

Definition cashflowcolumns : list string :=
  ["Free Cash Flow"; "Repurchase Of Capital Stock"; "Repayment Of Debt";
   "Issuance Of Debt"; "Capital Expenditure"; "End Cash Position";
   "Financing Cash Flow"; "Investing Cash Flow"; "Operating Cash Flow"].

(** *** Ratios *)

(** [pd.DataFrame({name: a[num] / b[den]})] *)
Definition ratio_frame (name : string) (a : DataFrame) (num : string)
           (b : DataFrame) (den : string) : result DataFrame :=
  x <- getitem a num ;;
  y <- getitem b den ;;
  Ok (frame_of_series name (series_div x y)).

Definition get_CurrentRatio (current_Assets current_Liabilities : DataFrame) :=
  ratio_frame "Current Ratio" current_Assets "Current Assets"
              current_Liabilities "Current Liabilities".

Definition get_DebttoEquityRatio
           (total_Liabilities total_ShareHolderEquity : DataFrame) :=
  ratio_frame "Debt_to_Equity_Ratio"
              total_Liabilities "Total Liabilities Net Minority Interest"
              total_ShareHolderEquity "Total Equity Gross Minority Interest".

Definition get_EquityMultiplierRatio
           (total_Assets total_ShareHolderEquity : DataFrame) :=
  ratio_frame "Equity_Multiplier_Ratio" total_Assets "Total Assets"
              total_ShareHolderEquity "Total Equity Gross Minority Interest".

Definition get_DebttoAssetsRatio (total_Liabilities total_Assets : DataFrame) :=
  ratio_frame "Debt_To_Assets_Ratio"
              total_Liabilities "Total Liabilities Net Minority Interest"
              total_Assets "Total Assets".

Definition get_AssetTurnoverRatio (total_Revenue total_Assets : DataFrame) :=
  ratio_frame "Asset Turnover Ratio" total_Revenue "Total Revenue"
              total_Assets "Total Assets".

Definition get_CashFlowtoNetIncomeRatio (cashflow financial : DataFrame) :=
  ratio_frame "Cash Flow to Income Ratio" cashflow "Operating Cash Flow"
              financial "Net Income".

Definition get_OperatingCashFlowRatio
           (cashflow current_Liabilities : DataFrame) :=
  ratio_frame "Operating Cash Flow Ratio" cashflow "Operating Cash Flow"
              current_Liabilities "Current Liabilities".




(** [round(s.pct_change() * 100, 2)] *)
Definition yoy_change (pad : bool) (l : list number) : list number :=
  map (fun x => round2 (fmul x (of_Z 100))) (pct_change pad l).

(** [df = df.sort_index()] and then
    [df[name + ' YoY Change'] = round(df[name].pct_change() * 100, 2)] *)
Definition with_yoy (pad : bool) (name : string) (df : DataFrame)
  : result DataFrame :=
  let df := sort_index df in
  s <- getitem df name ;;
  Ok (add_column df (name ++ " YoY Change")%string
                 (yoy_change pad (values s))).

(** *** Relative difference and the other rankings *)

Definition ratio_list : list string :=
  ["Current Ratio"; "Debt_to_Equity_Ratio"; "Equity_Multiplier_Ratio";
   "Debt_To_Assets_Ratio"; "Asset Turnover Ratio";
   "Cash Flow to Income Ratio"; "Operating Cash Flow Ratio"].

(** One turn of the loop of [get_RelativeDifferenceofRatio] on the
    table of the ratio [name]: [df['Year'] = df.index.year], then
    [df['Comparison Ratio']], the mean of the ratio over the rows of the
    same year, and [df['Relative_Difference']], the ratio over that mean,
    minus 1.  The table is one of [get_RatiosofMultipleCompanies], whose
    rows have a cell for each column. *)
Definition relative_difference (name : string) (df : CompanyFrame)
  : result CompanyFrame :=
  match position name (cf_columns df) with
  | None => Raise (KeyError name)
  | Some i =>
      let value (r : date * (option string * list number)) :=
        nth i (snd (snd r)) NaN in
      let comparison (r : date * (option string * list number)) :=
        mean (map value
                  (filter (fun x => year (fst x) =? year (fst r))
                          (cf_rows df))) in
      Ok (mkCF (cf_columns df
                  ++ ["Year"; "Comparison Ratio"; "Relative_Difference"])
               (map (fun r =>
                       (fst r,
                        (fst (snd r),
                         snd (snd r)
                           ++ [of_Z (year (fst r)); comparison r;
                               fsub (fdiv (value r) (comparison r))
                                    (of_Z 1)])))
                    (cf_rows df)))
  end.

(** The body the three ranking functions share: the rows of the last two
    years, the mean of a column by company, in descending order. *)
Definition ranking_by (df : CompanyFrame) (col : string)
  : result (list (string * number)) :=
  g <- groupby_mean (cf_columns df)
                    (last_two_years (sort_by_date (cf_rows df))) col ;;
  Ok (sort_values_desc g).

Definition get_RankingTableLiquidity (liquidity : CompanyFrame)
  : result (list (string * number) * list (string * number)) :=
  current_ratio_Ranking <- ranking_by liquidity "Current Ratio" ;;
  operating_cash_flow_ratio_Ranking <-
    ranking_by liquidity "Operating Cash Flow Ratio" ;;
  Ok (current_ratio_Ranking, operating_cash_flow_ratio_Ranking).

Definition get_RankingTableEfficiency (efficiency : CompanyFrame)
  : result (list (string * number) * list (string * number)) :=
  cash_flow_to_net_income_Ratio_Ranking <-
    ranking_by efficiency "Cash Flow to Income Ratio" ;;
  asset_turnover_Ratio_Ranking <-
    ranking_by efficiency "Cash Flow to Income Ratio YoY Change" ;;
  Ok (cash_flow_to_net_income_Ratio_Ranking, asset_turnover_Ratio_Ranking).

(** [for each x: y = f(x); acc.append(y)], stopping at the first
    exception. *)
Fixpoint for_each {A B} (f : A -> result B) (l : list A) (acc : list B)
  : result (list B) :=
  match l with
  | [] => Ok acc
  | x :: rest =>
      y <- f x ;;
      for_each f rest (acc ++ [y])
  end.

(** *** Fetching the statements

    [yfinance] is the provider: for a ticker it hands over the three
    statements, transposed so that the index is the period, or it
    raises. *)

Record balance_sheet_parts : Type := mkParts {
  current_Assets : DataFrame;
  non_current_Assets : DataFrame;
  total_Assets : DataFrame;
  current_Liabilities : DataFrame;
  non_current_Liabilities : DataFrame;
  total_Liabilities : DataFrame;
  total_ShareHolderEquity : DataFrame
}.

(** The seven tables of [get_RatiosofMultipleCompanies], in the order
    of its result; during the loop, the seven lists. *)
Record ratios (A : Type) : Type := mkRatios {
  current_ratio : A;
  debt_to_equity_ratio : A;
  equity_multiplier_ratio : A;
  debt_to_assets_ratio : A;
  asset_turnover_ratio : A;
  cash_flow_to_net_income_ratio : A;
  operating_cash_flow_ratio : A
}.
Arguments mkRatios {A}.
Arguments current_ratio {A}.
Arguments debt_to_equity_ratio {A}.
Arguments equity_multiplier_ratio {A}.
Arguments debt_to_assets_ratio {A}.
Arguments asset_turnover_ratio {A}.
Arguments cash_flow_to_net_income_ratio {A}.
Arguments operating_cash_flow_ratio {A}.

Section Provider.

(** [yf.Ticker(t).balancesheet.T], [.financials.T], [.cashflow.T] *)
Variable balancesheet_T : string -> result DataFrame.
Variable financials_T : string -> result DataFrame.
Variable cashflow_T : string -> result DataFrame.

(** Whether [pct_change] forward-fills (the pandas version). *)
Variable pad : bool.

Definition extract_balance_sheet (ticker : string)
  : result balance_sheet_parts :=
  balancesheet <- balancesheet_T ticker ;;
  ' (ca, nca, ta) <- get_Assets balancesheet ;;
  ' (cl, ncl, tl) <- get_Liabilities balancesheet ;;
  eq <- get_Equity balancesheet ;;
  Ok (mkParts ca nca ta cl ncl tl eq).

Definition get_TotalRevenue (ticker : string) : result DataFrame :=
  financial <- financials_T ticker ;;
  s <- getitem financial "Total Revenue" ;;
  Ok (frame_of_series "Total Revenue" s).

Definition get_Financial (ticker : string) : result DataFrame :=
  financial <- financials_T ticker ;;
  _safe_select_columns financial financialcolumns.

Definition get_CashFLow (ticker : string) : result DataFrame :=
  cashflow <- cashflow_T ticker ;;
  _safe_select_columns cashflow cashflowcolumns.

(** The body of the loop of [get_RatiosofMultipleCompanies] for one
    ticker: the seven ratio frames, each with its [Company] column,
    appended to the seven lists.  Every [Company] column is given the
    length of the current-ratio frame. *)
Definition ratios_of_ticker (ticker : string)
  : result (ratios CompanyFrame) :=
  bs <- extract_balance_sheet ticker ;;
  total_Revenue <- get_TotalRevenue ticker ;;
  financial <- get_Financial ticker ;;
  cashflow <- get_CashFLow ticker ;;
  current_Ratio <-
    get_CurrentRatio (current_Assets bs) (current_Liabilities bs) ;;
  debt_to_equity_Ratio <-
    get_DebttoEquityRatio (total_Liabilities bs)
                          (total_ShareHolderEquity bs) ;;
  equity_multiplier_Ratio <-
    get_EquityMultiplierRatio (total_Assets bs)
                              (total_ShareHolderEquity bs) ;;
  debt_to_assets_Ratio <-
    get_DebttoAssetsRatio (total_Liabilities bs) (total_Assets bs) ;;
  asset_turnover_Ratio <-
    get_AssetTurnoverRatio total_Revenue (total_Assets bs) ;;
  cash_flow_to_net_income_Ratio <-
    get_CashFlowtoNetIncomeRatio cashflow financial ;;
  operating_cash_flow_Ratio <-
    get_OperatingCashFlowRatio cashflow (current_Liabilities bs) ;;
  let company := repeat ticker (List.length (rows current_Ratio)) in
  r1 <- set_company current_Ratio company ;;
  r2 <- set_company debt_to_equity_Ratio company ;;
  r3 <- set_company equity_multiplier_Ratio company ;;
  r4 <- set_company debt_to_assets_Ratio company ;;
  r5 <- set_company asset_turnover_Ratio company ;;
  r6 <- set_company cash_flow_to_net_income_Ratio company ;;
  r7 <- set_company operating_cash_flow_Ratio company ;;
  Ok (mkRatios r1 r2 r3 r4 r5 r6 r7).

Definition append_ratios (acc : ratios (list CompanyFrame))
           (r : ratios CompanyFrame) : ratios (list CompanyFrame) :=
  mkRatios (current_ratio acc ++ [current_ratio r])
           (debt_to_equity_ratio acc ++ [debt_to_equity_ratio r])
           (equity_multiplier_ratio acc ++ [equity_multiplier_ratio r])
           (debt_to_assets_ratio acc ++ [debt_to_assets_ratio r])
           (asset_turnover_ratio acc ++ [asset_turnover_ratio r])
           (cash_flow_to_net_income_ratio acc
              ++ [cash_flow_to_net_income_ratio r])
           (operating_cash_flow_ratio acc ++ [operating_cash_flow_ratio r]).

(** [for i in range(len(listoftickers)): ...] *)
Fixpoint ratios_loop (listoftickers : list string)
         (acc : ratios (list CompanyFrame))
  : result (ratios (list CompanyFrame)) :=
  match listoftickers with
  | [] => Ok acc
  | ticker :: rest =>
      r <- ratios_of_ticker ticker ;;
      ratios_loop rest (append_ratios acc r)
  end.

Definition get_RatiosofMultipleCompanies (listoftickers : list string)
  : result (ratios CompanyFrame) :=
  lists <- ratios_loop listoftickers (mkRatios [] [] [] [] [] [] []) ;;
  c1 <- concat (current_ratio lists) ;;
  c2 <- concat (debt_to_equity_ratio lists) ;;
  c3 <- concat (equity_multiplier_ratio lists) ;;
  c4 <- concat (debt_to_assets_ratio lists) ;;
  c5 <- concat (asset_turnover_ratio lists) ;;
  c6 <- concat (cash_flow_to_net_income_ratio lists) ;;
  c7 <- concat (operating_cash_flow_ratio lists) ;;
  Ok (mkRatios c1 c2 c3 c4 c5 c6 c7).




Definition get_CompleteBalancesheet (ticker : string) : result DataFrame :=
  bs <- extract_balance_sheet ticker ;;
  concat_axis1 [current_Assets bs; non_current_Assets bs; total_Assets bs;
                current_Liabilities bs; non_current_Liabilities bs;
                total_Liabilities bs; total_ShareHolderEquity bs].

(** The body of the loops of [get_MultipleFinancial],
    [get_MultipleCashFlow] and [get_MultipleBalanceSheet]:
    [df = get(ticker); df['Company'] = [ticker] * len(df)]. *)
Definition with_company (get : string -> result DataFrame) (ticker : string)
  : result CompanyFrame :=
  df <- get ticker ;;
  set_company df (repeat ticker (List.length (rows df))).

Definition get_MultipleFinancial (listoftickers : list string)
  : result CompanyFrame :=
  df_list <- for_each (with_company get_Financial) listoftickers [] ;;
  concat df_list.

Definition get_MultipleCashFlow (listoftickers : list string)
  : result CompanyFrame :=
  df_list <- for_each (with_company get_CashFLow) listoftickers [] ;;
  concat df_list.

Definition get_MultipleBalanceSheet (listoftickers : list string)
  : result CompanyFrame :=
  df_list <-
    for_each (with_company get_CompleteBalancesheet) listoftickers [] ;;
  concat df_list.



(** The body of the loop of [get_MultipleLiquidityRatios]. *)
Definition liquidity_of_ticker (ticker : string) : result CompanyFrame :=
  bs <- extract_balance_sheet ticker ;;
  cashflow <- get_CashFLow ticker ;;
  current_Ratio <-
    get_CurrentRatio (current_Assets bs) (current_Liabilities bs) ;;
  current_Ratio <- with_yoy pad "Current Ratio" current_Ratio ;;
  operating_cash_flow_Ratio <-
    get_OperatingCashFlowRatio cashflow (current_Liabilities bs) ;;
  operating_cash_flow_Ratio <-
    with_yoy pad "Operating Cash Flow Ratio" operating_cash_flow_Ratio ;;
  operating_cash_flow_Ratio <-
    set_company operating_cash_flow_Ratio
      (repeat ticker (List.length (rows operating_cash_flow_Ratio))) ;;
  Ok (concat_columns_r current_Ratio operating_cash_flow_Ratio).

Definition get_MultipleLiquidityRatios (listoftickers : list string)
  : result CompanyFrame :=
  listofdfs <- for_each liquidity_of_ticker listoftickers [] ;;
  concat listofdfs.

(** The loop runs over all seven tables; the result hands out the sixth
    one, [new_df_list[5]], twice. *)
Definition get_RelativeDifferenceofRatio (listoftickers : list string)
  : result (ratios CompanyFrame) :=
  r <- get_RatiosofMultipleCompanies listoftickers ;;
  n0 <- relative_difference "Current Ratio" (current_ratio r) ;;
  n1 <- relative_difference "Debt_to_Equity_Ratio" (debt_to_equity_ratio r) ;;
  n2 <- relative_difference "Equity_Multiplier_Ratio"
                            (equity_multiplier_ratio r) ;;
  n3 <- relative_difference "Debt_To_Assets_Ratio" (debt_to_assets_ratio r) ;;
  n4 <- relative_difference "Asset Turnover Ratio" (asset_turnover_ratio r) ;;
  n5 <- relative_difference "Cash Flow to Income Ratio"
                            (cash_flow_to_net_income_ratio r) ;;
  n6 <- relative_difference "Operating Cash Flow Ratio"
                            (operating_cash_flow_ratio r) ;;
  Ok (mkRatios n0 n1 n2 n3 n4 n5 n5).

End Provider.

End Statements.

(* ================================================================= *)
(** ** streamlit_app.py *)

Module App.

Import Health Statements.

(** The loop of [_dedup_keep_order], [seen] and [out] being its two
    accumulators; [seen] is a set, of which only membership is used. *)
Fixpoint dedup_loop (seq seen out : list string) : list string :=
  match seq with
  | [] => out
  | x :: rest =>
      if mem_col x seen then dedup_loop rest seen out
      else dedup_loop rest (x :: seen) (out ++ [x])
  end.

Definition _dedup_keep_order (seq : list string) : list string :=
  dedup_loop seq [] [].

(** One turn of the loop of [_latest_snapshot]: the rows of the ticker,
    sorted; [None] for [continue] when there is none, otherwise the
    values of the last row under the labels [cols]. *)
Definition snapshot_row (df : CompanyFrame) (t : string) (cols : list string)
  : option (string * list (option number)) :=
  let d := sort_by_date (filter (is_company t) (cf_rows df)) in
  match d with
  | [] => None
  | _ =>
      let row := snd (snd (List.last d (mkDate 0 0 0, (None, [])))) in
      Some (t, map (row_get (cf_columns df) row) cols)
  end.

Definition _latest_snapshot (df : CompanyFrame) (tickers cols : list string)
  : list (string * list (option number)) :=
  flat_map (fun t => match snapshot_row df t cols with
                     | Some r => [r]
                     | None => []
                     end) tickers.

(** A row of the health table of the dashboard. *)
Record health_row : Type := mkRow {
  Company : string;
  Score : option Z;
  Rating : string
}.

Fixpoint insert_score (r : health_row) (l : list health_row)
  : list health_row :=
  match l with
  | [] => [r]
  | e :: l' =>
      let before :=
        match Score e, Score r with
        | Some x, Some y => y <? x
        | Some _, None => true
        | None, _ => false
        end in
      if before then e :: insert_score r l' else r :: l
  end.

(** [sort_values(by="Score", ascending=False, na_position="last")] *)
Definition sort_by_score (l : list health_row) : list health_row :=
  fold_right insert_score [] l.

Section Provider.

Variable balancesheet_T : string -> result DataFrame.
Variable financials_T : string -> result DataFrame.
Variable cashflow_T : string -> result DataFrame.

Definition _build_health_for_ticker (ticker : string)
  : result HealthAssessment :=
  bs <- extract_balance_sheet balancesheet_T ticker ;;
  bs_single <-
    concat_axis1 [current_Assets bs; non_current_Assets bs; total_Assets bs;
                  current_Liabilities bs; non_current_Liabilities bs;
                  total_Liabilities bs; total_ShareHolderEquity bs] ;;
  fs_single <- get_Financial financials_T ticker ;;
  cf_single <- get_CashFLow cashflow_T ticker ;;
  score_company_health ticker (Some bs_single) (Some fs_single)
                       (Some cf_single).

(** The loop of the dashboard over the tickers: [try] the build,
    [except Exception] a row without score. *)
Definition health_rows (tickers : list string) : list health_row :=
  map (fun t => match _build_health_for_ticker t with
                | Ok h => mkRow t (Some (score h)) (rating h)
                | Raise _ => mkRow t None "No Data"
                end) tickers.

Definition health_df (tickers : list string) : list health_row :=
  sort_by_score (health_rows tickers).

(** The cache returns what the function returned for the same tickers;
    an exception is not cached. *)
Definition _load_statements (tickers : list string)
  : result (CompanyFrame * CompanyFrame * CompanyFrame) :=
  bs <- get_MultipleBalanceSheet balancesheet_T tickers ;;
  fs <- get_MultipleFinancial financials_T tickers ;;
  cf <- get_MultipleCashFlow cashflow_T tickers ;;
  Ok (bs, fs, cf).

End Provider.

End App.

(* ================================================================= *)
(** ** What the statements below talk about *)

Import Health Statements App.

(** A statement that is missing ([None]) or empty. *)
Definition missing_or_empty (x : option DataFrame) : Prop :=
  match x with
  | None => True
  | Some d => empty d = true
  end.

(** The five columns the trend checks read. *)
Definition trend_columns_present (bs fs : DataFrame) : Prop :=
  mem_col "Total Liabilities Net Minority Interest" (columns bs) = true /\
  mem_col "Accounts Receivable" (columns bs) = true /\
  mem_col "Inventory" (columns bs) = true /\
  mem_col "Total Revenue" (columns fs) = true /\
  mem_col "Net Income" (columns fs) = true.

Definition in_band (v : Z) : Prop := 0 <= v <= 10.

(** The invariant of a [HealthAssessment]. *)
Definition assessment_ok (h : HealthAssessment) : Prop :=
  0 <= score h <= 100 /\
  In (rating h) ["Strong"; "Okay"; "Weak"; "Risky"; "No Data"] /\
  Forall in_band (dict_values (metric_scores h)).

Definition metrics_ok (s : scoring) : Prop :=
  Forall in_band (dict_values (s_metric_scores s)).

(** What a threshold metric does to the locals: it records a score under
    its key and appends some flags.  When the ratio is [None] the score is
    0 and the flags are [could_not]; otherwise the score is 10 or 7 with
    no flag, or 4 or 1 with one flag. *)
Definition band_behaviour
           (step : option number -> option number -> scoring -> scoring)
           (key : string) (could_not : list string) : Prop :=
  forall a b s, exists v fl,
    dict_get key (s_metric_scores (step a b s)) = Some v /\
    s_flags (step a b s) = s_flags s ++ fl /\
    match _safe_div a b with
    | None => v = 0 /\ fl = could_not
    | Some _ =>
        ((v = 10 \/ v = 7) /\ fl = []) \/
        ((v = 4 \/ v = 1) /\ List.length fl = 1%nat)
    end.

(** The revenue the free-cash-flow bound is taken of: the revenue itself,
    or 1 when it is [None] or zero.  A NaN or infinite revenue has none. *)
Definition bound_revenue (revenue : option number) (R : Q) : Prop :=
  match revenue with
  | None => (R == 1)%Q
  | Some (Fin r) => if Qeq_bool r 0 then (R == 1)%Q else (R == r)%Q
  | Some _ => False
  end.

(** [latest] is the latest period of the rows. *)
Definition is_latest {A} (latest : date) (rs : list (date * A)) : Prop :=
  In latest (map fst rs) /\
  forall r, In r rs -> date_leb (fst r) latest = true.

(** No row of a ranking ranks strictly before the row above it. *)
Definition descending (t : list (string * number)) : Prop :=
  Sorted (fun a b => ranks_before (snd b) (snd a) = false) t.

(** [t] is the ranking of the rows [rs] on the metric in cell [i], the
    window being the rows not earlier than [latest] minus two years: one
    row per company of the window, with the mean of its values there,
    in descending order. *)
Definition ranking_of (rs : list (date * (option string * list number)))
           (latest : date) (i : nat) (t : list (string * number)) : Prop :=
  let window :=
    filter (fun r => date_leb (sub_years latest 2) (fst r)) (sort_by_date rs) in
  descending t /\
  NoDup (map fst t) /\
  (forall c v,
      In (c, v) t <->
      (exists r, In r window /\ fst (snd r) = Some c) /\
      v = mean (map (fun r => nth i (snd (snd r)) NaN)
                    (filter (is_company c) window))) /\
  (forall r,
      In r window <->
      In r rs /\ date_leb (sub_years latest 2) (fst r) = true).

(** The window as the specification words it, on calendar years:
    [period.year >= max(period.year) - 2]. *)
Definition calendar_year_window {A} (rs : list (date * A)) : list (date * A) :=
  match rs with
  | [] => []
  | r :: rs' =>
      let max_year := fold_right Z.max (year (fst r))
                                 (map (fun x => year (fst x)) rs') in
      filter (fun x => year (fst x) >=? max_year - 2) rs
  end.

(** The ranking on the gross-margin change with that window. *)
Definition ranking_by_calendar_years (profitability : CompanyFrame)
  : result (list (string * number)) :=
  gross <- groupby_mean (cf_columns profitability)
                        (calendar_year_window
                           (sort_by_date (cf_rows profitability)))
                        "Gross Profit Margin YoY Change" ;;
  Ok (sort_values_desc gross).

Definition profitability_columns : list string :=
  ["Operating Profit Margin"; "Operating Profit Margin YoY Change";
   "Gross Profit Margin"; "Gross Profit Margin YoY Change"].

(** Company A reports at the end of December, company B at the end of
    June. *)
Definition ex_fiscal_years : CompanyFrame :=
  mkCF profitability_columns
       [(mkDate 2022 12 31, (Some "A", [of_Z 20; of_Z 1; of_Z 40; of_Z 5]));
        (mkDate 2023 12 31, (Some "A", [of_Z 21; of_Z 1; of_Z 42; of_Z 5]));
        (mkDate 2021 6 30, (Some "B", [of_Z 10; of_Z 2; of_Z 30; of_Z 100]));
        (mkDate 2023 6 30, (Some "B", [of_Z 11; of_Z 2; of_Z 29; of_Z (-2)]))].

(** Three companies whose mean changes over the window are 5, -2 and
    10. *)
Definition ex_three_companies : CompanyFrame :=
  mkCF profitability_columns
       [(mkDate 2022 12 31, (Some "A", [of_Z 20; of_Z 1; of_Z 40; of_Z 4]));
        (mkDate 2023 12 31, (Some "A", [of_Z 21; of_Z 3; of_Z 42; of_Z 6]));
        (mkDate 2022 12 31, (Some "B", [of_Z 10; of_Z 2; of_Z 30; of_Z (-1)]));
        (mkDate 2023 12 31, (Some "B", [of_Z 11; of_Z 2; of_Z 29; of_Z (-3)]));
        (mkDate 2020 12 31, (Some "C", [of_Z 10; of_Z 2; of_Z 30; of_Z 500]));
        (mkDate 2022 12 31, (Some "C", [of_Z 10; NaN; of_Z 30; NaN]));
        (mkDate 2023 12 31, (Some "C", [of_Z 11; of_Z 7; of_Z 29; of_Z 10]))].

(** The seven tables of a result, as a list. *)
Definition tables {A} (r : ratios A) : list A :=
  [current_ratio r; debt_to_equity_ratio r; equity_multiplier_ratio r;
   debt_to_assets_ratio r; asset_turnover_ratio r;
   cash_flow_to_net_income_ratio r; operating_cash_flow_ratio r].

Definition ratio_names : list string :=
  ["Current Ratio"; "Debt_to_Equity_Ratio"; "Equity_Multiplier_Ratio";
   "Debt_To_Assets_Ratio"; "Asset Turnover Ratio";
   "Cash Flow to Income Ratio"; "Operating Cash Flow Ratio"].

(** The rows of the tickers' frames, ticker after ticker, for each of
    the seven ratios. *)
Definition stacked_rows (rs : list (ratios CompanyFrame))
  : list (list (date * (option string * list number))) :=
  map (fun k => flat_map (fun r => cf_rows (nth k (tables r) (mkCF [] []))) rs)
      (seq 0 7).

(** Every row of the frame carries the ticker. *)
Definition tagged (ticker : string) (f : CompanyFrame) : Prop :=
  Forall (fun row => fst (snd row) = Some ticker) (cf_rows f).

(** A provider that knows the ticker GOOD, has nothing at all for the
    ticker EMPTY and fails for every other ticker. *)
Definition ex_provider (statement : DataFrame) (ticker : string)
  : result DataFrame :=
  if String.eqb ticker "GOOD" then Ok statement
  else if String.eqb ticker "EMPTY" then Ok empty_frame
  else Raise (ProviderError ticker).

(** The points the trend checks leave of the 10 they start with, before
    the floor at 0, given the five trends. *)
Definition trend_points (liab rev ni rec inv : option number) : Z :=
  10 - (if some_gt liab (Fin (1 # 2)) then 3 else 0)
     - (if some_lt rev (of_Z 0) then 3 else 0)
     - (if some_lt ni (of_Z 0) then 3 else 0)
     - (if faster_than rec rev then 2 else 0)
     - (if faster_than inv rev then 2 else 0).

(** The five trends the checks are made on. *)
Definition trends_of (bs3 fs3 : DataFrame)
           (liab rev ni rec inv : option number) : Prop :=
  _trend_pct (df_get bs3 "Total Liabilities Net Minority Interest") = Ok liab /\
  _trend_pct (df_get fs3 "Total Revenue") = Ok rev /\
  _trend_pct (df_get fs3 "Net Income") = Ok ni /\
  _trend_pct (df_get bs3 "Accounts Receivable") = Ok rec /\
  _trend_pct (df_get bs3 "Inventory") = Ok inv.

(** Rows in ascending order of their dates. *)
Definition by_date {A} (x y : date * A) : Prop :=
  date_leb (fst x) (fst y) = true.

(** The first occurrences of a list, in their order. *)
Fixpoint first_occurrences (l : list string) : list string :=
  match l with
  | [] => []
  | x :: l' =>
      x :: filter (fun y => negb (String.eqb y x)) (first_occurrences l')
  end.

(** The seven frames of [extract_balance_sheet], in its order. *)
Definition parts (bs : balance_sheet_parts) : list DataFrame :=
  [current_Assets bs; non_current_Assets bs; total_Assets bs;
   current_Liabilities bs; non_current_Liabilities bs; total_Liabilities bs;
   total_ShareHolderEquity bs].

Definition balance_sheet_columns : list (list string) :=
  [current_Assets_columns; non_current_Assets_columns; ["Total Assets"];
   current_liabilities_columns; non_current_liabilities_columns;
   ["Total Liabilities Net Minority Interest"];
   ["Total Equity Gross Minority Interest"]].

(** The keys of a dict, in insertion order. *)
Definition keys {V} (d : dict V) : list string := map fst d.

(** The keys of the metric scores and of the snapshot of an assessment
    that was computed. *)
Definition metric_keys : list string :=
  ["Liquidity (Current Ratio)"; "Leverage (Debt/Equity proxy)";
   "Solvency (Liab/Assets)"; "Profitability (Operating Margin)";
   "Unit Economics (Gross Margin)"; "Earnings Quality (OCF/Net Income)";
   "Free Cash Flow (FCF)"; "Trend Checks (3y)"].

Definition snapshot_keys : list string :=
  ["Current Assets"; "Current Liabilities"; "Total Assets";
   "Total Liabilities"; "Total Equity"; "Cash & Equivalents"; "Revenue";
   "EBIT"; "Gross Profit"; "Net Income"; "Operating Cash Flow";
   "Free Cash Flow"; "Capex"; "Current Ratio";
   "Debt to Equity (Liab/Equity)"; "Debt to Assets (Liab/Assets)";
   "Operating Margin (EBIT/Revenue)"; "Gross Margin (Gross Profit/Revenue)";
   "OCF / Net Income"].

(** What the scorer raises when a column of the trend checks is absent. *)
Definition no_dropna : exn :=
  AttributeError "'float' object has no attribute 'dropna'".

(** Two states of the locals with the same keys, in the same order, in
    their metric scores and in their snapshots. *)
Definition same_keys (s t : scoring) : Prop :=
  keys (s_metric_scores s) = keys (s_metric_scores t) /\
  keys (s_snapshot s) = keys (s_snapshot t).

(** The order of the health table: scores descending, rows without a
    score after all others. *)
Definition score_desc (r1 r2 : health_row) : Prop :=
  match Score r1, Score r2 with
  | Some x, Some y => y <= x
  | None, Some _ => False
  | _, None => True
  end.

(** The labels of the columns of a statement are distinct. *)
Definition distinct_labels (x : option DataFrame) : Prop :=
  match x with
  | Some d => NoDup (columns d)
  | None => True
  end.

(** The rows of a statement with the ticker in their Company cell. *)
Definition tag_rows (t : string) (df : DataFrame)
  : list (date * (option string * list number)) :=
  map (fun r => (fst r, (Some t, snd r))) (rows df).

(** [multiple] stacks the statements that [get] returns, which have the
    columns [cols], ticker after ticker, each row with its ticker: it
    refuses an empty list, and the first exception of [get] is its
    own. *)
Definition stacks (get : string -> result DataFrame) (cols : list string)
           (multiple : list string -> result CompanyFrame) : Prop :=
  multiple [] = Raise (ValueError "No objects to concatenate") /\
  (forall before t after e,
      (forall x, In x before -> exists df, get x = Ok df) ->
      get t = Raise e ->
      multiple (before ++ t :: after) = Raise e) /\
  (forall l dfs,
      l <> [] ->
      Forall2 (fun t df => get t = Ok df) l dfs ->
      multiple l
      = Ok (mkCF cols (flat_map (fun p => tag_rows (fst p) (snd p))
                                (combine l dfs)))).

(** The score a threshold metric records does not fall, or does not
    rise, when the ratio it is taken of rises, both ratios being
    finite. *)
Definition rises_with_ratio
           (step : option number -> option number -> scoring -> scoring)
           (key : string) : Prop :=
  forall a b a' b' s s' r r',
    _safe_div a b = Some (Fin r) -> _safe_div a' b' = Some (Fin r') ->
    (r <= r')%Q ->
    exists v v',
      dict_get key (s_metric_scores (step a b s)) = Some v /\
      dict_get key (s_metric_scores (step a' b' s')) = Some v' /\
      v <= v'.

Definition falls_with_ratio
           (step : option number -> option number -> scoring -> scoring)
           (key : string) : Prop :=
  forall a b a' b' s s' r r',
    _safe_div a b = Some (Fin r) -> _safe_div a' b' = Some (Fin r') ->
    (r <= r')%Q ->
    exists v v',
      dict_get key (s_metric_scores (step a b s)) = Some v /\
      dict_get key (s_metric_scores (step a' b' s')) = Some v' /\
      v' <= v.

(** The empty locals. *)
Definition s0 : scoring := mkScoring [] [] [].

(** Three small statements, as the column selection leaves them. *)
Definition ex_bs : DataFrame :=
  mkDF ["Current Assets"; "Current Liabilities"; "Total Assets";
        "Total Liabilities Net Minority Interest";
        "Total Equity Gross Minority Interest";
        "Accounts Receivable"; "Inventory"]
       [(mkDate 2023 12 31,
         [of_Z 150; of_Z 100; of_Z 500; of_Z 200; of_Z 300; of_Z 10; of_Z 10]);
        (mkDate 2022 12 31,
         [of_Z 140; of_Z 100; of_Z 480; of_Z 190; of_Z 290; of_Z 10; of_Z 10])].

Definition ex_fs : DataFrame :=
  mkDF ["Total Revenue"; "EBIT"; "Gross Profit"; "Net Income"]
       [(mkDate 2023 12 31, [of_Z 1000; of_Z 300; of_Z 500; of_Z 100]);
        (mkDate 2022 12 31, [of_Z 900; of_Z 270; of_Z 450; of_Z 90])].

Definition ex_cf : DataFrame :=
  mkDF ["Operating Cash Flow"; "Free Cash Flow"; "Capital Expenditure"]
       [(mkDate 2023 12 31, [of_Z 130; of_Z 50; of_Z (-80)]);
        (mkDate 2022 12 31, [of_Z 120; of_Z 40; of_Z (-80)])].

(* ================================================================= *)
(** ** Sorting and emptiness *)

Section SortFacts.
Context {A : Type}.

Lemma insert_by_date_length (r : date * A) l :
  List.length (insert_by_date r l) = S (List.length l).
Proof.
  induction l as [|e l IH]; simpl; [reflexivity|].
  destruct (date_leb (fst r) (fst e)); simpl; [reflexivity|].
  now rewrite IH.
Qed.

Lemma sort_by_date_length (l : list (date * A)) :
  List.length (sort_by_date l) = List.length l.
Proof.
  induction l as [|r l IH]; simpl; [reflexivity|].
  unfold sort_by_date in *. now rewrite insert_by_date_length, IH.
Qed.

Lemma sort_by_date_nil (l : list (date * A)) :
  sort_by_date l = [] <-> l = [].
Proof.
  split; intros H.
  - apply length_zero_iff_nil. rewrite <- sort_by_date_length, H.
    reflexivity.
  - subst. reflexivity.
Qed.
End SortFacts.

Lemma empty_sort_index df : empty (sort_index df) = empty df.
Proof.
  unfold empty, sort_index; simpl.
  destruct (columns df) as [|c cs]; [reflexivity|].
  destruct (rows df) as [|r rs] eqn:E; [reflexivity|].
  destruct (sort_by_date (r :: rs)) eqn:E'; [|reflexivity].
  apply (proj1 (sort_by_date_nil _)) in E'. discriminate.
Qed.

Lemma missing_or_empty_sorted x :
  missing_or_empty x -> empty (sorted_or_empty x) = true.
Proof.
  destruct x as [d|]; simpl; intros H.
  - now rewrite empty_sort_index.
  - reflexivity.
Qed.

(* ================================================================= *)
(** ** The early exit of the health scorer *)

Lemma early_exit ticker bs fs cf :
  missing_or_empty bs \/ missing_or_empty fs \/ missing_or_empty cf ->
  score_company_health ticker bs fs cf = Ok no_data.
Proof.
  intros H. unfold score_company_health.
  assert (E : empty (sorted_or_empty bs) || empty (sorted_or_empty fs)
              || empty (sorted_or_empty cf) = true).
  { destruct H as [H|[H|H]]; apply missing_or_empty_sorted in H; rewrite H;
      now rewrite ?orb_true_r. }
  cbv zeta. now rewrite E.
Qed.

(** C2.  If any of the three statements is missing or empty, the scorer
    returns exactly score 0, rating "No Data", no metric score, the single
    flag about the missing statements and an empty snapshot, whatever the
    other two statements hold. *)
Theorem missing_statement_gives_no_data :
  forall ticker bs fs cf,
    missing_or_empty bs \/ missing_or_empty fs \/ missing_or_empty cf ->
    score_company_health ticker bs fs cf =
    Ok {| score := 0;
          rating := "No Data";
          metric_scores := [];
          flags := ["Missing statements from Yahoo Finance for this ticker."];
          snapshot := [] |}.
Proof.
  intros ticker bs fs cf H. now rewrite early_exit.
Qed.

(** The balance sheet is empty, the other two statements are not. *)
Lemma missing_statement_gives_no_data_witness :
  let fs := mkDF ["Total Revenue"] [(mkDate 2023 12 31, [of_Z 1000])] in
  let cf := mkDF ["Free Cash Flow"] [(mkDate 2023 12 31, [of_Z 50])] in
  (missing_or_empty (Some empty_frame) \/ missing_or_empty (Some fs)
   \/ missing_or_empty (Some cf)) /\
  score_company_health "X" (Some empty_frame) (Some fs) (Some cf) =
  Ok {| score := 0;
        rating := "No Data";
        metric_scores := [];
        flags := ["Missing statements from Yahoo Finance for this ticker."];
        snapshot := [] |}.
Proof.
  intros fs cf.
  assert (H : missing_or_empty (Some empty_frame) \/ missing_or_empty (Some fs)
              \/ missing_or_empty (Some cf)) by (left; reflexivity).
  split; [exact H|].
  exact (missing_statement_gives_no_data "X" _ _ _ H).
Defined.

(* ================================================================= *)
(** ** Dictionaries and the scoring state *)

Section DictFacts.
Context {V : Type}.

Lemma dict_get_set (k : string) (v : V) d :
  dict_get k (dict_set k v d) = Some v.
Proof.
  induction d as [|[k' v'] d IH]; simpl.
  - now rewrite String.eqb_refl.
  - destruct (String.eqb k k') eqn:E; simpl; rewrite ?E, ?String.eqb_refl;
      auto.
Qed.

Lemma dict_set_values_Forall (P : V -> Prop) k v d :
  P v -> Forall P (dict_values d) -> Forall P (dict_values (dict_set k v d)).
Proof.
  intros Hv. unfold dict_values.
  induction d as [|[k' v'] d IH]; simpl; intros H.
  - constructor; auto.
  - inversion H; subst.
    destruct (String.eqb k k'); simpl; constructor; auto.
Qed.
End DictFacts.

Lemma metrics_ok_snap k v s : metrics_ok s -> metrics_ok (snap k v s).
Proof. exact (fun H => H). Qed.

Lemma metrics_ok_flag msg s : metrics_ok s -> metrics_ok (flag msg s).
Proof. exact (fun H => H). Qed.

Lemma metrics_ok_set k v s :
  in_band v -> metrics_ok s -> metrics_ok (set_metric k v s).
Proof. intros Hv H. now apply dict_set_values_Forall. Qed.

Create HintDb bands.
#[local] Hint Resolve metrics_ok_snap metrics_ok_flag metrics_ok_set : bands.
#[local] Hint Extern 1 (in_band _) => (unfold in_band; lia) : bands.

(** A metric step keeps every score in its band. *)
Ltac band_step :=
  repeat match goal with
         | |- context [match ?x with _ => _ end] => destruct x
         end; auto 6 with bands.

Lemma metrics_ok_liquidity a b s :
  metrics_ok s -> metrics_ok (liquidity a b s).
Proof. intros H. unfold liquidity. cbv zeta. band_step. Qed.

Lemma metrics_ok_leverage a b s :
  metrics_ok s -> metrics_ok (leverage a b s).
Proof. intros H. unfold leverage. cbv zeta. band_step. Qed.

Lemma metrics_ok_solvency a b s :
  metrics_ok s -> metrics_ok (solvency a b s).
Proof. intros H. unfold solvency. cbv zeta. band_step. Qed.

Lemma metrics_ok_profitability a b s :
  metrics_ok s -> metrics_ok (profitability a b s).
Proof. intros H. unfold profitability. cbv zeta. band_step. Qed.

Lemma metrics_ok_unit_economics a b s :
  metrics_ok s -> metrics_ok (unit_economics a b s).
Proof. intros H. unfold unit_economics. cbv zeta. band_step. Qed.

Lemma metrics_ok_earnings_quality a b s :
  metrics_ok s -> metrics_ok (earnings_quality a b s).
Proof. intros H. unfold earnings_quality. cbv zeta. band_step. Qed.

Lemma metrics_ok_free_cash_flow a b s :
  metrics_ok s -> metrics_ok (free_cash_flow a b s).
Proof. intros H. unfold free_cash_flow. cbv zeta. band_step. Qed.

(** *** Inverting a chain of binds *)

Lemma bind_Ok {A B} (m : result A) (k : A -> result B) b :
  bind m k = Ok b -> exists a, m = Ok a /\ k a = Ok b.
Proof. destruct m as [a|e]; simpl; [eauto|discriminate]. Qed.

Ltac bind_inv H :=
  let a := fresh "a" in
  let Ha := fresh "Ha" in
  apply bind_Ok in H; destruct H as (a & Ha & H).

(** *** Trend checks *)

Lemma trend_points_range liab rev ni rec inv :
  -3 <= trend_points liab rev ni rec inv <= 10.
Proof.
  unfold trend_points.
  repeat match goal with
         | |- context [if ?c then _ else _] => destruct c
         end; lia.
Qed.

Lemma trend_checks_Ok bs3 fs3 s s' :
  trend_checks bs3 fs3 s = Ok s' ->
  exists liab rev ni rec inv fl,
    trends_of bs3 fs3 liab rev ni rec inv /\
    s' = set_metric "Trend Checks (3y)"
                    (Z.max (trend_points liab rev ni rec inv) 0)
                    (mkScoring (s_metric_scores s) fl (s_snapshot s)).
Proof.
  unfold trend_checks. intros H.
  apply bind_Ok in H as (liab & Hliab & H).
  apply bind_Ok in H as (rev & Hrev & H).
  apply bind_Ok in H as (ni & Hni & H).
  apply bind_Ok in H as (rec & Hrec & H).
  apply bind_Ok in H as (inv & Hinv & H).
  cbv zeta in H. injection H as <-.
  exists liab, rev, ni, rec, inv.
  match goal with
  | |- context [Z.max (fst ?st) 0] => exists (s_flags (snd st))
  end.
  split; [repeat split; assumption|].
  unfold deduct, trend_points.
  destruct (some_gt liab (Fin (1 # 2))), (some_lt rev (of_Z 0)),
    (some_lt ni (of_Z 0)), (faster_than rec rev), (faster_than inv rev);
    destruct s; reflexivity.
Qed.

Lemma metrics_ok_trend_checks bs3 fs3 s s' :
  trend_checks bs3 fs3 s = Ok s' -> metrics_ok s -> metrics_ok s'.
Proof.
  intros H Hs.
  apply trend_checks_Ok in H as (liab & rev & ni & rec & inv & fl & _ & ->).
  pose proof (trend_points_range liab rev ni rec inv).
  apply metrics_ok_set; [unfold in_band; lia | exact Hs].
Qed.

(** *** Rounding *)

Lemma round_half_even_compat p q :
  (p == q)%Q -> round_half_even p = round_half_even q.
Proof.
  intros E. unfold round_half_even.
  assert (Ef : Qfloor p = Qfloor q) by now rewrite E.
  rewrite Ef.
  assert (Ec : (p - inject_Z (Qfloor q) ?= 1 # 2)%Q
               = (q - inject_Z (Qfloor q) ?= 1 # 2)%Q) by now rewrite E.
  now rewrite Ec.
Qed.

Lemma round_half_even_bounds (q : Q) (lo hi : Z) :
  (inject_Z lo <= q)%Q -> (q <= inject_Z hi)%Q ->
  lo <= round_half_even q <= hi.
Proof.
  intros Hlo Hhi.
  assert (Hf1 : lo <= Qfloor q).
  { rewrite <- (Qfloor_Z lo). now apply Qfloor_resp_le. }
  assert (Hf2 : Qfloor q <= hi).
  { rewrite <- (Qfloor_Z hi). now apply Qfloor_resp_le. }
  assert (Hup : (inject_Z (Qfloor q) < q)%Q -> Qfloor q + 1 <= hi).
  { intros Hlt.
    assert (Hz : (inject_Z (Qfloor q) < inject_Z hi)%Q)
      by (eapply Qlt_le_trans; eauto).
    rewrite <- Zlt_Qlt in Hz. lia. }
  unfold round_half_even.
  destruct (q - inject_Z (Qfloor q) ?= 1 # 2)%Q eqn:E.
  - destruct (Z.even (Qfloor q)); [lia|].
    apply Qeq_alt in E.
    assert (Hlt : (inject_Z (Qfloor q) < q)%Q).
    { apply Qlt_minus_iff. unfold Qminus in E. rewrite E. reflexivity. }
    specialize (Hup Hlt). lia.
  - lia.
  - apply Qgt_alt in E.
    assert (Hlt : (inject_Z (Qfloor q) < q)%Q).
    { apply Qlt_minus_iff.
      change (q + - inject_Z (Qfloor q))%Q with (q - inject_Z (Qfloor q))%Q.
      eapply Qlt_trans; [|exact E]. reflexivity. }
    specialize (Hup Hlt). lia.
Qed.

(** *** The total score *)

Lemma sum_Z_bounds (l : list Z) :
  Forall in_band l -> 0 <= sum_Z l <= 10 * Z.of_nat (List.length l).
Proof.
  unfold in_band.
  induction 1 as [|v l Hv Hl IH]; simpl sum_Z; simpl List.length.
  - lia.
  - rewrite Nat2Z.inj_succ. lia.
Qed.

Lemma percent_bounds (t n : Z) :
  0 <= t <= n -> 0 < n ->
  (inject_Z 0 <= inject_Z t / inject_Z n * inject_Z 100)%Q /\
  (inject_Z t / inject_Z n * inject_Z 100 <= inject_Z 100)%Q.
Proof.
  intros Ht Hn.
  destruct n as [|p|p]; try lia.
  unfold Qle, Qdiv, Qmult, Qinv, inject_Z; simpl.
  split; nia.
Qed.

Lemma total_score_bounds (ms : dict Z) :
  Forall in_band (dict_values ms) -> 0 <= total_score ms <= 100.
Proof.
  intros H. unfold total_score.
  destruct ms as [|kv ms']; [lia|].
  set (d := kv :: ms') in *.
  pose proof (sum_Z_bounds _ H) as Hs.
  unfold dict_values in Hs. rewrite length_map in Hs.
  assert (Hn : 0 < 10 * Z.of_nat (List.length d))
    by (subst d; simpl List.length; lia).
  destruct (percent_bounds _ _ Hs Hn) as [Hlo Hhi].
  now apply round_half_even_bounds.
Qed.

Lemma rating_of_cases (sc : Z) :
  In (rating_of sc) ["Strong"; "Okay"; "Weak"; "Risky"; "No Data"].
Proof.
  unfold rating_of.
  destruct (sc >=? 80); [simpl; auto|].
  destruct (sc >=? 60); [simpl; auto|].
  destruct (sc >=? 40); simpl; auto.
Qed.

(** *** When the scorer returns *)

Lemma _trend_pct_returns (series : option Series) :
  series <> None -> exists r, _trend_pct series = Ok r.
Proof.
  destruct series as [col|]; [intros _|congruence].
  unfold _trend_pct.
  repeat match goal with
         | |- context [if ?c then _ else _] => destruct c
         end; eauto.
Qed.

Lemma df_get_present df c :
  mem_col c (columns df) = true -> df_get df c <> None.
Proof.
  unfold mem_col, df_get. destruct (position c (columns df)); [discriminate|].
  discriminate.
Qed.

Lemma columns_last_n_years df n : columns (_last_n_years df n) = columns df.
Proof. unfold _last_n_years. destruct (empty df); reflexivity. Qed.

Lemma trend_checks_returns bs fs s :
  trend_columns_present bs fs ->
  exists s', trend_checks (_last_n_years bs 3) (_last_n_years fs 3) s = Ok s'.
Proof.
  intros (H1 & H2 & H3 & H4 & H5). unfold trend_checks.
  repeat match goal with
         | |- context [_trend_pct (df_get ?d ?c)] =>
             let r := fresh "r" in
             let E := fresh "E" in
             destruct (_trend_pct_returns (df_get d c)) as [r E];
             [apply df_get_present; now rewrite columns_last_n_years|];
             rewrite E; simpl bind
         end.
  eauto.
Qed.

Lemma score_latest_ok bs fs cf h :
  score_latest bs fs cf = Ok h -> assessment_ok h.
Proof.
  unfold score_latest. cbv zeta. intros H. bind_inv H.
  injection H as <-.
  assert (Hm : metrics_ok a).
  { eapply metrics_ok_trend_checks; [exact Ha|].
    apply metrics_ok_free_cash_flow, metrics_ok_earnings_quality,
      metrics_ok_unit_economics, metrics_ok_profitability,
      metrics_ok_solvency, metrics_ok_leverage, metrics_ok_liquidity.
    constructor. }
  repeat split; simpl.
  - now apply total_score_bounds.
  - now apply total_score_bounds.
  - apply rating_of_cases.
  - exact Hm.
Qed.

Lemma score_latest_returns bs fs cf :
  trend_columns_present bs fs -> exists h, score_latest bs fs cf = Ok h.
Proof.
  intros H. unfold score_latest. cbv zeta.
  match goal with
  | |- context [trend_checks _ _ ?s] =>
      destruct (trend_checks_returns bs fs s H) as [s' E]
  end.
  rewrite E. simpl. eauto.
Qed.

(* ================================================================= *)
(** ** The invariant of the assessment *)

(** C9.  Whatever the three statements are, an assessment the scorer
    returns has a score between 0 and 100, one of the five ratings, and
    every metric score between 0 and 10; the trend metric is the 10 points
    less the deductions of the trend checks, which can leave -3, floored
    at 0.  The scorer does return an
    assessment whenever a statement is missing or empty, and otherwise
    whenever the five columns of the trend checks are present. *)
Theorem health_assessment_invariant :
  forall ticker bs fs cf,
    (forall h, score_company_health ticker bs fs cf = Ok h ->
               assessment_ok h) /\
    (forall s bs3 fs3 s',
        trend_checks bs3 fs3 s = Ok s' ->
        exists liab rev ni rec inv,
          trends_of bs3 fs3 liab rev ni rec inv /\
          dict_get "Trend Checks (3y)" (s_metric_scores s')
          = Some (Z.max (trend_points liab rev ni rec inv) 0)) /\
    trend_points (Some (of_Z 1)) (Some (of_Z (-1))) (Some (of_Z (-1)))
                 (Some (of_Z 1)) (Some (of_Z 1)) = -3 /\
    (missing_or_empty bs \/ missing_or_empty fs \/ missing_or_empty cf \/
     (exists b f, bs = Some b /\ fs = Some f /\ trend_columns_present b f) ->
     exists h, score_company_health ticker bs fs cf = Ok h).
Proof.
  intros ticker bs fs cf. split; [|split; [|split]].
  - intros h. unfold score_company_health. cbv zeta.
    destruct (empty _ || empty _ || empty _).
    + intros [= <-]. unfold assessment_ok, no_data, in_band; simpl.
      repeat split; try lia; auto 6.
    + apply score_latest_ok.
  - intros s bs3 fs3 s' H.
    apply trend_checks_Ok in H
      as (liab & rev & ni & rec & inv & fl & Htrends & ->).
    exists liab, rev, ni, rec, inv. split; [exact Htrends|].
    apply dict_get_set.
  - reflexivity.
  - intros [H|[H|[H|(b & f & -> & -> & H)]]];
      try (rewrite early_exit by auto; eauto; fail).
    unfold score_company_health. cbv zeta.
    destruct (empty _ || empty _ || empty _); [eauto|].
    apply score_latest_returns. exact H.
Qed.

Lemma health_assessment_invariant_witness :
  exists h,
    score_company_health "X" (Some ex_bs) (Some ex_fs) (Some ex_cf) = Ok h /\
    assessment_ok h.
Proof.
  destruct (health_assessment_invariant "X" (Some ex_bs) (Some ex_fs)
                                        (Some ex_cf)) as (H1 & _ & _ & H3).
  destruct H3 as [h Hh].
  { right; right; right. exists ex_bs, ex_fs.
    repeat split; reflexivity. }
  exists h. split; [exact Hh | exact (H1 h Hh)].
Defined.

(* ================================================================= *)
(** ** Comparisons of finite numbers *)

Lemma fgtb_Fin p q : fgtb (Fin p) (Fin q) = true <-> (q < p)%Q.
Proof.
  unfold fgtb; simpl. rewrite Qgt_alt.
  destruct (p ?= q)%Q; split; congruence.
Qed.

Lemma fgtb_Fin_false p q : fgtb (Fin p) (Fin q) = false <-> (p <= q)%Q.
Proof.
  unfold fgtb; simpl. rewrite Qle_alt.
  destruct (p ?= q)%Q; split; congruence.
Qed.

Lemma feqb_Fin p q : feqb (Fin p) (Fin q) = true <-> (p == q)%Q.
Proof.
  unfold feqb; simpl. rewrite Qeq_alt.
  destruct (p ?= q)%Q; split; congruence.
Qed.

Lemma feqb_zero_Qeq_bool r : feqb (Fin r) (Fin 0) = Qeq_bool r 0.
Proof.
  destruct (Qeq_bool r 0) eqn:E.
  - apply feqb_Fin. now apply Qeq_bool_iff.
  - destruct (feqb (Fin r) (Fin 0)) eqn:E'; [|reflexivity].
    apply feqb_Fin, Qeq_bool_iff in E'. congruence.
Qed.

(* ================================================================= *)
(** ** The threshold metrics *)

Ltac band_cases :=
  repeat match goal with
         | |- context [if ?c then _ else _] => destruct c
         end;
  simpl s_metric_scores; simpl s_flags; rewrite ?dict_get_set.

Ltac band_finish :=
  (split; [reflexivity|]);
  (split; [first [reflexivity | rewrite app_nil_r; reflexivity]|]);
  auto 6.

Ltac band_close :=
  first
    [ solve [exists 10, (@nil string); band_finish]
    | solve [exists 7, (@nil string); band_finish]
    | solve [eexists 4, [_]; band_finish]
    | solve [eexists 1, [_]; band_finish] ].

Ltac band_proof step :=
  intros a b s; unfold step; cbv zeta;
  destruct (_safe_div a b) as [r|];
  [ band_cases; band_close
  | simpl s_metric_scores; simpl s_flags; rewrite ?dict_get_set;
    match goal with
    | |- exists v fl, _ /\ _ /\ v = 0 /\ fl = ?c => exists 0, c
    end; band_finish ].

Lemma liquidity_bands :
  band_behaviour liquidity "Liquidity (Current Ratio)"
    ["Could not compute Current Ratio (missing current assets/liabilities)."].
Proof. band_proof liquidity. Qed.

Lemma leverage_bands :
  band_behaviour leverage "Leverage (Debt/Equity proxy)"
    ["Could not compute leverage ratio (missing liabilities/equity)."].
Proof. band_proof leverage. Qed.

Lemma solvency_bands :
  band_behaviour solvency "Solvency (Liab/Assets)" [].
Proof. band_proof solvency. Qed.

Lemma profitability_bands :
  band_behaviour profitability "Profitability (Operating Margin)"
    ["Could not compute operating margin (missing EBIT/revenue)."].
Proof. band_proof profitability. Qed.

Lemma unit_economics_bands :
  band_behaviour unit_economics "Unit Economics (Gross Margin)" [].
Proof. band_proof unit_economics. Qed.

Lemma earnings_quality_bands :
  band_behaviour earnings_quality "Earnings Quality (OCF/Net Income)"
    ["Could not compute OCF/Net Income (missing OCF or Net Income)."].
Proof. band_proof earnings_quality. Qed.

Lemma _safe_div_None a b :
  _safe_div a b = None <->
  a = None \/ b = None \/ exists y, b = Some y /\ feqb y (of_Z 0) = true.
Proof.
  unfold _safe_div. destruct b as [y|].
  - destruct (feqb y (of_Z 0)) eqn:E.
    + split; eauto.
    + destruct a as [x|]; split; auto; try discriminate.
      intros [H|[H|(y' & [= <-] & H)]]; congruence.
  - split; auto.
Qed.

(** C8 does not hold as stated: the band scoring 7 lies below the top
    band and appends no flag.  Here the current ratio is 1.2. *)
Lemma band_7_appends_no_flag :
  let s' := liquidity (Some (of_Z 120)) (Some (of_Z 100)) s0 in
  _safe_div (Some (of_Z 120)) (Some (of_Z 100)) = Some (Fin (6 # 5)) /\
  dict_get "Liquidity (Current Ratio)" (s_metric_scores s') = Some 7 /\
  s_flags s' = [].
Proof. repeat split. Qed.

(** C8, amended.  For each of the six threshold metrics: the bands
    scoring 10 and 7 append no flag and the bands scoring 4 and 1 append
    one flag each; a ratio that [_safe_div] cannot compute (an operand is
    [None] or the denominator is zero) scores 0, and appends a "could not
    compute" flag for liquidity, leverage, profitability and earnings
    quality, and none for solvency and unit economics. *)
Theorem threshold_metric_flags :
  band_behaviour liquidity "Liquidity (Current Ratio)"
    ["Could not compute Current Ratio (missing current assets/liabilities)."] /\
  band_behaviour leverage "Leverage (Debt/Equity proxy)"
    ["Could not compute leverage ratio (missing liabilities/equity)."] /\
  band_behaviour solvency "Solvency (Liab/Assets)" [] /\
  band_behaviour profitability "Profitability (Operating Margin)"
    ["Could not compute operating margin (missing EBIT/revenue)."] /\
  band_behaviour unit_economics "Unit Economics (Gross Margin)" [] /\
  band_behaviour earnings_quality "Earnings Quality (OCF/Net Income)"
    ["Could not compute OCF/Net Income (missing OCF or Net Income)."] /\
  (forall a b,
      _safe_div a b = None <->
      a = None \/ b = None \/ exists y, b = Some y /\ feqb y (of_Z 0) = true).
Proof.
  repeat split;
    auto using liquidity_bands, leverage_bands, solvency_bands,
      profitability_bands, unit_economics_bands, earnings_quality_bands;
    apply _safe_div_None.
Qed.

(** A current ratio of 0.9 is in the band scoring 4 and brings one flag;
    current liabilities of zero score 0 with the flag of the ratio that
    could not be computed. *)
Lemma threshold_metric_flags_witness :
  (exists fl,
      s_flags (liquidity (Some (of_Z 90)) (Some (of_Z 100)) s0) = fl /\
      List.length fl = 1%nat) /\
  s_flags (liquidity (Some (of_Z 90)) (Some (of_Z 0)) s0)
  = ["Could not compute Current Ratio (missing current assets/liabilities)."].
Proof.
  split.
  - destruct (proj1 threshold_metric_flags (Some (of_Z 90)) (Some (of_Z 100)) s0)
      as (v & fl & Hv & Hfl & Hband).
    exists fl. split; [exact Hfl|].
    vm_compute in Hv. injection Hv as <-.
    simpl in Hband. destruct Hband as [[[E|E] _]|[_ Hlen]];
      [discriminate E|discriminate E|exact Hlen].
  - destruct (proj1 threshold_metric_flags (Some (of_Z 90)) (Some (of_Z 0)) s0)
      as (v & fl & Hv & Hfl & Hband).
    simpl in Hband. destruct Hband as [_ ->]. exact Hfl.
Defined.

(* ================================================================= *)
(** ** The free-cash-flow metric *)

(** C7 does not hold as stated: a revenue of zero is not missing, minus 5%
    of it is zero and a free cash flow of -0.01 is below that, yet the
    metric scores 6, not 2: the bound was taken of 1. *)
Lemma zero_revenue_bound_is_of_one :
  let fcf := Fin (- (1 # 100)) in
  let revenue := of_Z 0 in
  let s' := free_cash_flow (Some fcf) (Some revenue) s0 in
  fgtb fcf (of_Z 0) = false /\
  fgtb fcf (fmul (Fin (- (5 # 100))) revenue) = false /\
  dict_get "Free Cash Flow (FCF)" (s_metric_scores s') = Some 6 /\
  s_flags s' = ["FCF slightly negative (may be investment-heavy period)."].
Proof. repeat split. Qed.

(** A NaN revenue, which is what a missing line item is after the column
    selection, is not replaced by 1: the bound is NaN and the score 2. *)
Lemma nan_revenue_scores_2 :
  let s' := free_cash_flow (Some (Fin (- (1 # 100)))) (Some NaN) s0 in
  revenue_or_1 (Some NaN) = NaN /\
  dict_get "Free Cash Flow (FCF)" (s_metric_scores s') = Some 2 /\
  s_flags s' = ["FCF materially negative (funding needs can rise)."].
Proof. repeat split. Qed.

Lemma revenue_or_1_bound revenue R :
  bound_revenue revenue R ->
  exists r, revenue_or_1 revenue = Fin r /\ (r == R)%Q.
Proof.
  unfold bound_revenue, revenue_or_1.
  destruct revenue as [[| |r]|]; try contradiction.
  - unfold truthy. change (of_Z 0) with (Fin 0).
    rewrite feqb_zero_Qeq_bool.
    destruct (Qeq_bool r 0); simpl; intros H.
    + exists 1%Q. split; [reflexivity|]. now symmetry.
    + exists r. split; [reflexivity|]. now symmetry.
  - intros H. exists 1%Q. split; [reflexivity|]. now symmetry.
Qed.

(** C7, amended.  A missing free cash flow ([None] or NaN) scores 0 with
    a flag.  A finite free cash flow scores 10 when it is positive;
    otherwise 6 with a flag when it is greater than minus 5% of the
    revenue, and 2 with a flag when it is not, where a revenue that is
    [None] or zero counts as 1. *)
Theorem free_cash_flow_bands :
  forall fcf revenue s,
    let s' := free_cash_flow fcf revenue s in
    let score := dict_get "Free Cash Flow (FCF)" (s_metric_scores s') in
    (py_isna fcf = true ->
     score = Some 0 /\
     s_flags s' =
     s_flags s ++ ["Free Cash Flow missing from Yahoo Finance for this ticker."]) /\
    (forall f, fcf = Some (Fin f) ->
       ((0 < f)%Q -> score = Some 10 /\ s_flags s' = s_flags s) /\
       (forall R, bound_revenue revenue R -> (f <= 0)%Q ->
          ((- (5 # 100) * R < f)%Q ->
           score = Some 6 /\
           s_flags s' =
           s_flags s ++ ["FCF slightly negative (may be investment-heavy period)."]) /\
          ((f <= - (5 # 100) * R)%Q ->
           score = Some 2 /\
           s_flags s' =
           s_flags s ++ ["FCF materially negative (funding needs can rise)."]))).
Proof.
  intros fcf revenue s s' score. subst score s'. split.
  - intros Hna. unfold free_cash_flow. cbv zeta.
    destruct fcf as [f|]; [rewrite Hna|];
      simpl s_metric_scores; simpl s_flags; now rewrite dict_get_set.
  - intros f ->. unfold free_cash_flow. cbv zeta. simpl py_isna.
    change (of_Z 0) with (Fin 0). split.
    + intros Hpos. apply fgtb_Fin in Hpos. rewrite Hpos.
      simpl s_metric_scores; simpl s_flags. now rewrite dict_get_set.
    + intros R HR Hle.
      apply fgtb_Fin_false in Hle. rewrite Hle.
      destruct (revenue_or_1_bound _ _ HR) as (r & -> & Er).
      unfold fmul.
      assert (Eb : (Qred (- (5 # 100) * r) == - (5 # 100) * R)%Q)
        by now rewrite Qred_correct, Er.
      split; intros Hc.
      * rewrite <- Eb in Hc. apply fgtb_Fin in Hc. rewrite Hc.
        simpl s_metric_scores; simpl s_flags. now rewrite dict_get_set.
      * rewrite <- Eb in Hc. apply fgtb_Fin_false in Hc. rewrite Hc.
        simpl s_metric_scores; simpl s_flags. now rewrite dict_get_set.
Qed.

(** A free cash flow of -20 on a revenue of 1000 (bound -50), and one of
    -80 on no revenue at all (bound -0.05). *)
Lemma free_cash_flow_bands_witness :
  dict_get "Free Cash Flow (FCF)"
    (s_metric_scores (free_cash_flow (Some (of_Z (-20))) (Some (of_Z 1000)) s0))
  = Some 6 /\
  dict_get "Free Cash Flow (FCF)"
    (s_metric_scores (free_cash_flow (Some (of_Z (-80))) None s0))
  = Some 2 /\
  dict_get "Free Cash Flow (FCF)"
    (s_metric_scores (free_cash_flow (Some NaN) (Some (of_Z 1000)) s0))
  = Some 0.
Proof.
  split; [|split].
  - refine (proj1 (proj1 (proj2 (proj2 (free_cash_flow_bands
              (Some (of_Z (-20))) (Some (of_Z 1000)) s0) _ eq_refl)
              (inject_Z 1000) _ _) _)).
    + simpl. reflexivity.
    + unfold Qle; simpl; lia.
    + unfold Qlt; simpl; lia.
  - refine (proj1 (proj2 (proj2 (proj2 (free_cash_flow_bands
              (Some (of_Z (-80))) None s0) _ eq_refl)
              1%Q _ _) _)).
    + simpl. reflexivity.
    + unfold Qle; simpl; lia.
    + unfold Qle; simpl; lia.
  - refine (proj1 (proj1 (free_cash_flow_bands
              (Some NaN) (Some (of_Z 1000)) s0) _)).
    reflexivity.
Defined.

(* ================================================================= *)
(** ** The trend over the last three periods *)

Section ColumnOfSorted.
Context {A B : Type} (g : A -> B).

Lemma insert_by_date_map (r : date * A) l :
  insert_by_date (fst r, g (snd r))
                 (map (fun x : date * A => (fst x, g (snd x))) l)
  = map (fun x : date * A => (fst x, g (snd x))) (insert_by_date r l).
Proof.
  induction l as [|e l IH]; simpl; [reflexivity|].
  destruct (date_leb (fst r) (fst e)); simpl; [reflexivity|].
  now rewrite IH.
Qed.

Lemma sort_by_date_map (l : list (date * A)) :
  sort_by_date (map (fun x : date * A => (fst x, g (snd x))) l)
  = map (fun x : date * A => (fst x, g (snd x))) (sort_by_date l).
Proof.
  induction l as [|r l IH]; simpl; [reflexivity|].
  unfold sort_by_date in *. simpl.
  now rewrite IH, insert_by_date_map.
Qed.

Lemma tail_n_map n (l : list (date * A)) :
  tail_n n (map (fun x : date * A => (fst x, g (snd x))) l)
  = map (fun x : date * A => (fst x, g (snd x))) (tail_n n l).
Proof. unfold tail_n. now rewrite length_map, skipn_map. Qed.
End ColumnOfSorted.

(** The column of the last [n] rows of the sorted frame is the last [n]
    entries of the sorted column. *)
Lemma df_get_last_n_years df n c col :
  df_get df c = Some col ->
  df_get (_last_n_years df n) c = Some (tail_n n (sort_by_date col)).
Proof.
  unfold df_get, _last_n_years.
  destruct (position c (columns df)) as [i|] eqn:Ep; [|discriminate].
  intros [= <-].
  destruct (empty df) eqn:Ee.
  - rewrite Ep. unfold empty in Ee.
    destruct (columns df) as [|c0 cs]; [discriminate|].
    destruct (rows df) as [|r rs]; [reflexivity|discriminate].
  - simpl. rewrite Ep. f_equal.
    rewrite (sort_by_date_map (fun cells => nth i cells NaN)).
    now rewrite (tail_n_map (fun cells => nth i cells NaN)).
Qed.

Lemma dropna_not_nan l x : In x (dropna l) -> isnan x = false.
Proof.
  unfold dropna. intros H. apply filter_In in H as [_ H].
  now apply negb_true_iff.
Qed.

Lemma hd_In {A} (d : A) l : l <> [] -> In (hd d l) l.
Proof. destruct l; [congruence|]. simpl; auto. Qed.

Lemma last_In {A} (d : A) l : l <> [] -> In (List.last l d) l.
Proof.
  induction l as [|x l IH]; [congruence|]. intros _.
  destruct l as [|y l]; [simpl; auto|].
  right. apply IH. discriminate.
Qed.

Lemma fdiv_Fin p q :
  ~ (q == 0)%Q -> fdiv (Fin p) (Fin q) = Fin (Qred (p / q)).
Proof.
  intros H. unfold fdiv.
  destruct (Qeq_bool q 0) eqn:E; [|reflexivity].
  apply Qeq_bool_iff in E. contradiction.
Qed.

Lemma Qabs_nonzero q : ~ (q == 0)%Q -> ~ (Qabs q == 0)%Q.
Proof.
  destruct q as [n d]. unfold Qeq, Qabs; simpl. lia.
Qed.

(** C10.  [_trend_pct], on a column of the last three rows of the sorted
    frame, drops the nulls of that window and takes the trend over what is
    left: with [w] the non-null values of the three most recent periods,
    the result is [None] exactly when [w] has fewer than two values or its
    first value is 0, and otherwise it is (last - first) / |first|. *)
Theorem trend_over_non_null_window :
  forall df c col,
    df_get df c = Some col ->
    let w := dropna (values (tail_n 3 (sort_by_date col))) in
    let first := hd NaN w in
    let last := List.last w NaN in
    exists r,
      _trend_pct (df_get (_last_n_years df 3) c) = Ok r /\
      (r = None <->
       (List.length w < 2)%nat \/ feqb first (of_Z 0) = true) /\
      (r <> None -> r = Some (fdiv (fsub last first) (fabs first))) /\
      (forall f l,
          (2 <= List.length w)%nat -> first = Fin f -> last = Fin l ->
          ~ (f == 0)%Q ->
          exists t, r = Some (Fin t) /\ (t == (l - f) / Qabs f)%Q).
Proof.
  intros df c col Hcol w first last.
  rewrite (df_get_last_n_years _ _ _ _ Hcol).
  unfold _trend_pct. fold w. fold first. fold last.
  destruct (List.length w <? 2)%nat eqn:Elen.
  - apply Nat.ltb_lt in Elen.
    exists None. repeat split; auto; try congruence.
    intros f l Hl. lia.
  - apply Nat.ltb_ge in Elen.
    assert (Hw : w <> []) by (intros E; rewrite E in Elen; simpl in Elen; lia).
    assert (Hf : isnan first = false)
      by (apply (dropna_not_nan (values (tail_n 3 (sort_by_date col))));
          apply hd_In, Hw).
    assert (Hl : isnan last = false)
      by (apply (dropna_not_nan (values (tail_n 3 (sort_by_date col))));
          apply last_In, Hw).
    rewrite Hf, Hl, !orb_false_r.
    destruct (feqb first (of_Z 0)) eqn:E0.
    + exists None. repeat split; auto; try congruence.
      intros f l _ Efirst _ Hnz. rewrite Efirst in E0.
      apply feqb_Fin in E0. contradiction.
    + eexists. split; [reflexivity|]. split; [|split].
      * split; [discriminate|]. intros [H|H]; [lia|discriminate].
      * reflexivity.
      * intros f l _ -> -> Hnz.
        unfold fsub, fneg, fadd, fabs.
        rewrite fdiv_Fin.
        2:{ rewrite Qred_correct. now apply Qabs_nonzero. }
        eexists. split; [reflexivity|].
        rewrite !Qred_correct. reflexivity.
Qed.

(** A window with a null inside: 100, null, 150 are the last three of
    four periods, given out of order; the trend is 0.5. *)
Lemma trend_over_non_null_window_witness :
  let df := mkDF ["Inventory"]
                 [(mkDate 2023 12 31, [of_Z 150]); (mkDate 2020 12 31, [of_Z 50]);
                  (mkDate 2022 12 31, [NaN]); (mkDate 2021 12 31, [of_Z 100])] in
  exists t,
    _trend_pct (df_get (_last_n_years df 3) "Inventory") = Ok (Some (Fin t)) /\
    (t == 1 # 2)%Q.
Proof.
  intros df.
  destruct (trend_over_non_null_window df "Inventory" _ eq_refl)
    as (r & Hr & _ & _ & Hfin).
  destruct (Hfin 100%Q 150%Q) as (t & -> & Ht).
  - simpl. lia.
  - reflexivity.
  - reflexivity.
  - discriminate.
  - exists t. split; [exact Hr|]. rewrite Ht. reflexivity.
Defined.

(* ================================================================= *)
(** ** Dates *)

Lemma date_compare_eq a b : date_compare a b = Eq <-> a = b.
Proof.
  destruct a as [y m d], b as [y' m' d']. unfold date_compare; simpl.
  split.
  - destruct (y ?= y') eqn:E1; try discriminate.
    destruct (m ?= m') eqn:E2; try discriminate.
    intros E3. apply Z.compare_eq_iff in E1, E2, E3. congruence.
  - intros [= -> -> ->]. now rewrite !Z.compare_refl.
Qed.

Lemma date_eqb_eq a b : date_eqb a b = true <-> a = b.
Proof.
  unfold date_eqb. rewrite <- date_compare_eq.
  destruct (date_compare a b); split; congruence.
Qed.

Lemma date_eqb_refl a : date_eqb a a = true.
Proof. now apply date_eqb_eq. Qed.

Lemma dates_eqb_eq a b : dates_eqb a b = true <-> a = b.
Proof.
  revert b. induction a as [|x a IH]; intros [|y b]; simpl;
    try (split; congruence).
  rewrite andb_true_iff, date_eqb_eq, IH. split.
  - intros [-> ->]. reflexivity.
  - intros [= -> ->]. auto.
Qed.

(* ================================================================= *)
(** ** Division of Series *)

Lemma lookup_date_In (x : Series) d p :
  NoDup (map fst x) -> In (d, p) x -> lookup_date d x = p.
Proof.
  induction x as [|[e v] x IH]; simpl; [contradiction|].
  intros Hnd Hin. inversion Hnd as [|? ? Hnotin Hnd']; subst.
  destruct (date_eqb d e) eqn:E.
  - apply date_eqb_eq in E. subst e.
    destruct Hin as [[= ->]|Hin]; [reflexivity|].
    exfalso. apply Hnotin. change d with (fst (d, p)). now apply in_map.
  - destruct Hin as [[= -> ->]|Hin].
    + now rewrite date_eqb_refl in E.
    + now apply IH.
Qed.

Lemma combine_same_index (x y : Series) :
  map fst x = map fst y ->
  forall a b, In (a, b) (combine x y) -> fst a = fst b /\ In a x /\ In b y.
Proof.
  revert y. induction x as [|a0 x IH]; intros [|b0 y]; simpl;
    try contradiction; try discriminate.
  intros [= E0 E] a b [[= -> ->]|Hin]; [auto|].
  destruct (IH y E a b Hin) as (H1 & H2 & H3). auto.
Qed.

(** Where the two operands have distinct periods, every entry of the
    quotient is the float quotient of the two entries of its period, an
    absent entry counting as NaN. *)
Lemma series_div_at (x y : Series) d v :
  NoDup (map fst x) ->
  In (d, v) (series_div x y) ->
  v = fdiv (lookup_date d x) (lookup_date d y).
Proof.
  intros Hnd. unfold series_div.
  destruct (dates_eqb (map fst x) (map fst y)) eqn:E.
  - apply dates_eqb_eq in E. intros Hin.
    apply in_map_iff in Hin as ([[d1 p] [d2 q]] & [= <- <-] & Hin).
    destruct (combine_same_index x y E _ _ Hin) as (Hd & Hx & Hy).
    simpl in Hd. subst d2. simpl.
    rewrite (lookup_date_In x d1 p Hnd Hx).
    rewrite E in Hnd. now rewrite (lookup_date_In y d1 q Hnd Hy).
  - intros Hin. apply in_map_iff in Hin as (d' & [= <- <-] & _). reflexivity.
Qed.

Lemma fdiv_null x y :
  isnan x = true \/ isnan y = true -> fdiv x y = NaN.
Proof.
  intros [H|H]; destruct x, y; try discriminate; reflexivity.
Qed.

Lemma fdiv_by_zero x y :
  feqb y (of_Z 0) = true ->
  (isnan (fdiv x y) = true \/ is_inf (fdiv x y) = true) /\
  (forall p, x = Fin p -> ~ (p == 0)%Q -> fdiv x y = Inf (Qneg_b p)).
Proof.
  intros H. destruct y as [|[]|q]; try discriminate H.
  change (of_Z 0) with (Fin 0) in H.
  apply feqb_Fin, Qeq_bool_iff in H.
  split.
  - destruct x as [| |p]; simpl; auto.
    rewrite H. destruct (Z.sgn (Qnum p)); auto.
  - intros p -> Hp. simpl. rewrite H.
    unfold Qneg_b. destruct p as [n dn]. unfold Qeq in Hp. simpl in *.
    destruct n; simpl; try reflexivity. lia.
Qed.

(* ================================================================= *)
(** ** Null and zero denominators *)

(** C1 does not hold as stated for the ratio functions: with current
    liabilities of 0 in a period and current assets of 150, the current
    ratio of that period is plus infinity, not null. *)
Lemma current_ratio_by_zero_is_infinite :
  let balancesheet :=
    mkDF ["Current Assets"; "Current Liabilities"]
         [(mkDate 2023 12 31, [of_Z 150; of_Z 0]);
          (mkDate 2022 12 31, [of_Z 140; of_Z 100])] in
  get_CurrentRatio balancesheet balancesheet =
  Ok (mkDF ["Current Ratio"]
           [(mkDate 2023 12 31, [Inf false]);
            (mkDate 2022 12 31, [Fin (7 # 5)])]) /\
  isnan (Inf false) = false.
Proof. split; reflexivity. Qed.

Lemma _safe_div_null a b :
  b = None \/
  (exists y, b = Some y /\ (isnan y = true \/ feqb y (of_Z 0) = true)) \/
  py_isna a = true ->
  py_isna (_safe_div a b) = true.
Proof.
  unfold _safe_div.
  intros [->|[(y & -> & [Hy|Hy])|Ha]]; try reflexivity.
  - destruct y; try discriminate. simpl.
    destruct a as [x|]; [|reflexivity]. now destruct x.
  - now rewrite Hy.
  - destruct b as [y|]; [|reflexivity].
    destruct (feqb y (of_Z 0)); [reflexivity|].
    destruct a as [x|]; [|reflexivity].
    simpl in Ha. destruct x; try discriminate. reflexivity.
Qed.

(** C1, amended.  Every ratio of the ratio engine is, period by period,
    the float quotient of its numerator and denominator entries (operands
    with distinct periods, an entry absent on one side counting as null):
    nothing is raised, a null numerator or denominator gives null, and a
    zero denominator gives null or an infinity, an infinity of the sign of
    the numerator when that is a non-zero number.  The health scorer's
    [_safe_div] gives null whenever the denominator is null or zero or the
    numerator is null. *)
Theorem ratio_null_policy :
  (forall name a num b den x y,
      df_get a num = Some x -> df_get b den = Some y ->
      NoDup (map fst x) ->
      exists s,
        ratio_frame name a num b den = Ok (frame_of_series name s) /\
        forall d v, In (d, v) s ->
          let n := lookup_date d x in
          let m := lookup_date d y in
          v = fdiv n m /\
          (isnan n = true \/ isnan m = true -> v = NaN) /\
          (feqb m (of_Z 0) = true ->
           (isnan v = true \/ is_inf v = true) /\
           (forall p, n = Fin p -> ~ (p == 0)%Q -> v = Inf (Qneg_b p)))) /\
  (forall a b,
      b = None \/
      (exists y, b = Some y /\ (isnan y = true \/ feqb y (of_Z 0) = true)) \/
      py_isna a = true ->
      py_isna (_safe_div a b) = true).
Proof.
  split; [|exact _safe_div_null].
  intros name a num b den x y Hx Hy Hnd.
  exists (series_div x y). split.
  - unfold ratio_frame, getitem. now rewrite Hx, Hy.
  - intros d v Hin. cbv zeta.
    pose proof (series_div_at x y d v Hnd Hin) as ->.
    split; [reflexivity|]. split.
    + apply fdiv_null.
    + apply fdiv_by_zero.
Qed.

(** The current ratio of a balance sheet whose latest period has no
    current liabilities reported (null) and whose earlier period has none
    at all (zero). *)
Lemma ratio_null_policy_witness :
  let balancesheet :=
    mkDF ["Current Assets"; "Current Liabilities"]
         [(mkDate 2023 12 31, [of_Z 150; NaN]);
          (mkDate 2022 12 31, [of_Z (-140); of_Z 0])] in
  exists s,
    get_CurrentRatio balancesheet balancesheet
    = Ok (frame_of_series "Current Ratio" s) /\
    (forall v, In (mkDate 2023 12 31, v) s -> v = NaN) /\
    (forall v, In (mkDate 2022 12 31, v) s -> v = Inf true).
Proof.
  intros balancesheet.
  destruct (proj1 ratio_null_policy "Current Ratio"
                  balancesheet "Current Assets"
                  balancesheet "Current Liabilities" _ _ eq_refl eq_refl)
    as (s & Hs & Hat).
  - simpl. repeat constructor; simpl; intuition discriminate.
  - exists s. split; [exact Hs|]. split; intros v Hin.
    + destruct (Hat _ _ Hin) as (_ & Hnull & _).
      apply Hnull. right. reflexivity.
    + destruct (Hat _ _ Hin) as (_ & _ & Hzero).
      destruct (Hzero eq_refl) as (_ & Hinf).
      apply (Hinf (inject_Z (-140))); [reflexivity|discriminate].
Defined.

(* ================================================================= *)
(** ** Column selection *)

Lemma position_None c l : position c l = None <-> ~ In c l.
Proof.
  induction l as [|c' l IH]; simpl; [tauto|].
  destruct (String.eqb_spec c c') as [->|Hne].
  - split; [discriminate|]. intros H. exfalso. auto.
  - destruct (position c l) as [i|]; simpl.
    + split; [discriminate|]. intros H. exfalso. apply H. right.
      destruct (in_dec string_dec c l) as [Hin|Hnin]; [exact Hin|].
      apply IH in Hnin. discriminate.
    + split; [|reflexivity]. intros _ [E|H]; [congruence|].
      now apply (proj1 IH).
Qed.

Lemma position_Some c l i :
  position c l = Some i -> nth_error l i = Some c.
Proof.
  revert i. induction l as [|c' l IH]; simpl; [discriminate|].
  destruct (String.eqb_spec c c') as [->|Hne].
  - intros i [= <-]. reflexivity.
  - destruct (position c l) as [j|]; simpl; [|discriminate].
    intros i [= <-]. simpl. now apply IH.
Qed.

Lemma position_In c l : In c l -> exists i, position c l = Some i.
Proof.
  intros H. destruct (position c l) as [i|] eqn:E; [eauto|].
  apply position_None in E. contradiction.
Qed.

Lemma mem_col_In c l : mem_col c l = true <-> In c l.
Proof.
  unfold mem_col. destruct (position c l) as [i|] eqn:E.
  - split; [|reflexivity]. intros _.
    apply position_Some, nth_error_In in E. exact E.
  - split; [discriminate|]. intros H. apply position_None in E. contradiction.
Qed.

Lemma has_dup_NoDup l : NoDup l -> has_dup l = false.
Proof.
  induction 1 as [|c l Hnotin Hnd IH]; simpl; [reflexivity|].
  rewrite IH, orb_false_r.
  destruct (mem_col c l) eqn:E; [|reflexivity].
  apply mem_col_In in E. contradiction.
Qed.

Lemma cols_eqb_eq a b : cols_eqb a b = true <-> a = b.
Proof.
  revert b. induction a as [|x a IH]; intros [|y b]; simpl;
    try (split; congruence).
  rewrite andb_true_iff, String.eqb_eq, IH. split.
  - intros [-> ->]. reflexivity.
  - intros [= -> ->]. auto.
Qed.

Lemma nth_map_position {B} (f : string -> B) c l i d :
  position c l = Some i -> nth i (map f l) d = f c.
Proof.
  intros H. apply position_Some in H.
  revert i H. induction l as [|c' l IH]; intros [|i]; simpl;
    try discriminate.
  - now intros [= ->].
  - apply IH.
Qed.

(** The reindexed frame, when the labels differ and are distinct. *)
Lemma reindex_fresh df target :
  cols_eqb (columns df) target = false ->
  NoDup (columns df) ->
  reindex df target =
  Ok (mkDF target
           (map (fun r => (fst r, select_cells (columns df) (snd r) target))
                (rows df))).
Proof.
  intros E Hnd. unfold reindex. now rewrite E, (has_dup_NoDup _ Hnd).
Qed.

Lemma select_columns_spec raw cols :
  NoDup (columns raw) ->
  exists t,
    _safe_select_columns raw cols = Ok t /\
    columns t = cols /\
    df_index t = df_index raw /\
    (forall c, In c cols -> In c (columns raw) ->
               df_get t c = df_get raw c) /\
    (forall c, In c cols -> ~ In c (columns raw) ->
               df_get t c = Some (map (fun d => (d, NaN)) (df_index raw))) /\
    (forall c, ~ In c cols -> df_get t c = None).
Proof.
  intros Hnd. unfold _safe_select_columns.
  destruct (cols_eqb (columns raw) cols) eqn:E.
  - exists raw. unfold reindex. rewrite E.
    apply cols_eqb_eq in E. subst cols.
    repeat split; auto.
    + intros c Hin Hnin. contradiction.
    + intros c Hnin. unfold df_get.
      apply position_None in Hnin. now rewrite Hnin.
  - rewrite (reindex_fresh _ _ E Hnd).
    eexists. split; [reflexivity|]. simpl.
    split; [reflexivity|]. split; [|split; [|split]].
    + unfold df_index; simpl. rewrite map_map. reflexivity.
    + intros c Hc Hraw. unfold df_get; simpl.
      destruct (position_In _ _ Hc) as [i Ei].
      destruct (position_In _ _ Hraw) as [j Ej].
      rewrite Ei, Ej, map_map. f_equal.
      apply map_ext. intros r. simpl. f_equal.
      unfold select_cells.
      rewrite (nth_map_position _ c cols i NaN Ei).
      unfold row_get. now rewrite Ej.
    + intros c Hc Hraw. unfold df_get, df_index; simpl.
      destruct (position_In _ _ Hc) as [i Ei].
      rewrite Ei, !map_map. f_equal.
      apply map_ext. intros r. simpl. f_equal.
      unfold select_cells.
      rewrite (nth_map_position _ c cols i NaN Ei).
      unfold row_get. apply position_None in Hraw. now rewrite Hraw.
    + intros c Hc. unfold df_get; simpl.
      apply position_None in Hc. now rewrite Hc.
Qed.

(** C3.  On a raw table with distinct column labels, the column
    selection returns a table whose columns are exactly the canonical
    list, in its order, and whose periods are those of the raw table in
    their order; a canonical field the raw table has comes with its
    values, one it lacks is null in every row, and a field outside the
    canonical list is not in the result.  [get_Financial] is this
    selection of the canonical income-statement fields. *)
Theorem normalized_table_columns :
  forall raw cols,
    NoDup (columns raw) ->
    (exists t,
        _safe_select_columns raw cols = Ok t /\
        columns t = cols /\
        df_index t = df_index raw /\
        (forall c, In c cols -> In c (columns raw) ->
                   df_get t c = df_get raw c) /\
        (forall c, In c cols -> ~ In c (columns raw) ->
                   df_get t c = Some (map (fun d => (d, NaN)) (df_index raw))) /\
        (forall c, ~ In c cols -> df_get t c = None)) /\
    (forall financials_T ticker,
        financials_T ticker = Ok raw ->
        exists t,
          get_Financial financials_T ticker = Ok t /\
          columns t = financialcolumns /\
          df_index t = df_index raw).
Proof.
  intros raw cols Hnd. split.
  - now apply select_columns_spec.
  - intros financials_T ticker Hraw.
    destruct (select_columns_spec raw financialcolumns Hnd)
      as (t & Ht & Hc & Hi & _).
    exists t. unfold get_Financial. rewrite Hraw. simpl. auto.
Qed.

(** A raw income statement with two of the canonical fields, in another
    order, and one field the canonical list does not have. *)
Lemma normalized_table_columns_witness :
  let raw := mkDF ["EBIT"; "Some Other Field"; "Total Revenue"]
                  [(mkDate 2023 12 31, [of_Z 300; of_Z 7; of_Z 1000]);
                   (mkDate 2022 12 31, [of_Z 270; of_Z 8; of_Z 900])] in
  exists t,
    _safe_select_columns raw ["Total Revenue"; "Gross Profit"; "EBIT"] = Ok t /\
    columns t = ["Total Revenue"; "Gross Profit"; "EBIT"] /\
    df_get t "Gross Profit"
    = Some [(mkDate 2023 12 31, NaN); (mkDate 2022 12 31, NaN)] /\
    df_get t "Some Other Field" = None.
Proof.
  intros raw.
  assert (Hnd : NoDup (columns raw)).
  { simpl. repeat constructor; simpl; intuition discriminate. }
  destruct (proj1 (normalized_table_columns
                     raw ["Total Revenue"; "Gross Profit"; "EBIT"] Hnd))
    as (t & Ht & Hc & _ & _ & Habsent & Hdropped).
  exists t. split; [exact Ht|]. split; [exact Hc|]. split.
  - apply Habsent; simpl; intuition discriminate.
  - apply Hdropped. simpl. intuition discriminate.
Defined.

(* ================================================================= *)
(** ** Year-over-year change *)

Lemma shift1_cons x l : shift1 (x :: l) = NaN :: removelast (x :: l).
Proof. reflexivity. Qed.

(** Each value paired with the one before it. *)
Lemma combine_prev_nth (l : list number) prev i x p :
  nth_error l (S i) = Some x -> nth_error l i = Some p ->
  nth_error (combine l (prev :: removelast l)) (S i) = Some (x, p).
Proof.
  revert prev i. induction l as [|y l IH]; intros prev i; [discriminate|].
  destruct l as [|z l]; [destruct i; discriminate|].
  change (removelast (y :: z :: l)) with (y :: removelast (z :: l)).
  destruct i as [|i].
  - simpl. now intros [= ->] [= ->].
  - intros Hx Hp. change (nth_error (combine (z :: l) (y :: removelast (z :: l))) (S i)
                           = Some (x, p)).
    now apply IH.
Qed.

Lemma combine_prev_length (l : list number) prev :
  List.length (combine l (prev :: removelast l)) = List.length l.
Proof.
  revert prev. induction l as [|y l IH]; intros prev; [reflexivity|].
  destruct l as [|z l]; [reflexivity|].
  change (removelast (y :: z :: l)) with (y :: removelast (z :: l)).
  change (S (List.length (combine (z :: l) (y :: removelast (z :: l))))
          = S (List.length (z :: l))).
  now rewrite IH.
Qed.

Lemma ffill_from_length prev l :
  List.length (ffill_from prev l) = List.length l.
Proof.
  revert prev. induction l as [|x l IH]; intros prev; simpl; auto.
Qed.

Lemma ffill_from_nth prev l i x :
  nth_error l i = Some x -> isnan x = false ->
  nth_error (ffill_from prev l) i = Some x.
Proof.
  revert prev i. induction l as [|y l IH]; intros prev [|i]; simpl;
    try discriminate.
  - intros [= ->] ->. reflexivity.
  - apply IH.
Qed.

Lemma pct_change_length pad l :
  List.length (pct_change pad l) = List.length l.
Proof.
  unfold pct_change. rewrite length_map.
  set (data := if pad then ffill l else l).
  assert (Hd : List.length data = List.length l)
    by (subst data; destruct pad; [apply ffill_from_length|reflexivity]).
  rewrite <- Hd. destruct data as [|x d]; [reflexivity|].
  rewrite shift1_cons. apply combine_prev_length.
Qed.

Lemma pct_change_first pad x l :
  nth_error (pct_change pad (x :: l)) 0 = Some NaN.
Proof.
  unfold pct_change. destruct pad, x; reflexivity.
Qed.

(** Off the first period, the change is current over previous, minus 1;
    any forward fill leaves values that are there as they are. *)
Lemma pct_change_nth pad l i x p :
  nth_error l (S i) = Some x -> nth_error l i = Some p ->
  (pad = true -> isnan x = false /\ isnan p = false) ->
  nth_error (pct_change pad l) (S i) = Some (fsub (fdiv x p) (of_Z 1)).
Proof.
  intros Hx Hp Hpad. unfold pct_change.
  set (data := if pad then ffill l else l).
  assert (Hdx : nth_error data (S i) = Some x).
  { subst data. destruct pad; [|exact Hx].
    destruct (Hpad eq_refl). now apply ffill_from_nth. }
  assert (Hdp : nth_error data i = Some p).
  { subst data. destruct pad; [|exact Hp].
    destruct (Hpad eq_refl). now apply ffill_from_nth. }
  destruct data as [|y d]; [discriminate|].
  rewrite shift1_cons, nth_error_map.
  now rewrite (combine_prev_nth _ NaN i x p Hdx Hdp).
Qed.

Lemma yoy_change_nth pad l i x p :
  nth_error l (S i) = Some x -> nth_error l i = Some p ->
  (pad = true -> isnan x = false /\ isnan p = false) ->
  nth_error (yoy_change pad l) (S i)
  = Some (round2 (fmul (fsub (fdiv x p) (of_Z 1)) (of_Z 100))).
Proof.
  intros Hx Hp Hpad. unfold yoy_change.
  now rewrite nth_error_map, (pct_change_nth pad l i x p Hx Hp Hpad).
Qed.

(** C5 does not hold as stated: a prior value of zero does not give a
    null change; from 0 to 5 the change is plus infinity, with or without
    forward fill. *)
Lemma yoy_change_from_zero_is_infinite :
  yoy_change false [of_Z 0; of_Z 5] = [NaN; Inf false] /\
  yoy_change true [of_Z 0; of_Z 5] = [NaN; Inf false] /\
  isnan (Inf false) = false.
Proof. repeat split. Qed.

(** C5, amended.  The year-over-year change of a series has one entry
    per period and is null at the first.  After it, between two numbers
    with a non-zero prior value, it is (value - prior) / prior x 100
    rounded to two decimals; on a prior value of zero it is an infinity
    of the sign of the value, or null when the value is zero too; and,
    where pandas does not forward-fill, it is null whenever the value or
    the prior value is null.  The series 100, 150, 75 gives null, 50,
    -50. *)
Theorem yoy_change_values :
  forall pad l,
    List.length (yoy_change pad l) = List.length l /\
    (l <> [] -> nth_error (yoy_change pad l) 0 = Some NaN) /\
    (forall i v p,
        nth_error l (S i) = Some (Fin v) -> nth_error l i = Some (Fin p) ->
        (~ (p == 0)%Q ->
         exists c,
           nth_error (yoy_change pad l) (S i) = Some (Fin c) /\
           (c == inject_Z (round_half_even ((v - p) / p * 100 * 100)) / 100)%Q) /\
        ((p == 0)%Q -> ~ (v == 0)%Q ->
         nth_error (yoy_change pad l) (S i) = Some (Inf (Qneg_b v))) /\
        ((p == 0)%Q -> (v == 0)%Q ->
         nth_error (yoy_change pad l) (S i) = Some NaN)) /\
    (pad = false ->
     forall i x p,
       nth_error l (S i) = Some x -> nth_error l i = Some p ->
       isnan x = true \/ isnan p = true ->
       nth_error (yoy_change pad l) (S i) = Some NaN) /\
    yoy_change pad [of_Z 100; of_Z 150; of_Z 75] = [NaN; Fin 50; Fin (-50)].
Proof.
  intros pad l. split; [|split; [|split; [|split]]].
  - unfold yoy_change. now rewrite length_map, pct_change_length.
  - destruct l as [|x l]; [congruence|]. intros _.
    unfold yoy_change. now rewrite nth_error_map, pct_change_first.
  - intros i v p Hv Hp.
    assert (E := yoy_change_nth pad l i (Fin v) (Fin p) Hv Hp
                   (fun _ => conj eq_refl eq_refl)).
    rewrite E. clear E. split; [|split].
    + intros Hnz. rewrite (fdiv_Fin v p Hnz).
      unfold fsub, fneg, fadd, fmul, of_Z, round2.
      eexists. split; [reflexivity|].
      rewrite Qred_correct.
      apply Qmult_comp; [|reflexivity]. apply inject_Z_injective.
      apply round_half_even_compat.
      rewrite !Qred_correct. field. exact Hnz.
    + intros Hz Hnv. f_equal.
      destruct (fdiv_by_zero (Fin v) (Fin p)) as [_ H].
      { apply feqb_Fin. exact Hz. }
      rewrite (H v eq_refl Hnv). now destruct (Qneg_b v).
    + intros Hz Hzv. f_equal. simpl fdiv.
      apply Qeq_bool_iff in Hz. rewrite Hz.
      destruct v as [n d]. unfold Qeq in Hzv; simpl in Hzv.
      assert (n = 0) by lia. subst n. reflexivity.
  - intros -> i x p Hx Hp Hnull.
    rewrite (yoy_change_nth false l i x p Hx Hp) by discriminate.
    now rewrite (fdiv_null x p Hnull).
  - destruct pad; reflexivity.
Qed.

(** From 3 to 4 the change is 33.33, two decimals of 33.333... *)
Lemma yoy_change_values_witness :
  exists c,
    nth_error (yoy_change true [of_Z 3; of_Z 4]) 1 = Some (Fin c) /\
    (c == 3333 # 100)%Q.
Proof.
  destruct (proj1 (proj1 (proj2 (proj2 (yoy_change_values true [of_Z 3; of_Z 4])))
                     0%nat 4%Q 3%Q eq_refl eq_refl))
    as (c & Hc & Ec).
  - discriminate.
  - exists c. split; [exact Hc|]. rewrite Ec. reflexivity.
Defined.

(* ================================================================= *)
(** ** The order of dates *)

Lemma date_leb_spec a b :
  date_leb a b = true <->
  year a < year b \/
  (year a = year b /\
   (month a < month b \/ (month a = month b /\ day a <= day b))).
Proof.
  unfold date_leb, date_compare.
  destruct (Z.compare_spec (year a) (year b));
    destruct (Z.compare_spec (month a) (month b));
    destruct (Z.compare_spec (day a) (day b));
    split; intros; try reflexivity; try discriminate; lia.
Qed.

Lemma date_leb_refl a : date_leb a a = true.
Proof. apply date_leb_spec. lia. Qed.

Lemma date_leb_trans a b c :
  date_leb a b = true -> date_leb b c = true -> date_leb a c = true.
Proof. rewrite !date_leb_spec. lia. Qed.

Lemma date_leb_antisym a b :
  date_leb a b = true -> date_leb b a = true -> a = b.
Proof.
  rewrite !date_leb_spec. destruct a, b; simpl. intros H1 H2.
  f_equal; lia.
Qed.

Lemma max_date_spec d0 l :
  In (max_date d0 l) (d0 :: l) /\
  forall d, In d (d0 :: l) -> date_leb d (max_date d0 l) = true.
Proof.
  revert d0. induction l as [|e l IH]; intros d0; simpl max_date.
  - split; [left; reflexivity|].
    intros d [<-|[]]. apply date_leb_refl.
  - destruct (IH (if date_leb d0 e then e else d0)) as [Hin Hmax].
    split.
    + destruct Hin as [Hin|Hin]; [|right; right; exact Hin].
      rewrite <- Hin. destruct (date_leb d0 e); simpl; auto.
    + intros d [<-|[<-|Hd]].
      * eapply date_leb_trans; [|apply Hmax; left; reflexivity].
        destruct (date_leb d0 e) eqn:E; [exact E|apply date_leb_refl].
      * eapply date_leb_trans; [|apply Hmax; left; reflexivity].
        destruct (date_leb d0 e) eqn:E; [apply date_leb_refl|].
        apply not_true_iff_false in E. rewrite date_leb_spec in E.
        apply date_leb_spec. lia.
      * apply Hmax. right. exact Hd.
Qed.

Section SortMembers.
Context {A : Type}.

Lemma insert_by_date_In (r : date * A) l x :
  In x (insert_by_date r l) <-> x = r \/ In x l.
Proof.
  induction l as [|e l IH]; simpl.
  - intuition.
  - destruct (date_leb (fst r) (fst e)); simpl; [intuition|].
    rewrite IH. intuition.
Qed.

Lemma sort_by_date_In (l : list (date * A)) x :
  In x (sort_by_date l) <-> In x l.
Proof.
  induction l as [|r l IH]; simpl; [tauto|].
  unfold sort_by_date in *. simpl.
  rewrite insert_by_date_In, IH. intuition.
Qed.

(** The window of the ranking, in terms of the latest period. *)
Lemma last_two_years_latest (rs : list (date * A)) latest :
  is_latest latest rs ->
  last_two_years (sort_by_date rs)
  = filter (fun r => date_leb (sub_years latest 2) (fst r))
           (sort_by_date rs).
Proof.
  intros [Hin Hmax]. unfold last_two_years.
  destruct (sort_by_date rs) as [|r0 rest] eqn:E.
  - reflexivity.
  - assert (Hm : max_date (fst r0) (map fst rest) = latest).
    { destruct (max_date_spec (fst r0) (map fst rest)) as [Hm1 Hm2].
      change (fst r0 :: map fst rest) with (map fst (r0 :: rest)) in Hm1, Hm2.
      rewrite <- E in Hm1, Hm2.
      apply date_leb_antisym.
      - apply in_map_iff in Hm1 as (r & <- & Hr).
        apply Hmax. now apply sort_by_date_In.
      - apply Hm2. apply in_map_iff in Hin as (r & <- & Hr).
        apply in_map. now apply sort_by_date_In. }
    now rewrite Hm.
Qed.
End SortMembers.

(* ================================================================= *)
(** ** Ranking *)

Lemma fcmp_antisym x y :
  fcmp y x = option_map CompOpp (fcmp x y).
Proof.
  destruct x as [|[]|p], y as [|[]|q]; simpl; try reflexivity.
  now rewrite Qcompare_antisym.
Qed.

Lemma ranks_before_asym x y :
  ranks_before x y = true -> ranks_before y x = false.
Proof.
  unfold ranks_before, fgtb. rewrite (fcmp_antisym x y).
  destruct x as [|[]|p], y as [|[]|q]; simpl; try discriminate;
    try reflexivity.
  destruct (p ?= q)%Q; simpl; congruence.
Qed.

Lemma insert_desc_perm r l : Permutation (insert_desc r l) (r :: l).
Proof.
  induction l as [|e l IH]; simpl; [reflexivity|].
  destruct (ranks_before (snd e) (snd r)); [|reflexivity].
  rewrite IH. apply perm_swap.
Qed.

Lemma sort_values_desc_perm l : Permutation (sort_values_desc l) l.
Proof.
  induction l as [|r l IH]; simpl; [reflexivity|].
  unfold sort_values_desc in *. simpl.
  rewrite insert_desc_perm. now constructor.
Qed.

Lemma insert_desc_sorted r l : descending l -> descending (insert_desc r l).
Proof.
  unfold descending.
  induction l as [|e l IH]; simpl; intros Hs.
  - repeat constructor.
  - destruct (ranks_before (snd e) (snd r)) eqn:E.
    + inversion Hs as [|? ? Hs' Hhd]; subst.
      constructor; [now apply IH|].
      destruct l as [|e' l]; simpl.
      * constructor. now apply ranks_before_asym.
      * destruct (ranks_before (snd e') (snd r)).
        -- inversion Hhd; subst. now constructor.
        -- constructor. now apply ranks_before_asym.
    + constructor; [exact Hs|]. constructor. exact E.
Qed.

Lemma sort_values_desc_sorted l : descending (sort_values_desc l).
Proof.
  induction l as [|r l IH]; simpl.
  - constructor.
  - unfold sort_values_desc in *. simpl. now apply insert_desc_sorted.
Qed.

Lemma insert_company_perm c l : Permutation (insert_company c l) (c :: l).
Proof.
  induction l as [|e l IH]; simpl; [reflexivity|].
  destruct (String.leb c e); [reflexivity|].
  rewrite IH. apply perm_swap.
Qed.

Lemma group_keys_perm rs :
  Permutation (group_keys rs) (nodup string_dec (companies rs)).
Proof.
  unfold group_keys.
  induction (nodup string_dec (companies rs)) as [|c l IH]; simpl;
    [reflexivity|].
  rewrite insert_company_perm. now constructor.
Qed.

Lemma group_keys_NoDup rs : NoDup (group_keys rs).
Proof.
  eapply Permutation_NoDup; [symmetry; apply group_keys_perm|].
  apply NoDup_nodup.
Qed.

Lemma group_keys_In rs c :
  In c (group_keys rs) <-> exists r, In r rs /\ fst (snd r) = Some c.
Proof.
  rewrite (Permutation_in' eq_refl (group_keys_perm rs)).
  rewrite nodup_In. unfold companies. rewrite in_flat_map.
  split; intros (r & Hr & H); exists r; split; auto.
  - destruct (fst (snd r)) as [c'|]; simpl in H; [|contradiction].
    destruct H as [->|[]]. reflexivity.
  - rewrite H. simpl. auto.
Qed.

Lemma sorted_means (f : string -> number) keys :
  NoDup keys ->
  let t := sort_values_desc (map (fun c => (c, f c)) keys) in
  descending t /\
  NoDup (map fst t) /\
  forall c v, In (c, v) t <-> In c keys /\ v = f c.
Proof.
  intros Hnd t.
  assert (Hperm := sort_values_desc_perm (map (fun c => (c, f c)) keys)).
  fold t in Hperm.
  split; [apply sort_values_desc_sorted|]. split.
  - eapply Permutation_NoDup.
    + apply Permutation_map. symmetry. exact Hperm.
    + rewrite map_map. simpl. now rewrite map_id.
  - intros c v.
    rewrite (Permutation_in' eq_refl Hperm), in_map_iff. split.
    + intros (c' & [= -> <-] & Hin). auto.
    + intros [Hin ->]. eauto.
Qed.

Lemma ranking_of_groupby cols rs latest col i :
  position col cols = Some i ->
  is_latest latest rs ->
  exists g,
    groupby_mean cols (last_two_years (sort_by_date rs)) col = Ok g /\
    ranking_of rs latest i (sort_values_desc g).
Proof.
  intros Hpos Hlatest.
  rewrite (last_two_years_latest rs latest Hlatest).
  unfold groupby_mean. rewrite Hpos.
  eexists. split; [reflexivity|].
  unfold ranking_of. cbv zeta.
  match goal with
  | |- context [map ?f (group_keys ?w)] =>
      destruct (sorted_means (fun c => snd (f c)) (group_keys w)
                             (group_keys_NoDup w)) as (Hs & Hnd & Hin)
  end.
  cbv beta in Hs, Hnd, Hin. simpl snd in Hs, Hnd, Hin.
  split; [exact Hs|]. split; [exact Hnd|]. split.
  - intros c v. rewrite Hin, group_keys_In. reflexivity.
  - intros r. rewrite filter_In, sort_by_date_In. tauto.
Qed.

(** C6 does not hold as stated: the window is not taken on calendar
    years.  Company B reports at the end of June; its 2021 report lies in
    the calendar-year window of a dataset that ends in December 2023 but
    is earlier than December 2021, so the code leaves it out, B's mean is
    -2 instead of 49 and the order is A, B instead of B, A. *)
Lemma ranking_window_is_not_calendar_years :
  (exists operating,
      get_RankingTableProfitability ex_fiscal_years
      = Ok ([("A", of_Z 5); ("B", of_Z (-2))], operating)) /\
  ranking_by_calendar_years ex_fiscal_years
  = Ok [("B", of_Z 49); ("A", of_Z 5)].
Proof. split; [eexists|]; reflexivity. Qed.

(** C6, amended.  The ranking keeps the rows whose period is not earlier
    than the latest period of the dataset minus two years, groups them by
    company, takes the mean of the non-null values of the metric for each
    company and sorts the (Company, mean) rows in descending order, null
    means last; every company of the window has exactly one row.  With
    means of 5 for A, -2 for B and 10 for C the order is C, A, B. *)
Theorem ranking_table_profitability :
  forall profitability i j latest,
    position "Gross Profit Margin YoY Change" (cf_columns profitability)
    = Some i ->
    position "Operating Profit Margin YoY Change" (cf_columns profitability)
    = Some j ->
    is_latest latest (cf_rows profitability) ->
    (exists gross operating,
        get_RankingTableProfitability profitability = Ok (gross, operating) /\
        ranking_of (cf_rows profitability) latest i gross /\
        ranking_of (cf_rows profitability) latest j operating) /\
    sort_values_desc [("A", of_Z 5); ("B", of_Z (-2)); ("C", of_Z 10)]
    = [("C", of_Z 10); ("A", of_Z 5); ("B", of_Z (-2))].
Proof.
  intros p i j latest Hi Hj Hlatest. split; [|reflexivity].
  destruct (ranking_of_groupby _ _ _ _ _ Hi Hlatest) as (g & Hg & Hrg).
  destruct (ranking_of_groupby _ _ _ _ _ Hj Hlatest) as (o & Ho & Hro).
  exists (sort_values_desc g), (sort_values_desc o).
  unfold get_RankingTableProfitability. cbv zeta.
  rewrite Hg. simpl bind. rewrite Ho. simpl bind. auto.
Qed.

(** Three companies whose means over the window are 5, -2 and 10; the
    report of C for 2020 is outside the window. *)
Lemma ranking_table_profitability_witness :
  exists gross operating,
    get_RankingTableProfitability ex_three_companies = Ok (gross, operating) /\
    gross = [("C", of_Z 10); ("A", of_Z 5); ("B", of_Z (-2))] /\
    ranking_of (cf_rows ex_three_companies) (mkDate 2023 12 31) 3 gross.
Proof.
  assert (Hlatest : is_latest (mkDate 2023 12 31) (cf_rows ex_three_companies)).
  { split.
    - simpl. auto.
    - intros r H. simpl in H.
      repeat (destruct H as [<-|H]; [reflexivity|]). contradiction. }
  destruct (proj1 (ranking_table_profitability
                     ex_three_companies 3 1 (mkDate 2023 12 31)
                     eq_refl eq_refl Hlatest))
    as (gross & operating & Hr & Hg & _).
  exists gross, operating. split; [exact Hr|]. split; [|exact Hg].
  vm_compute in Hr. injection Hr as <- _. reflexivity.
Defined.

(* ================================================================= *)
(** ** The batch of ratios *)

Lemma ratio_frame_columns name a num b den df :
  ratio_frame name a num b den = Ok df -> columns df = [name].
Proof.
  unfold ratio_frame. intros H. do 2 bind_inv H.
  injection H as <-. reflexivity.
Qed.

Lemma set_company_Ok df t n cf :
  set_company df (repeat t n) = Ok cf ->
  cf_columns cf = columns df /\
  tagged t cf /\
  List.length (cf_rows cf) = List.length (rows df) /\
  List.length (rows df) = n.
Proof.
  unfold set_company. rewrite repeat_length.
  destruct (n =? List.length (rows df))%nat eqn:E; [|discriminate].
  apply Nat.eqb_eq in E. intros [= <-]. simpl.
  split; [reflexivity|]. split; [|split].
  - unfold tagged; simpl. apply Forall_forall. intros row Hin.
    apply in_map_iff in Hin as ([r t'] & <- & Hin). simpl.
    apply in_combine_r, repeat_spec in Hin. now subst.
  - rewrite length_map, length_combine, repeat_length. lia.
  - auto.
Qed.

Lemma reindex_rows_length df cols t :
  reindex df cols = Ok t -> List.length (rows t) = List.length (rows df).
Proof.
  unfold reindex.
  destruct (cols_eqb (columns df) cols); [now intros [= <-]|].
  destruct (has_dup (columns df)); [discriminate|].
  intros [= <-]. simpl. now rewrite length_map.
Qed.

Lemma getitem_length df c s :
  getitem df c = Ok s -> List.length s = List.length (rows df).
Proof.
  unfold getitem, df_get.
  destruct (position c (columns df)); [|discriminate].
  intros [= <-]. now rewrite length_map.
Qed.

Lemma ratio_frame_no_rows name a num b den df :
  rows a = [] -> rows b = [] ->
  ratio_frame name a num b den = Ok df -> rows df = [].
Proof.
  unfold ratio_frame. intros Ha Hb H. do 2 bind_inv H.
  apply getitem_length in Ha0, Ha1. rewrite Ha in Ha0. rewrite Hb in Ha1.
  destruct a0; [|discriminate]. destruct a1; [|discriminate].
  injection H as <-. reflexivity.
Qed.

Section Batch.
Variables bsT finT cfT : string -> result DataFrame.

Lemma current_ratio_no_rows t bs raw cr :
  extract_balance_sheet bsT t = Ok bs ->
  bsT t = Ok raw -> rows raw = [] ->
  get_CurrentRatio (current_Assets bs) (current_Liabilities bs) = Ok cr ->
  rows cr = [].
Proof.
  unfold extract_balance_sheet. intros H Hraw Hrows Hcr.
  rewrite Hraw in H. simpl bind in H.
  bind_inv H. destruct a as [[ca nca] ta].
  bind_inv H. destruct a as [[cl ncl] tl].
  bind_inv H. injection H as <-. simpl in Hcr.
  unfold get_Assets in Ha. do 3 bind_inv Ha. injection Ha as <- _ _.
  unfold get_Liabilities in Ha0. do 3 bind_inv Ha0. injection Ha0 as <- _ _.
  repeat match goal with
         | H : _safe_select_columns raw _ = Ok _ |- _ =>
             apply reindex_rows_length in H; rewrite Hrows in H;
             simpl in H; apply length_zero_iff_nil in H
         end.
  eapply ratio_frame_no_rows; [| |exact Hcr]; assumption.
Qed.

(** What one turn of the loop appends. *)
Lemma ratios_of_ticker_Ok t r :
  ratios_of_ticker bsT finT cfT t = Ok r ->
  map cf_columns (tables r) = map (fun n => [n]) ratio_names /\
  Forall (tagged t) (tables r) /\
  exists bs cr,
    extract_balance_sheet bsT t = Ok bs /\
    get_CurrentRatio (current_Assets bs) (current_Liabilities bs) = Ok cr /\
    Forall (fun f => List.length (cf_rows f) = List.length (rows cr))
           (tables r).
Proof.
  unfold ratios_of_ticker. intros H.
  do 18 bind_inv H. cbv zeta in *. injection H as <-.
  unfold get_CurrentRatio, get_DebttoEquityRatio, get_EquityMultiplierRatio,
    get_DebttoAssetsRatio, get_AssetTurnoverRatio,
    get_CashFlowtoNetIncomeRatio, get_OperatingCashFlowRatio in *.
  match goal with
  | H : ratio_frame "Current Ratio" _ _ _ _ = Ok _ |- _ =>
      pose proof (conj I H) as Hcr
  end.
  repeat match goal with
         | H : ratio_frame _ _ _ _ _ = Ok _ |- _ =>
             apply ratio_frame_columns in H
         | H : set_company _ _ = Ok _ |- _ =>
             apply set_company_Ok in H;
             let H1 := fresh "Hc" in
             let H2 := fresh "Ht" in
             let H3 := fresh "Hl" in
             let H4 := fresh "Hn" in
             destruct H as (H1 & H2 & H3 & H4)
         end.
  split; [|split].
  - unfold tables; simpl. congruence.
  - unfold tables; simpl. repeat constructor; assumption.
  - do 2 eexists. split; [eassumption|]. split; [exact (proj2 Hcr)|].
    unfold tables; simpl. repeat constructor; congruence.
Qed.
End Batch.

Lemma fold_append_ratios rs acc :
  tables (fold_left append_ratios rs acc)
  = map (fun k => nth k (tables acc) [] ++
                  map (fun r => nth k (tables r) (mkCF [] [])) rs)
        (seq 0 7).
Proof.
  revert acc. induction rs as [|r rs IH]; intros acc.
  - simpl. unfold tables. now rewrite !app_nil_r.
  - simpl fold_left. rewrite IH. unfold tables, append_ratios; simpl.
    now rewrite <- !app_assoc.
Qed.

Lemma concat_same_columns cols frames :
  frames <> [] ->
  Forall (fun f => cf_columns f = cols) frames ->
  concat frames = Ok (mkCF cols (flat_map cf_rows frames)).
Proof.
  intros Hne Hall. unfold concat.
  destruct frames as [|f fs]; [congruence|].
  inversion Hall as [|? ? Hf Hfs]; subst.
  assert (E : forallb (fun g => cols_eqb (cf_columns g) (cf_columns f)) fs
              = true).
  { apply forallb_forall. intros g Hg. apply cols_eqb_eq.
    rewrite Forall_forall in Hfs. now apply Hfs. }
  now rewrite E.
Qed.

Lemma flat_map_map {A B C} (f : A -> B) (g : B -> list C) l :
  flat_map g (map f l) = flat_map (fun x => g (f x)) l.
Proof. induction l as [|x l IH]; simpl; [reflexivity|]. now rewrite IH. Qed.

Section BatchLoop.
Variables bsT finT cfT : string -> result DataFrame.

(** The loop stops at the first ticker that raises. *)
Lemma ratios_loop_raises before ticker after e acc :
  (forall t, In t before -> exists r, ratios_of_ticker bsT finT cfT t = Ok r) ->
  ratios_of_ticker bsT finT cfT ticker = Raise e ->
  ratios_loop bsT finT cfT (before ++ ticker :: after) acc = Raise e.
Proof.
  revert acc.
  induction before as [|t before IH]; intros acc Hbefore Hraise; simpl.
  - now rewrite Hraise.
  - destruct (Hbefore t (or_introl eq_refl)) as [r Hr]. rewrite Hr. simpl.
    apply IH; [|exact Hraise]. intros t' Ht'. apply Hbefore. now right.
Qed.

Lemma ratios_loop_Ok listoftickers rs acc :
  Forall2 (fun t r => ratios_of_ticker bsT finT cfT t = Ok r)
          listoftickers rs ->
  ratios_loop bsT finT cfT listoftickers acc
  = Ok (fold_left append_ratios rs acc).
Proof.
  intros H. revert acc.
  induction H as [|t r l rs Hr Hrest IH]; intros acc; simpl.
  - reflexivity.
  - rewrite Hr. simpl. apply IH.
Qed.

Lemma batch_Ok listoftickers rs :
  listoftickers <> [] ->
  Forall2 (fun t r => ratios_of_ticker bsT finT cfT t = Ok r)
          listoftickers rs ->
  exists out,
    get_RatiosofMultipleCompanies bsT finT cfT listoftickers = Ok out /\
    map cf_columns (tables out) = map (fun n => [n]) ratio_names /\
    map cf_rows (tables out) = stacked_rows rs.
Proof.
  intros Hne Hall.
  assert (Hrs : rs <> []).
  { destruct Hall; [congruence|discriminate]. }
  assert (Hcols : Forall (fun r => map cf_columns (tables r)
                                   = map (fun n => [n]) ratio_names) rs).
  { clear Hne Hrs. induction Hall as [|t r l rs Hr _ IH]; constructor; auto.
    now apply (ratios_of_ticker_Ok bsT finT cfT t r). }
  unfold get_RatiosofMultipleCompanies.
  rewrite (ratios_loop_Ok _ rs _ Hall). simpl bind.
  pose proof (fold_append_ratios rs (mkRatios [] [] [] [] [] [] [])) as Ht.
  unfold tables in Ht at 1. simpl in Ht.
  injection Ht as -> -> -> -> -> -> ->.
  assert (Hk : forall k name,
             nth_error ratio_names k = Some name ->
             concat (map (fun r => nth k (tables r) (mkCF [] [])) rs)
             = Ok (mkCF [name]
                        (flat_map (fun r => cf_rows (nth k (tables r)
                                                          (mkCF [] []))) rs))).
  { intros k name Hname.
    rewrite <- (flat_map_map (fun r => nth k (tables r) (mkCF [] [])) cf_rows).
    apply concat_same_columns.
    - destruct rs; [congruence|discriminate].
    - apply Forall_forall. intros f Hf.
      apply in_map_iff in Hf as (r & <- & Hr).
      rewrite Forall_forall in Hcols. specialize (Hcols r Hr).
      do 7 (destruct k as [|k]; [simpl in *; congruence|]).
      destruct k; discriminate. }
  pose proof (Hk 0%nat _ eq_refl) as H0.
  pose proof (Hk 1%nat _ eq_refl) as H1.
  pose proof (Hk 2%nat _ eq_refl) as H2.
  pose proof (Hk 3%nat _ eq_refl) as H3.
  pose proof (Hk 4%nat _ eq_refl) as H4.
  pose proof (Hk 5%nat _ eq_refl) as H5.
  pose proof (Hk 6%nat _ eq_refl) as H6.
  simpl in H0, H1, H2, H3, H4, H5, H6.
  rewrite H0; simpl bind. rewrite H1; simpl bind. rewrite H2; simpl bind.
  rewrite H3; simpl bind. rewrite H4; simpl bind. rewrite H5; simpl bind.
  rewrite H6; simpl bind.
  eexists. split; [reflexivity|]. split; reflexivity.
Qed.
End BatchLoop.

(** C4 does not hold as stated: one ticker that fails takes the whole
    batch with it.  GOOD alone gives its seven tables; together with a
    ticker for which the provider raises, or with one for which it has no
    data at all, the batch raises and gives no table, not even GOOD's. *)
Lemma one_failing_ticker_aborts_the_batch :
  let batch := get_RatiosofMultipleCompanies
                 (ex_provider ex_bs) (ex_provider ex_fs) (ex_provider ex_cf) in
  (exists out, batch ["GOOD"] = Ok out) /\
  batch ["GOOD"; "BAD"] = Raise (ProviderError "BAD") /\
  batch ["GOOD"; "EMPTY"] = Raise (KeyError "Total Revenue").
Proof. split; [eexists; reflexivity|]. split; reflexivity. Qed.

(** C4, amended.  Nothing isolates a ticker in the batch: the first
    exception raised while a ticker is computed is raised by the batch.
    When every ticker of a non-empty list is computed without an
    exception, the batch returns its seven tables, each with its ratio
    column and the rows of the tickers one ticker after the other; every
    row of a ticker carries that ticker, and a ticker whose balance sheet
    has no periods has no rows in any table. *)
Theorem batch_is_all_or_nothing :
  forall bsT finT cfT listoftickers,
    let per_ticker := ratios_of_ticker bsT finT cfT in
    let batch := get_RatiosofMultipleCompanies bsT finT cfT in
    (forall before ticker after e,
        listoftickers = before ++ ticker :: after ->
        (forall t, In t before -> exists r, per_ticker t = Ok r) ->
        per_ticker ticker = Raise e ->
        batch listoftickers = Raise e) /\
    (forall rs,
        listoftickers <> [] ->
        Forall2 (fun t r => per_ticker t = Ok r) listoftickers rs ->
        exists out,
          batch listoftickers = Ok out /\
          map cf_columns (tables out) = map (fun n => [n]) ratio_names /\
          map cf_rows (tables out) = stacked_rows rs) /\
    (forall t r,
        per_ticker t = Ok r ->
        Forall (tagged t) (tables r) /\
        (forall raw, bsT t = Ok raw -> rows raw = [] ->
                     Forall (fun f => cf_rows f = []) (tables r))).
Proof.
  intros bsT finT cfT listoftickers per_ticker batch.
  split; [|split].
  - intros before ticker after e -> Hbefore Hraise.
    subst batch. unfold get_RatiosofMultipleCompanies.
    now rewrite (ratios_loop_raises bsT finT cfT before ticker after e _
                                    Hbefore Hraise).
  - intros rs. apply batch_Ok.
  - intros t r Hr.
    destruct (ratios_of_ticker_Ok bsT finT cfT t r Hr)
      as (_ & Htag & bs & cr & Hbs & Hcr & Hlen).
    split; [exact Htag|].
    intros raw Hraw Hrows.
    pose proof (current_ratio_no_rows bsT t bs raw cr Hbs Hraw Hrows Hcr) as E.
    rewrite E in Hlen. simpl in Hlen.
    eapply Forall_impl; [|exact Hlen].
    intros f Hf. now apply length_zero_iff_nil.
Qed.

(** The batch of GOOD alone, and of GOOD with a ticker the provider
    fails for. *)
Lemma batch_is_all_or_nothing_witness :
  let batch := get_RatiosofMultipleCompanies
                 (ex_provider ex_bs) (ex_provider ex_fs) (ex_provider ex_cf) in
  batch ["GOOD"; "BAD"] = Raise (ProviderError "BAD") /\
  exists out,
    batch ["GOOD"] = Ok out /\
    map cf_columns (tables out) = map (fun n => [n]) ratio_names.
Proof.
  intros batch. split.
  - destruct (batch_is_all_or_nothing
                (ex_provider ex_bs) (ex_provider ex_fs) (ex_provider ex_cf)
                ["GOOD"; "BAD"]) as (Habort & _ & _).
    apply (Habort ["GOOD"] "BAD" [] _ eq_refl).
    + intros t [<-|[]]. eexists. reflexivity.
    + reflexivity.
  - destruct (batch_is_all_or_nothing
                (ex_provider ex_bs) (ex_provider ex_fs) (ex_provider ex_cf)
                ["GOOD"]) as (_ & Hok & _).
    destruct (ratios_of_ticker (ex_provider ex_bs) (ex_provider ex_fs)
                               (ex_provider ex_cf) "GOOD") as [r|e] eqn:E.
    + destruct (Hok [r]) as (out & Hout & Hcols & _).
      * discriminate.
      * repeat constructor. exact E.
      * exists out. split; [exact Hout | exact Hcols].
    + vm_compute in E. discriminate E.
Defined.

(* ================================================================= *)
(** ** Worked examples *)

(** A current ratio of exactly 1.5 scores 10, of exactly 1.0 scores 7 and
    of exactly 0.8 scores 4: the lower bounds of the bands belong to
    them. *)
Lemma liquidity_band_boundaries :
  dict_get "Liquidity (Current Ratio)"
    (s_metric_scores (liquidity (Some (of_Z 150)) (Some (of_Z 100)) s0))
  = Some 10 /\
  dict_get "Liquidity (Current Ratio)"
    (s_metric_scores (liquidity (Some (of_Z 100)) (Some (of_Z 100)) s0))
  = Some 7 /\
  dict_get "Liquidity (Current Ratio)"
    (s_metric_scores (liquidity (Some (of_Z 80)) (Some (of_Z 100)) s0))
  = Some 4.
Proof. repeat split. Qed.

(** Current assets of 150 on current liabilities of 100 and liabilities
    of 200 on an equity of 300, with the other metrics at their best:
    every metric scores 10, the total is 100 and the rating Strong. *)
Lemma all_metrics_at_ten :
  exists h,
    score_company_health "X" (Some ex_bs) (Some ex_fs) (Some ex_cf) = Ok h /\
    score h = 100 /\ rating h = "Strong" /\ flags h = [] /\
    dict_values (metric_scores h) = [10; 10; 10; 10; 10; 10; 10; 10] /\
    dict_get "Current Ratio" (snapshot h) = Some (Some (Fin (3 # 2))) /\
    dict_get "Debt to Equity (Liab/Equity)" (snapshot h)
    = Some (Some (Fin (2 # 3))).
Proof. eexists. split; [reflexivity|]. repeat split. Qed.

(** A revenue that is missing after the column selection is NaN: the
    margins are NaN, which is not [None], and score 1 with the flags of
    the lowest band. *)
Lemma nan_revenue_falls_to_lowest_band :
  let s' := profitability (Some (of_Z 300)) (Some NaN) s0 in
  _safe_div (Some (of_Z 300)) (Some NaN) = Some NaN /\
  dict_get "Profitability (Operating Margin)" (s_metric_scores s') = Some 1 /\
  s_flags s' = ["Very low operating margin (business model looks fragile)."].
Proof. repeat split. Qed.

(* ================================================================= *)
(** ** Sorting by date, once more *)

Section SortOrder.
Context {A : Type}.

Lemma date_leb_total a b : date_leb a b = false -> date_leb b a = true.
Proof.
  intros E. apply not_true_iff_false in E. rewrite date_leb_spec in E.
  apply date_leb_spec. lia.
Qed.

Lemma insert_by_date_perm (r : date * A) l :
  Permutation (insert_by_date r l) (r :: l).
Proof.
  induction l as [|e l IH]; simpl; [reflexivity|].
  destruct (date_leb (fst r) (fst e)); [reflexivity|].
  rewrite IH. apply perm_swap.
Qed.

Lemma sort_by_date_perm (l : list (date * A)) :
  Permutation (sort_by_date l) l.
Proof.
  induction l as [|r l IH]; simpl; [reflexivity|].
  unfold sort_by_date in *. simpl.
  rewrite insert_by_date_perm. now constructor.
Qed.

Lemma insert_by_date_sorted (r : date * A) l :
  StronglySorted by_date l -> StronglySorted by_date (insert_by_date r l).
Proof.
  induction l as [|e l IH]; simpl; intros Hs.
  - repeat constructor.
  - inversion Hs as [|? ? Hs' Hall]; subst.
    destruct (date_leb (fst r) (fst e)) eqn:E.
    + constructor; [exact Hs|]. constructor; [exact E|].
      eapply Forall_impl; [|exact Hall].
      intros x Hx. unfold by_date in *. eapply date_leb_trans; eauto.
    + constructor; [now apply IH|].
      apply Forall_forall. intros x Hx.
      apply insert_by_date_In in Hx as [->|Hx].
      * now apply date_leb_total.
      * rewrite Forall_forall in Hall. now apply Hall.
Qed.

Lemma sort_by_date_sorted (l : list (date * A)) :
  StronglySorted by_date (sort_by_date l).
Proof.
  induction l as [|r l IH]; simpl; [constructor|].
  unfold sort_by_date in *. simpl. now apply insert_by_date_sorted.
Qed.

Lemma same_date_same_row (l : list (date * A)) a b :
  NoDup (map fst l) -> In a l -> In b l -> fst a = fst b -> a = b.
Proof.
  induction l as [|x l IH]; simpl; [contradiction|].
  intros Hnd Ha Hb E. inversion Hnd as [|? ? Hnotin Hnd']; subst.
  destruct Ha as [->|Ha], Hb as [->|Hb]; auto.
  - exfalso. apply Hnotin. rewrite E. now apply in_map.
  - exfalso. apply Hnotin. rewrite <- E. now apply in_map.
Qed.

(** With distinct dates there is one way to be sorted. *)
Lemma sorted_perm_unique (l l' : list (date * A)) :
  StronglySorted by_date l -> StronglySorted by_date l' ->
  Permutation l l' -> NoDup (map fst l) -> l = l'.
Proof.
  revert l'. induction l as [|x xs IH]; intros l' Hs Hs' Hp Hnd.
  - apply Permutation_nil in Hp. now subst.
  - destruct l' as [|y ys].
    { symmetry in Hp. apply Permutation_nil in Hp. discriminate. }
    inversion Hs as [|? ? Hsx Hallx]; subst.
    inversion Hs' as [|? ? Hsy Hally]; subst.
    assert (Hy : In y (x :: xs))
      by (eapply Permutation_in; [symmetry; exact Hp|left; reflexivity]).
    assert (Hx : In x (y :: ys))
      by (eapply Permutation_in; [exact Hp|left; reflexivity]).
    assert (Exy : x = y).
    { symmetry. apply (same_date_same_row (x :: xs)); auto.
      - left; reflexivity.
      - apply date_leb_antisym.
        + destruct Hx as [->|Hx]; [apply date_leb_refl|].
          rewrite Forall_forall in Hally. now apply Hally.
        + destruct Hy as [->|Hy]; [apply date_leb_refl|].
          rewrite Forall_forall in Hallx. now apply Hallx. }
    subst y. f_equal.
    apply IH; auto.
    + now apply Permutation_cons_inv in Hp.
    + now inversion Hnd.
Qed.

Lemma sort_by_date_perm_eq (l l' : list (date * A)) :
  Permutation l l' -> NoDup (map fst l) ->
  sort_by_date l = sort_by_date l'.
Proof.
  intros Hp Hnd. apply sorted_perm_unique.
  - apply sort_by_date_sorted.
  - apply sort_by_date_sorted.
  - rewrite !sort_by_date_perm. exact Hp.
  - eapply Permutation_NoDup; [|exact Hnd].
    apply Permutation_map. symmetry. apply sort_by_date_perm.
Qed.

(** The last row of a sorted list is a latest one. *)
Lemma last_sorted_latest (l : list (date * A)) d x :
  StronglySorted by_date l -> In x l -> by_date x (List.last l d).
Proof.
  induction l as [|y l IH]; [contradiction|].
  intros Hs Hin. inversion Hs as [|? ? Hs' Hall]; subst.
  destruct l as [|z l].
  - destruct Hin as [->|[]]. apply date_leb_refl.
  - change (List.last (y :: z :: l) d) with (List.last (z :: l) d).
    destruct Hin as [->|Hin]; [|now apply IH].
    rewrite Forall_forall in Hall. apply Hall.
    apply last_In. discriminate.
Qed.
End SortOrder.

(* ================================================================= *)
(** ** The list of tickers *)

Lemma mem_col_cons y x l :
  mem_col y (x :: l) = String.eqb y x || mem_col y l.
Proof.
  unfold mem_col; simpl. destruct (String.eqb y x); [reflexivity|].
  now destruct (position y l).
Qed.

Lemma filter_filter {A} (p q : A -> bool) l :
  filter p (filter q l) = filter (fun x => q x && p x) l.
Proof.
  induction l as [|x l IH]; simpl; [reflexivity|].
  destruct (q x); simpl; [destruct (p x)|]; now rewrite IH.
Qed.

Lemma dedup_loop_first_occurrences seq seen out :
  dedup_loop seq seen out
  = out ++ filter (fun y => negb (mem_col y seen)) (first_occurrences seq).
Proof.
  revert seen out. induction seq as [|x rest IH]; intros seen out; simpl.
  - now rewrite app_nil_r.
  - rewrite filter_filter. destruct (mem_col x seen) eqn:E; rewrite IH; simpl.
    + f_equal. apply filter_ext_in. intros y _.
      destruct (String.eqb_spec y x) as [->|Hne]; simpl; [now rewrite E|].
      reflexivity.
    + rewrite <- app_assoc. simpl. do 2 f_equal.
      apply filter_ext. intros y. now rewrite mem_col_cons, negb_orb.
Qed.

Lemma _dedup_keep_order_first_occurrences seq :
  _dedup_keep_order seq = first_occurrences seq.
Proof.
  unfold _dedup_keep_order. rewrite dedup_loop_first_occurrences. simpl.
  induction (first_occurrences seq) as [|y l IH]; simpl; [reflexivity|].
  now rewrite IH.
Qed.

Lemma first_occurrences_In l x : In x (first_occurrences l) <-> In x l.
Proof.
  induction l as [|y l IH]; simpl; [tauto|].
  rewrite filter_In, IH, negb_true_iff, String.eqb_neq.
  destruct (string_dec y x) as [->|Hne]; [tauto|].
  split; [tauto|]. intros [H|H]; [contradiction|]. right. split; congruence.
Qed.

Lemma first_occurrences_NoDup l : NoDup (first_occurrences l).
Proof.
  induction l as [|y l IH]; simpl; constructor.
  - rewrite filter_In, String.eqb_refl. intros [_ H]. discriminate.
  - now apply NoDup_filter.
Qed.

Lemma first_occurrences_fixed l : NoDup l -> first_occurrences l = l.
Proof.
  induction 1 as [|y l Hnotin Hnd IH]; simpl; [reflexivity|].
  rewrite IH. f_equal. apply forallb_filter_id, forallb_forall.
  intros x Hx. apply negb_true_iff, String.eqb_neq. congruence.
Qed.

(** X1.  [_dedup_keep_order] returns every element of the sequence once,
    in the order of the first occurrences: the head stays first and the
    rest is the dedup of the tail without the head.  A sequence without
    repetitions is returned as it is, so a second pass changes
    nothing. *)
Theorem dedup_keeps_first_occurrences :
  forall seq,
    NoDup (_dedup_keep_order seq) /\
    (forall x, In x (_dedup_keep_order seq) <-> In x seq) /\
    (forall x rest,
        seq = x :: rest ->
        _dedup_keep_order seq
        = x :: filter (fun y => negb (String.eqb y x))
                      (_dedup_keep_order rest)) /\
    (NoDup seq -> _dedup_keep_order seq = seq) /\
    _dedup_keep_order (_dedup_keep_order seq) = _dedup_keep_order seq.
Proof.
  intros seq. rewrite !_dedup_keep_order_first_occurrences.
  split; [apply first_occurrences_NoDup|].
  split; [apply first_occurrences_In|].
  split; [|split].
  - intros x rest ->. now rewrite _dedup_keep_order_first_occurrences.
  - apply first_occurrences_fixed.
  - apply first_occurrences_fixed, first_occurrences_NoDup.
Qed.

Lemma dedup_keeps_first_occurrences_witness :
  _dedup_keep_order ["AAPL"; "MSFT"; "AAPL"; "GOOG"; "MSFT"]
  = ["AAPL"; "MSFT"; "GOOG"] /\
  _dedup_keep_order ["AAPL"; "MSFT"] = ["AAPL"; "MSFT"].
Proof.
  split; [reflexivity|].
  apply (proj1 (proj2 (proj2 (proj2 (dedup_keeps_first_occurrences
                                       ["AAPL"; "MSFT"]))))).
  repeat constructor; simpl; intuition discriminate.
Defined.

(* ================================================================= *)
(** ** The parts of the balance sheet *)

Lemma _first_existing_Some df candidates c :
  _first_existing df candidates = Some c <->
  exists before after,
    candidates = before ++ c :: after /\
    In c (columns df) /\
    forall b, In b before -> ~ In b (columns df).
Proof.
  induction candidates as [|x cs IH]; simpl.
  - split; [discriminate|]. intros (before & after & E & _).
    destruct before; discriminate.
  - destruct (mem_col x (columns df)) eqn:E.
    + apply mem_col_In in E. split.
      * intros [= <-]. exists [], cs. simpl. auto.
      * intros (before & after & Ecs & Hc & Hbefore).
        destruct before as [|b before]; simpl in Ecs.
        -- congruence.
        -- injection Ecs as <- _. exfalso.
           apply (Hbefore x); [left; reflexivity|exact E].
    + assert (Hx : ~ In x (columns df)).
      { intros H. apply mem_col_In in H. congruence. }
      rewrite IH. split.
      * intros (before & after & -> & Hc & Hbefore).
        exists (x :: before), after. simpl. split; [reflexivity|].
        split; [exact Hc|]. intros b [<-|Hb]; auto.
      * intros (before & after & Ecs & Hc & Hbefore).
        destruct before as [|b before]; simpl in Ecs.
        -- injection Ecs as -> _. contradiction.
        -- injection Ecs as <- ->. exists before, after.
           split; [reflexivity|]. split; [exact Hc|].
           intros b' Hb'. apply Hbefore. now right.
Qed.

Lemma _first_existing_None df candidates :
  _first_existing df candidates = None <->
  forall c, In c candidates -> ~ In c (columns df).
Proof.
  induction candidates as [|x cs IH]; simpl.
  - split; [intros _ c []|reflexivity].
  - destruct (mem_col x (columns df)) eqn:E.
    + apply mem_col_In in E. split; [discriminate|].
      intros H. exfalso. apply (H x); auto.
    + rewrite IH. split.
      * intros H c [<-|Hc]; [|now apply H].
        intros Hin. apply mem_col_In in Hin. congruence.
      * intros H c Hc. apply H. now right.
Qed.

(** X2.  [_first_existing] returns the first candidate that is a column
    of the table, the candidates before it being none, and [None] exactly
    when no candidate is a column. *)
Theorem first_existing_is_first :
  forall df candidates,
    (forall c,
        _first_existing df candidates = Some c <->
        exists before after,
          candidates = before ++ c :: after /\
          In c (columns df) /\
          forall b, In b before -> ~ In b (columns df)) /\
    (_first_existing df candidates = None <->
     forall c, In c candidates -> ~ In c (columns df)).
Proof.
  intros df candidates. split.
  - intros c. apply _first_existing_Some.
  - apply _first_existing_None.
Qed.

(** A balance sheet that has the second and the fourth candidate. *)
Lemma first_existing_is_first_witness :
  _first_existing (mkDF ["Common Stock Equity"; "Stockholders Equity"] [])
                  equity_candidates
  = Some "Stockholders Equity".
Proof.
  apply (proj1 (first_existing_is_first
                  (mkDF ["Common Stock Equity"; "Stockholders Equity"] [])
                  equity_candidates)).
  exists ["Total Equity Gross Minority Interest"],
         ["Total Stockholder Equity"; "Common Stock Equity"; "Total Equity"].
  split; [reflexivity|]. split; [simpl; auto|].
  intros b [<-|[]]. simpl. intuition discriminate.
Defined.

Lemma df_get_frame_of_series name s :
  df_get (frame_of_series name s) name = Some s.
Proof.
  unfold df_get, frame_of_series; simpl. rewrite String.eqb_refl.
  rewrite map_map. simpl. apply f_equal.
  induction s as [|[d x] s IH]; simpl; [reflexivity|]. now rewrite IH.
Qed.

Lemma df_index_frame_of_series name s :
  df_index (frame_of_series name s) = map fst s.
Proof. unfold df_index, frame_of_series; simpl. now rewrite map_map. Qed.

Lemma df_get_index df c s : df_get df c = Some s -> map fst s = df_index df.
Proof.
  unfold df_get, df_index. destruct (position c (columns df)); [|discriminate].
  intros [= <-]. now rewrite map_map.
Qed.

Lemma get_Equity_spec :
  forall balancesheet,
    exists t,
      get_Equity balancesheet = Ok t /\
      columns t = ["Total Equity Gross Minority Interest"] /\
      df_index t = df_index balancesheet /\
      match _first_existing balancesheet equity_candidates with
      | Some col =>
          df_get t "Total Equity Gross Minority Interest"
          = df_get balancesheet col
      | None =>
          df_get t "Total Equity Gross Minority Interest"
          = Some (map (fun d => (d, NaN)) (df_index balancesheet))
      end.
Proof.
  intros bs. unfold get_Equity.
  destruct (_first_existing bs equity_candidates) as [col|] eqn:E.
  - apply _first_existing_Some in E as (_ & _ & _ & Hcol & _).
    destruct (position_In _ _ Hcol) as [i Hi].
    assert (Hget : df_get bs col
                   = Some (map (fun r => (fst r, nth i (snd r) NaN)) (rows bs)))
      by (unfold df_get; now rewrite Hi).
    unfold getitem. rewrite Hget. simpl.
    eexists. split; [reflexivity|]. split; [reflexivity|]. split.
    + rewrite df_index_frame_of_series. now apply df_get_index in Hget.
    + apply df_get_frame_of_series.
  - eexists. split; [reflexivity|]. split; [reflexivity|]. split.
    + unfold df_index; simpl. now rewrite map_map.
    + unfold df_get, df_index; simpl. now rewrite !map_map.
Qed.

(** X3.  On a balance sheet with distinct labels [get_Equity] does not
    raise and returns one column, named Total Equity Gross Minority
    Interest, on the periods of the balance sheet: the values of the first
    of the five candidate columns the balance sheet has, and null in every
    period when it has none. *)
Theorem equity_is_one_standard_column :
  forall balancesheet,
    NoDup (columns balancesheet) ->
    exists t,
      get_Equity balancesheet = Ok t /\
      columns t = ["Total Equity Gross Minority Interest"] /\
      df_index t = df_index balancesheet /\
      match _first_existing balancesheet equity_candidates with
      | Some col =>
          df_get t "Total Equity Gross Minority Interest"
          = df_get balancesheet col
      | None =>
          df_get t "Total Equity Gross Minority Interest"
          = Some (map (fun d => (d, NaN)) (df_index balancesheet))
      end.
Proof. intros balancesheet _. apply get_Equity_spec. Qed.

(** A balance sheet that has the second candidate only. *)
Lemma equity_is_one_standard_column_witness :
  let raw := mkDF ["Total Assets"; "Stockholders Equity"]
                  [(mkDate 2023 12 31, [of_Z 500; of_Z 300]);
                   (mkDate 2022 12 31, [of_Z 480; of_Z 290])] in
  exists t,
    get_Equity raw = Ok t /\
    df_get t "Total Equity Gross Minority Interest"
    = Some [(mkDate 2023 12 31, of_Z 300); (mkDate 2022 12 31, of_Z 290)].
Proof.
  intros raw.
  destruct (equity_is_one_standard_column raw) as (t & Ht & _ & _ & Hv).
  - simpl. repeat constructor; simpl; intuition discriminate.
  - exists t. split; [exact Ht | exact Hv].
Defined.

Lemma select_columns_Ok raw cols :
  NoDup (columns raw) ->
  exists t,
    _safe_select_columns raw cols = Ok t /\
    columns t = cols /\ df_index t = df_index raw.
Proof.
  intros Hnd.
  destruct (select_columns_spec raw cols Hnd) as (t & Ht & Hc & Hi & _).
  eauto.
Qed.

Lemma columns_hconcat a b : columns (hconcat a b) = columns a ++ columns b.
Proof.
  unfold hconcat. now destruct (dates_eqb (df_index a) (df_index b)).
Qed.

Lemma combine_same_fst {A B} (x : list (date * A)) (y : list (date * B)) :
  map fst x = map fst y ->
  map (fun p => fst (fst p)) (combine x y) = map fst x.
Proof.
  revert y. induction x as [|a x IH]; intros [|b y]; simpl;
    try discriminate; [reflexivity|].
  intros [= _ E]. now rewrite IH.
Qed.

Lemma df_index_hconcat a b :
  df_index a = df_index b -> df_index (hconcat a b) = df_index a.
Proof.
  intros E. unfold hconcat.
  rewrite (proj2 (dates_eqb_eq _ _) E).
  unfold df_index in *; simpl. rewrite map_map. simpl.
  now apply combine_same_fst.
Qed.

Lemma fold_hconcat fs f idx :
  df_index f = idx -> Forall (fun g => df_index g = idx) fs ->
  columns (fold_left hconcat fs f) = columns f ++ List.concat (map columns fs) /\
  df_index (fold_left hconcat fs f) = idx.
Proof.
  revert f. induction fs as [|g fs IH]; intros f Hf Hall; simpl.
  - now rewrite app_nil_r.
  - inversion Hall as [|? ? Hg Hfs]; subst.
    destruct (IH (hconcat f g)) as [Hc Hi]; auto.
    + rewrite df_index_hconcat; congruence.
    + split; [|exact Hi]. now rewrite Hc, columns_hconcat, app_assoc.
Qed.

Lemma extract_balance_sheet_Ok balancesheet_T ticker raw :
  balancesheet_T ticker = Ok raw -> NoDup (columns raw) ->
  exists bs,
    extract_balance_sheet balancesheet_T ticker = Ok bs /\
    map columns (parts bs) = balance_sheet_columns /\
    Forall (fun f => df_index f = df_index raw) (parts bs).
Proof.
  intros Hraw Hnd.
  unfold extract_balance_sheet, get_Assets, get_Liabilities.
  rewrite Hraw. simpl bind.
  repeat match goal with
         | |- context [_safe_select_columns raw ?cols] =>
             let t := fresh "t" in
             let Ht := fresh "Ht" in
             let Hc := fresh "Hc" in
             let Hi := fresh "Hi" in
             destruct (select_columns_Ok raw cols Hnd)
               as (t & Ht & Hc & Hi);
             rewrite Ht; simpl bind
         end.
  destruct (get_Equity_spec raw) as (q & Hq & Hqc & Hqi & _).
  rewrite Hq. simpl bind.
  eexists. split; [reflexivity|]. unfold parts; simpl. split.
  - unfold balance_sheet_columns. congruence.
  - repeat constructor; assumption.
Qed.

Lemma complete_balance_sheet_Ok (bs : balance_sheet_parts) idx :
  map columns (parts bs) = balance_sheet_columns ->
  Forall (fun f => df_index f = idx) (parts bs) ->
  exists df,
    concat_axis1 (parts bs) = Ok df /\
    columns df = List.concat balance_sheet_columns /\
    df_index df = idx.
Proof.
  intros Hcols Hidx. unfold concat_axis1, parts in *.
  eexists. split; [reflexivity|].
  destruct (fold_hconcat _ _ _ (Forall_inv Hidx) (Forall_inv_tail Hidx))
    as [Hc Hi].
  split; [|exact Hi].
  etransitivity; [exact Hc|].
  rewrite <- Hcols. simpl. now rewrite !app_nil_r.
Qed.

(** X4.  [extract_balance_sheet] passes on the exception of the provider.
    On a raw balance sheet with distinct column labels it returns its
    seven frames, each with its fixed list of columns and on the periods
    of the raw table in their order; [get_CompleteBalancesheet] puts them
    side by side: 21 columns in a fixed order, on the same periods. *)
Theorem balance_sheet_parts_are_normalized :
  forall balancesheet_T ticker,
    (forall e,
        balancesheet_T ticker = Raise e ->
        extract_balance_sheet balancesheet_T ticker = Raise e /\
        get_CompleteBalancesheet balancesheet_T ticker = Raise e) /\
    (forall raw,
        balancesheet_T ticker = Ok raw -> NoDup (columns raw) ->
        (exists bs,
            extract_balance_sheet balancesheet_T ticker = Ok bs /\
            map columns (parts bs) = balance_sheet_columns /\
            Forall (fun f => df_index f = df_index raw) (parts bs)) /\
        (exists df,
            get_CompleteBalancesheet balancesheet_T ticker = Ok df /\
            columns df = List.concat balance_sheet_columns /\
            df_index df = df_index raw)).
Proof.
  intros bsT ticker. split.
  - intros e He. unfold get_CompleteBalancesheet, extract_balance_sheet.
    rewrite He. auto.
  - intros raw Hraw Hnd.
    destruct (extract_balance_sheet_Ok bsT ticker raw Hraw Hnd)
      as (bs & Hbs & Hcols & Hidx).
    split; [eauto|].
    unfold get_CompleteBalancesheet. rewrite Hbs. simpl bind.
    exact (complete_balance_sheet_Ok bs _ Hcols Hidx).
Qed.

(** A raw balance sheet with two of the fields, newest period first. *)
Lemma balance_sheet_parts_are_normalized_witness :
  let raw := mkDF ["Total Assets"; "Stockholders Equity"]
                  [(mkDate 2023 12 31, [of_Z 500; of_Z 300]);
                   (mkDate 2022 12 31, [of_Z 480; of_Z 290])] in
  exists df,
    get_CompleteBalancesheet (fun _ => Ok raw) "X" = Ok df /\
    List.length (columns df) = 21%nat /\
    df_index df = [mkDate 2023 12 31; mkDate 2022 12 31].
Proof.
  intros raw.
  destruct (proj2 (balance_sheet_parts_are_normalized (fun _ => Ok raw) "X")
                  raw eq_refl) as (_ & df & Hdf & Hc & Hi).
  - simpl. repeat constructor; simpl; intuition discriminate.
  - exists df. split; [exact Hdf|]. split; [now rewrite Hc | exact Hi].
Defined.

(* ================================================================= *)
(** ** Revenue, and the periods of a quotient *)

(** X5.  [get_TotalRevenue] reads the column directly: when the income
    statement of the provider has no Total Revenue column it raises
    KeyError, and otherwise, the labels being distinct, it returns that
    column alone, with its values.  [get_Financial], on the same
    statement with distinct labels, does not raise for
    the missing column: the column is there, null in every period. *)
Theorem total_revenue_needs_its_column :
  forall financials_T ticker raw,
    financials_T ticker = Ok raw ->
    (~ In "Total Revenue" (columns raw) ->
     get_TotalRevenue financials_T ticker = Raise (KeyError "Total Revenue")) /\
    (NoDup (columns raw) -> In "Total Revenue" (columns raw) ->
     exists t,
       get_TotalRevenue financials_T ticker = Ok t /\
       columns t = ["Total Revenue"] /\
       df_get t "Total Revenue" = df_get raw "Total Revenue") /\
    (NoDup (columns raw) -> ~ In "Total Revenue" (columns raw) ->
     exists t,
       get_Financial financials_T ticker = Ok t /\
       df_get t "Total Revenue"
       = Some (map (fun d => (d, NaN)) (df_index raw))).
Proof.
  intros finT ticker raw Hraw. split; [|split].
  - intros Hnot. unfold get_TotalRevenue, getitem, df_get.
    rewrite Hraw. simpl bind.
    apply position_None in Hnot. now rewrite Hnot.
  - intros _ Hin. unfold get_TotalRevenue, getitem. rewrite Hraw. simpl bind.
    destruct (df_get raw "Total Revenue") as [s|] eqn:E.
    + simpl. eexists. split; [reflexivity|]. split; [reflexivity|].
      apply df_get_frame_of_series.
    + exfalso. unfold df_get in E.
      destruct (position_In _ _ Hin) as [i Hi]. rewrite Hi in E. discriminate.
  - intros Hnd Hnot. unfold get_Financial. rewrite Hraw. simpl bind.
    destruct (select_columns_spec raw financialcolumns Hnd)
      as (t & Ht & _ & _ & _ & Habsent & _).
    exists t. split; [exact Ht|]. apply Habsent; [|exact Hnot].
    simpl. auto.
Qed.

(** The income statement of a ticker the provider has nothing for. *)
Lemma total_revenue_needs_its_column_witness :
  get_TotalRevenue (fun _ => Ok empty_frame) "X"
  = Raise (KeyError "Total Revenue") /\
  exists t,
    get_Financial (fun _ => Ok empty_frame) "X" = Ok t /\
    df_get t "Total Revenue" = Some [].
Proof.
  destruct (total_revenue_needs_its_column
              (fun _ => Ok empty_frame) "X" empty_frame eq_refl)
    as (Hraise & _ & Hfin).
  split.
  - apply Hraise. simpl. tauto.
  - apply Hfin; [constructor | simpl; tauto].
Defined.

Lemma date_lt_spec a b :
  date_compare a b = Lt <->
  year a < year b \/
  (year a = year b /\
   (month a < month b \/ (month a = month b /\ day a < day b))).
Proof.
  unfold date_compare.
  destruct (Z.compare_spec (year a) (year b));
    destruct (Z.compare_spec (month a) (month b));
    destruct (Z.compare_spec (day a) (day b));
    split; intros; try reflexivity; try discriminate; lia.
Qed.

Lemma date_gt_lt a b : date_compare a b = Gt -> date_compare b a = Lt.
Proof.
  intros H. apply date_lt_spec.
  destruct (date_compare b a) eqn:E.
  - apply date_compare_eq in E. subst.
    assert (date_compare a a = Eq) by now apply date_compare_eq. congruence.
  - now apply date_lt_spec.
  - exfalso. revert H E. unfold date_compare.
    destruct (Z.compare_spec (year a) (year b));
      destruct (Z.compare_spec (month a) (month b));
      destruct (Z.compare_spec (day a) (day b));
      destruct (Z.compare_spec (year b) (year a));
      destruct (Z.compare_spec (month b) (month a));
      destruct (Z.compare_spec (day b) (day a));
      intros; try discriminate; lia.
Qed.

Lemma insert_date_In d e l : In d (insert_date e l) <-> d = e \/ In d l.
Proof.
  induction l as [|x l IH]; simpl; [intuition|].
  destruct (date_compare e x) eqn:E; simpl.
  - apply date_compare_eq in E. subst. intuition.
  - intuition.
  - rewrite IH. intuition.
Qed.

Lemma insert_date_sorted e l :
  StronglySorted (fun x y => date_compare x y = Lt) l ->
  StronglySorted (fun x y => date_compare x y = Lt) (insert_date e l).
Proof.
  induction l as [|x l IH]; simpl; intros Hs.
  - repeat constructor.
  - inversion Hs as [|? ? Hs' Hall]; subst.
    destruct (date_compare e x) eqn:E.
    + exact Hs.
    + constructor; [exact Hs|]. constructor; [exact E|].
      eapply Forall_impl; [|exact Hall].
      intros y Hy. simpl in Hy. rewrite date_lt_spec in *. lia.
    + constructor; [now apply IH|].
      apply Forall_forall. intros y Hy.
      apply insert_date_In in Hy as [->|Hy].
      * now apply date_gt_lt.
      * rewrite Forall_forall in Hall. now apply Hall.
Qed.

Lemma union_index_In a b d :
  In d (union_index a b) <-> In d a \/ In d b.
Proof.
  unfold union_index. rewrite <- in_app_iff.
  induction (a ++ b) as [|x l IH]; simpl; [tauto|].
  rewrite insert_date_In, IH. intuition.
Qed.

Lemma union_index_sorted a b :
  StronglySorted (fun x y => date_compare x y = Lt) (union_index a b).
Proof.
  unfold union_index.
  induction (a ++ b) as [|x l IH]; simpl; [constructor|].
  now apply insert_date_sorted.
Qed.

Lemma strictly_sorted_NoDup l :
  StronglySorted (fun x y => date_compare x y = Lt) l -> NoDup l.
Proof.
  induction 1 as [|x l Hs IH Hall]; constructor; auto.
  intros Hin. rewrite Forall_forall in Hall. specialize (Hall x Hin).
  assert (date_compare x x = Eq) by now apply date_compare_eq. congruence.
Qed.

Lemma series_div_index_same a b :
  map fst a = map fst b -> map fst (series_div a b) = map fst a.
Proof.
  intros E. unfold series_div. rewrite (proj2 (dates_eqb_eq _ _) E).
  rewrite map_map. simpl. now apply combine_same_fst.
Qed.

Lemma series_div_index_diff a b :
  map fst a <> map fst b ->
  map fst (series_div a b) = union_index (map fst a) (map fst b).
Proof.
  intros E. unfold series_div.
  destruct (dates_eqb (map fst a) (map fst b)) eqn:Eb.
  - apply dates_eqb_eq in Eb. contradiction.
  - rewrite map_map. simpl. apply map_id.
Qed.

(** X7.  The quotient of two Series, each with distinct periods, has
    exactly the periods of its two operands.  Operands on the same periods
    give a quotient on these periods in their order; otherwise each
    period comes once, in ascending order. *)
Theorem quotient_periods :
  forall a b : Series,
    NoDup (map fst a) -> NoDup (map fst b) ->
    (forall d,
        In d (map fst (series_div a b)) <->
        In d (map fst a) \/ In d (map fst b)) /\
    (map fst a = map fst b -> map fst (series_div a b) = map fst a) /\
    (map fst a <> map fst b ->
     StronglySorted (fun x y => date_compare x y = Lt)
                    (map fst (series_div a b)) /\
     NoDup (map fst (series_div a b))).
Proof.
  intros a b _ _. split; [|split].
  - intros d.
    destruct (list_eq_dec
                (fun x y => match Bool.bool_dec (date_eqb x y) true with
                            | left e => left (proj1 (date_eqb_eq x y) e)
                            | right n =>
                                right (fun e => n (proj2 (date_eqb_eq x y) e))
                            end)
                (map fst a) (map fst b)) as [E|E].
    + rewrite (series_div_index_same a b E), <- E. tauto.
    + rewrite (series_div_index_diff a b E). apply union_index_In.
  - apply series_div_index_same.
  - intros E. rewrite (series_div_index_diff a b E).
    split; [apply union_index_sorted|].
    apply strictly_sorted_NoDup, union_index_sorted.
Qed.

(** Revenue for 2022 and 2023, total assets for 2023 and 2021. *)
Lemma quotient_periods_witness :
  let revenue := [(mkDate 2023 12 31, of_Z 1000); (mkDate 2022 12 31, of_Z 900)] in
  let assets := [(mkDate 2023 12 31, of_Z 500); (mkDate 2021 12 31, of_Z 450)] in
  NoDup (map fst (series_div revenue assets)) /\
  series_div revenue assets
  = [(mkDate 2021 12 31, NaN); (mkDate 2022 12 31, NaN);
     (mkDate 2023 12 31, of_Z 2)].
Proof.
  intros revenue assets. split; [|reflexivity].
  assert (Ha : NoDup (map fst revenue))
    by (simpl; repeat constructor; simpl; intuition discriminate).
  assert (Hb : NoDup (map fst assets))
    by (simpl; repeat constructor; simpl; intuition discriminate).
  apply (proj2 (proj2 (quotient_periods revenue assets Ha Hb))).
  discriminate.
Defined.

(* ================================================================= *)
(** ** The periods of the three statements in the batch of ratios *)

Lemma reindex_index df cols t :
  reindex df cols = Ok t -> df_index t = df_index df.
Proof.
  unfold reindex.
  destruct (cols_eqb (columns df) cols); [now intros [= <-]|].
  destruct (has_dup (columns df)); [discriminate|].
  intros [= <-]. unfold df_index; simpl. now rewrite map_map.
Qed.

Lemma rows_length_index df : List.length (rows df) = List.length (df_index df).
Proof. unfold df_index. now rewrite length_map. Qed.

Lemma getitem_index df c s : getitem df c = Ok s -> map fst s = df_index df.
Proof.
  unfold getitem. destruct (df_get df c) eqn:E; [|discriminate].
  intros [= <-]. now apply df_get_index in E.
Qed.

Lemma ratio_frame_index name a num b den df :
  ratio_frame name a num b den = Ok df ->
  (df_index a = df_index b -> df_index df = df_index a) /\
  (df_index a <> df_index b ->
   df_index df = union_index (df_index a) (df_index b)).
Proof.
  unfold ratio_frame. intros H.
  apply bind_Ok in H as (x & Hx & H). apply bind_Ok in H as (y & Hy & H).
  injection H as <-. rewrite df_index_frame_of_series.
  apply getitem_index in Hx, Hy. rewrite <- Hx, <- Hy. split.
  - apply series_div_index_same.
  - apply series_div_index_diff.
Qed.

Lemma ratio_frame_Ok name a num b den :
  In num (columns a) -> In den (columns b) ->
  exists df, ratio_frame name a num b den = Ok df.
Proof.
  intros Ha Hb. unfold ratio_frame, getitem, df_get.
  destruct (position_In _ _ Ha) as [i ->].
  destruct (position_In _ _ Hb) as [j ->]. simpl. eauto.
Qed.

Lemma set_company_succeeds df t n :
  List.length (rows df) = n ->
  exists cf, set_company df (repeat t n) = Ok cf.
Proof.
  intros <-. unfold set_company. rewrite repeat_length, Nat.eqb_refl. eauto.
Qed.

Lemma set_company_fails df t n :
  List.length (rows df) <> n ->
  set_company df (repeat t n)
  = Raise (ValueError "Length of values does not match length of index").
Proof.
  intros H. unfold set_company. rewrite repeat_length.
  destruct (n =? List.length (rows df))%nat eqn:E; [|reflexivity].
  apply Nat.eqb_eq in E. congruence.
Qed.

Lemma union_index_longer a b p :
  NoDup b -> In p a -> ~ In p b ->
  (List.length b < List.length (union_index a b))%nat.
Proof.
  intros Hnd Hp Hnot.
  assert (H : (List.length (p :: b) <= List.length (union_index a b))%nat).
  { apply NoDup_incl_length; [now constructor|].
    intros d [<-|Hd]; apply union_index_In; auto. }
  simpl in H. lia.
Qed.

Lemma extract_balance_sheet_index balancesheet_T t bs raw :
  extract_balance_sheet balancesheet_T t = Ok bs ->
  balancesheet_T t = Ok raw ->
  df_index (current_Assets bs) = df_index raw /\
  df_index (current_Liabilities bs) = df_index raw.
Proof.
  unfold extract_balance_sheet. intros H Hraw.
  rewrite Hraw in H. simpl bind in H.
  apply bind_Ok in H as ([[ca nca] ta] & Ha & H).
  apply bind_Ok in H as ([[cl ncl] tl] & Hl & H).
  apply bind_Ok in H as (eq & He & H). injection H as <-. simpl.
  unfold get_Assets in Ha. apply bind_Ok in Ha as (x & Hx & Ha).
  do 2 (apply bind_Ok in Ha as (? & _ & Ha)). injection Ha as <- _ _.
  unfold get_Liabilities in Hl. apply bind_Ok in Hl as (y & Hy & Hl).
  do 2 (apply bind_Ok in Hl as (? & _ & Hl)). injection Hl as <- _ _.
  split; eapply reindex_index; eassumption.
Qed.

Lemma ratios_of_ticker_rows bsT finT cfT t r raw :
  ratios_of_ticker bsT finT cfT t = Ok r ->
  bsT t = Ok raw ->
  Forall (fun f => List.length (cf_rows f) = List.length (rows raw))
         (tables r).
Proof.
  intros Hr Hraw.
  destruct (ratios_of_ticker_Ok bsT finT cfT t r Hr)
    as (_ & _ & bs & cr & Hbs & Hcr & Hlen).
  destruct (extract_balance_sheet_index bsT t bs raw Hbs Hraw) as [Ia Il].
  apply ratio_frame_index in Hcr as [Hsame _].
  assert (E : List.length (rows cr) = List.length (rows raw)).
  { rewrite !rows_length_index, Hsame by congruence. now rewrite Ia. }
  now rewrite E in Hlen.
Qed.

Lemma mismatched_periods_raise bsT finT cfT t rb rf rc p :
  bsT t = Ok rb -> finT t = Ok rf -> cfT t = Ok rc ->
  NoDup (columns rb) -> NoDup (columns rf) -> NoDup (columns rc) ->
  In "Total Revenue" (columns rf) ->
  NoDup (df_index rb) ->
  In p (df_index rf) -> ~ In p (df_index rb) ->
  ratios_of_ticker bsT finT cfT t
  = Raise (ValueError "Length of values does not match length of index").
Proof.
  intros Hrb Hrf Hrc Nb Nf Nc Hrev Nidx Hp Hnp.
  destruct (extract_balance_sheet_Ok bsT t rb Hrb Nb)
    as (bs & Hbs & Hcols & Hidx).
  unfold parts in Hcols, Hidx. injection Hcols as C0 C1 C2 C3 C4 C5 C6.
  inversion Hidx as [|? ? I0 Hidx1]; subst.
  inversion Hidx1 as [|? ? I1 Hidx2]; subst.
  inversion Hidx2 as [|? ? I2 Hidx3]; subst.
  inversion Hidx3 as [|? ? I3 Hidx4]; subst.
  inversion Hidx4 as [|? ? I4 Hidx5]; subst.
  inversion Hidx5 as [|? ? I5 Hidx6]; subst.
  inversion Hidx6 as [|? ? I6 _]; subst.
  assert (Htr : exists tr,
             get_TotalRevenue finT t = Ok tr /\
             columns tr = ["Total Revenue"] /\ df_index tr = df_index rf).
  { unfold get_TotalRevenue, getitem. rewrite Hrf. simpl bind.
    destruct (df_get rf "Total Revenue") as [s|] eqn:E.
    - simpl. eexists. split; [reflexivity|]. split; [reflexivity|].
      rewrite df_index_frame_of_series. now apply df_get_index in E.
    - unfold df_get in E. destruct (position_In _ _ Hrev) as [i Hi].
      rewrite Hi in E. discriminate. }
  destruct Htr as (tr & Htr & Ctr & Itr).
  destruct (select_columns_Ok rf financialcolumns Nf) as (fin & Hfin & Cfin & Ifin).
  destruct (select_columns_Ok rc cashflowcolumns Nc) as (cash & Hcash & Ccash & Icash).
  unfold ratios_of_ticker.
  rewrite Hbs; simpl bind. rewrite Htr; simpl bind.
  unfold get_Financial. rewrite Hrf; simpl bind. rewrite Hfin; simpl bind.
  unfold get_CashFLow. rewrite Hrc; simpl bind. rewrite Hcash; simpl bind.
  unfold get_CurrentRatio, get_DebttoEquityRatio, get_EquityMultiplierRatio,
    get_DebttoAssetsRatio, get_AssetTurnoverRatio,
    get_CashFlowtoNetIncomeRatio, get_OperatingCashFlowRatio.
  repeat match goal with
         | |- context [ratio_frame ?n ?a ?num ?b ?den] =>
             let df := fresh "df" in
             let H := fresh "Hdf" in
             destruct (ratio_frame_Ok n a num b den) as [df H];
             [ first [rewrite C0 | rewrite C2 | rewrite C3 | rewrite C5
                     | rewrite C6 | rewrite Ctr | rewrite Cfin | rewrite Ccash];
               simpl; auto 30
             | first [rewrite C0 | rewrite C2 | rewrite C3 | rewrite C5
                     | rewrite C6 | rewrite Ctr | rewrite Cfin | rewrite Ccash];
               simpl; auto 30
             | rewrite H; simpl bind;
               apply ratio_frame_index in H ]
         end.
  cbv zeta.
  repeat match goal with
         | H : (df_index (_ bs) = df_index (_ bs) -> _) /\ _ |- _ =>
             let E := fresh "E" in
             destruct H as [E _];
             specialize (E ltac:(congruence))
         end.
  assert (Hn : List.length (rows df) = List.length (rows rb))
    by (rewrite !rows_length_index; congruence).
  rewrite Hn.
  repeat match goal with
         | E : df_index ?d = df_index (_ bs)
           |- context [set_company ?d (repeat t ?n)] =>
             let cf := fresh "cf" in
             let H := fresh "Hcf" in
             destruct (set_company_succeeds d t n) as [cf H];
             [ rewrite !rows_length_index; congruence
             | rewrite H; simpl bind ]
         end.
  match goal with
  | H : _ /\ (df_index tr <> df_index (total_Assets bs) -> _) |- _ =>
      destruct H as [_ Hdiff]
  end.
  rewrite set_company_fails; [reflexivity|].
  rewrite !rows_length_index, Hdiff.
  - rewrite Itr, I2.
    pose proof (union_index_longer (df_index rf) (df_index rb) p Nidx Hp Hnp).
    lia.
  - rewrite Itr, I2. intros Hsame. apply Hnp. now rewrite <- Hsame.
Qed.

(** X6.  The Company column of all seven ratio frames of a ticker is
    given the length of its Current Ratio frame, which has the periods
    of the balance sheet.  So when the seven frames are returned, each
    has as many rows as the balance sheet has periods; and when the
    income statement has a period that the balance sheet, with distinct
    periods, has not, the Asset Turnover frame is longer than that and
    the assignment raises ValueError. *)
Theorem ratio_frames_take_the_balance_sheet_periods :
  forall balancesheet_T financials_T cashflow_T ticker rb,
    balancesheet_T ticker = Ok rb ->
    (forall r,
        ratios_of_ticker balancesheet_T financials_T cashflow_T ticker = Ok r ->
        Forall (fun f => List.length (cf_rows f) = List.length (rows rb))
               (tables r)) /\
    (forall rf rc p,
        financials_T ticker = Ok rf -> cashflow_T ticker = Ok rc ->
        NoDup (columns rb) -> NoDup (columns rf) -> NoDup (columns rc) ->
        In "Total Revenue" (columns rf) ->
        NoDup (df_index rb) ->
        In p (df_index rf) -> ~ In p (df_index rb) ->
        ratios_of_ticker balancesheet_T financials_T cashflow_T ticker
        = Raise (ValueError "Length of values does not match length of index")).
Proof.
  intros bsT finT cfT ticker rb Hrb. split.
  - intros r Hr. exact (ratios_of_ticker_rows bsT finT cfT ticker r rb Hr Hrb).
  - intros rf rc p Hrf Hrc. now apply mismatched_periods_raise.
Qed.

(** The example statements, and the income statement with the year 2021
    that the balance sheet has not. *)
Lemma ratio_frames_take_the_balance_sheet_periods_witness :
  let rf := mkDF (columns ex_fs)
                 (rows ex_fs ++
                  [(mkDate 2021 12 31, [of_Z 800; of_Z 240; of_Z 400; of_Z 80])]) in
  ratios_of_ticker (fun _ => Ok ex_bs) (fun _ => Ok rf) (fun _ => Ok ex_cf) "X"
  = Raise (ValueError "Length of values does not match length of index") /\
  forall r,
    ratios_of_ticker (fun _ => Ok ex_bs) (fun _ => Ok ex_fs)
                     (fun _ => Ok ex_cf) "X" = Ok r ->
    Forall (fun f => List.length (cf_rows f) = 2%nat) (tables r).
Proof.
  intros rf. split.
  - apply (proj2 (ratio_frames_take_the_balance_sheet_periods
                    (fun _ => Ok ex_bs) (fun _ => Ok rf) (fun _ => Ok ex_cf)
                    "X" ex_bs eq_refl)
                 rf ex_cf (mkDate 2021 12 31) eq_refl eq_refl).
    + simpl. repeat constructor; simpl; intuition discriminate.
    + simpl. repeat constructor; simpl; intuition discriminate.
    + simpl. repeat constructor; simpl; intuition discriminate.
    + simpl. tauto.
    + simpl. repeat constructor; simpl; intuition discriminate.
    + simpl. tauto.
    + simpl. intuition discriminate.
  - exact (proj1 (ratio_frames_take_the_balance_sheet_periods
                    (fun _ => Ok ex_bs) (fun _ => Ok ex_fs) (fun _ => Ok ex_cf)
                    "X" ex_bs eq_refl)).
Defined.

(* ================================================================= *)
(** ** The last years of a statement *)

Section LastYears.
Context {A : Type}.

Lemma tail_n_length n (l : list A) :
  List.length (tail_n n l) = Nat.min n (List.length l).
Proof. unfold tail_n. rewrite length_skipn. lia. Qed.

Lemma tail_n_split n (l : list A) :
  l = firstn (List.length l - n) l ++ tail_n n l.
Proof. unfold tail_n. symmetry. apply firstn_skipn. Qed.

Lemma StronglySorted_app (R : A -> A -> Prop) (a b : list A) :
  StronglySorted R (a ++ b) ->
  StronglySorted R b /\ forall x y, In x a -> In y b -> R x y.
Proof.
  induction a as [|e a IH]; simpl; intros H.
  - split; [exact H | intros x y []].
  - apply StronglySorted_inv in H as [Hs Hall].
    destruct (IH Hs) as [Hb Hab]. split; [exact Hb|].
    intros x y [<-|Hx] Hy.
    + rewrite Forall_forall in Hall. apply Hall, in_or_app. now right.
    + now apply Hab.
Qed.

End LastYears.

Lemma last_n_years_spec df n :
  empty df = false ->
  columns (_last_n_years df n) = columns df /\
  List.length (rows (_last_n_years df n)) = Nat.min n (List.length (rows df)) /\
  StronglySorted by_date (rows (_last_n_years df n)) /\
  exists dropped,
    Permutation (rows df) (dropped ++ rows (_last_n_years df n)) /\
    forall x y, In x dropped -> In y (rows (_last_n_years df n)) ->
                by_date x y.
Proof.
  intros He. split; [apply columns_last_n_years|].
  unfold _last_n_years. rewrite He. simpl.
  pose proof (sort_by_date_sorted (rows df)) as Hs.
  pose proof (tail_n_split n (sort_by_date (rows df))) as Hsplit.
  rewrite Hsplit in Hs. apply StronglySorted_app in Hs as [Hkept Hle].
  split; [|split].
  - now rewrite tail_n_length, sort_by_date_length.
  - exact Hkept.
  - eexists. split; [|exact Hle].
    rewrite <- Hsplit. apply Permutation_sym, sort_by_date_perm.
Qed.

(** X8.  [_last_n_years], on a statement that is not empty and for a
    positive [n], keeps the columns and returns the [n] latest periods, or
    all of them when there are fewer, in ascending order of their dates:
    the rows it drops are not later than any row it keeps. *)
Theorem last_n_years_are_the_latest :
  forall df n,
    empty df = false -> (0 < n)%nat ->
    let kept := rows (_last_n_years df n) in
    columns (_last_n_years df n) = columns df /\
    List.length kept = Nat.min n (List.length (rows df)) /\
    StronglySorted by_date kept /\
    exists dropped,
      Permutation (rows df) (dropped ++ kept) /\
      forall x y, In x dropped -> In y kept -> by_date x y.
Proof. intros df n He _. exact (last_n_years_spec df n He). Qed.

(** The example balance sheet, newest period first, and its last year. *)
Lemma last_n_years_are_the_latest_witness :
  List.length (rows (_last_n_years ex_bs 1)) = 1%nat /\
  StronglySorted by_date (rows (_last_n_years ex_bs 1)).
Proof.
  destruct (last_n_years_are_the_latest ex_bs 1 eq_refl ltac:(lia))
    as (_ & Hlen & Hsorted & _).
  split; [exact Hlen | exact Hsorted].
Defined.

(* ================================================================= *)
(** ** When the scorer raises, and the shape of what it returns *)

Lemma df_get_absent df c : mem_col c (columns df) = false -> df_get df c = None.
Proof.
  unfold mem_col, df_get. now destruct (position c (columns df)).
Qed.

Lemma trend_checks_raises bs fs s :
  ~ trend_columns_present bs fs ->
  trend_checks (_last_n_years bs 3) (_last_n_years fs 3) s = Raise no_dropna.
Proof.
  intros Hnot. unfold trend_checks.
  repeat match goal with
         | |- context [_trend_pct (df_get (_last_n_years ?d 3) ?c)] =>
             let E := fresh "E" in
             destruct (mem_col c (columns d)) eqn:E;
             [ let r := fresh "r" in
               let Er := fresh "Er" in
               destruct (_trend_pct_returns (df_get (_last_n_years d 3) c))
                 as [r Er];
               [ apply df_get_present; now rewrite columns_last_n_years |];
               rewrite Er; simpl bind
             | rewrite (df_get_absent (_last_n_years d 3) c)
                 by (now rewrite columns_last_n_years);
               reflexivity ]
         end.
  exfalso. apply Hnot. unfold trend_columns_present. auto.
Qed.

Lemma score_latest_raises bs fs cf :
  ~ trend_columns_present bs fs -> score_latest bs fs cf = Raise no_dropna.
Proof.
  intros H. unfold score_latest. cbv zeta.
  now rewrite trend_checks_raises.
Qed.

Lemma rating_of_not_no_data sc : rating_of sc <> "No Data".
Proof.
  unfold rating_of.
  destruct (sc >=? 80); [discriminate|].
  destruct (sc >=? 60); [discriminate|].
  destruct (sc >=? 40); discriminate.
Qed.

Lemma score_latest_rating bs fs cf h :
  score_latest bs fs cf = Ok h ->
  score h = total_score (metric_scores h) /\ rating h = rating_of (score h).
Proof.
  unfold score_latest. cbv zeta. intros H. bind_inv H.
  injection H as <-. simpl. auto.
Qed.

Lemma not_empty_scores ticker b f c :
  empty b = false -> empty f = false -> empty c = false ->
  score_company_health ticker (Some b) (Some f) (Some c)
  = score_latest (sort_index b) (sort_index f) (sort_index c).
Proof.
  intros Hb Hf Hc. unfold score_company_health. simpl sorted_or_empty.
  cbv zeta. now rewrite !empty_sort_index, Hb, Hf, Hc.
Qed.

(** X9.  On three statements that are not empty, each with distinct
    labels, the scorer reads five columns for its trend checks.  When they are all there it returns an
    assessment, whose rating is not "No Data"; when one of them is absent
    from its statement it raises AttributeError, whatever the statements
    hold. *)
Theorem absent_trend_column_raises :
  forall ticker b f c,
    empty b = false -> empty f = false -> empty c = false ->
    NoDup (columns b) -> NoDup (columns f) -> NoDup (columns c) ->
    (trend_columns_present b f ->
     exists h,
       score_company_health ticker (Some b) (Some f) (Some c) = Ok h /\
       rating h <> "No Data") /\
    (~ trend_columns_present b f ->
     score_company_health ticker (Some b) (Some f) (Some c)
     = Raise (AttributeError "'float' object has no attribute 'dropna'")).
Proof.
  intros ticker b f c Hb Hf Hc _ _ _.
  rewrite (not_empty_scores ticker b f c Hb Hf Hc). split.
  - intros H.
    destruct (score_latest_returns (sort_index b) (sort_index f)
                                   (sort_index c) H) as [h Hh].
    exists h. split; [exact Hh|].
    apply score_latest_rating in Hh as [_ ->]. apply rating_of_not_no_data.
  - intros H. now apply score_latest_raises.
Qed.

(** The example statements; and a balance sheet of one column. *)
Lemma absent_trend_column_raises_witness :
  (exists h, score_company_health "X" (Some ex_bs) (Some ex_fs) (Some ex_cf)
             = Ok h /\ rating h <> "No Data") /\
  score_company_health "X"
    (Some (mkDF ["Current Assets"] [(mkDate 2023 12 31, [of_Z 150])]))
    (Some ex_fs) (Some ex_cf)
  = Raise (AttributeError "'float' object has no attribute 'dropna'").
Proof.
  assert (Nb : NoDup (columns ex_bs))
    by (simpl; repeat constructor; simpl; intuition discriminate).
  assert (Nf : NoDup (columns ex_fs))
    by (simpl; repeat constructor; simpl; intuition discriminate).
  assert (Nc : NoDup (columns ex_cf))
    by (simpl; repeat constructor; simpl; intuition discriminate).
  split.
  - apply (proj1 (absent_trend_column_raises "X" ex_bs ex_fs ex_cf
                    eq_refl eq_refl eq_refl Nb Nf Nc)).
    repeat split; reflexivity.
  - apply (proj2 (absent_trend_column_raises "X"
                    (mkDF ["Current Assets"] [(mkDate 2023 12 31, [of_Z 150])])
                    ex_fs ex_cf eq_refl eq_refl eq_refl
                    ltac:(simpl; repeat constructor; simpl; tauto) Nf Nc)).
    intros (H & _). discriminate H.
Defined.

Lemma keys_dict_set {V} k (v : V) d :
  keys (dict_set k v d)
  = if mem_col k (keys d) then keys d else keys d ++ [k].
Proof.
  unfold keys. induction d as [|[k' v'] d IH]; simpl; [reflexivity|].
  rewrite mem_col_cons.
  destruct (String.eqb_spec k k') as [->|Hne]; simpl; [reflexivity|].
  rewrite IH. now destruct (mem_col k (map fst d)).
Qed.

Lemma keys_dict_set_congr {V} k (v v' : V) d d' :
  keys d = keys d' -> keys (dict_set k v d) = keys (dict_set k v' d').
Proof. intros H. now rewrite !keys_dict_set, H. Qed.

Lemma same_keys_snap k v v' s t :
  same_keys s t -> same_keys (snap k v s) (snap k v' t).
Proof.
  intros [Hm Hs]. split; simpl; [exact Hm | now apply keys_dict_set_congr].
Qed.

Lemma same_keys_set k v v' s t :
  same_keys s t -> same_keys (set_metric k v s) (set_metric k v' t).
Proof.
  intros [Hm Hs]. split; simpl; [now apply keys_dict_set_congr | exact Hs].
Qed.

Lemma same_keys_flag_l m s t : same_keys s t -> same_keys (flag m s) t.
Proof. intros H; exact H. Qed.

Lemma same_keys_flag_r m s t : same_keys s t -> same_keys s (flag m t).
Proof. intros H; exact H. Qed.

Ltac same_keys_proof step :=
  intros a b a' b' s t H; unfold step; cbv zeta;
  repeat match goal with
         | |- context [match ?c with _ => _ end] => destruct c
         end;
  repeat first [ apply same_keys_flag_l | apply same_keys_flag_r ];
  apply same_keys_set; try apply same_keys_snap; exact H.

Lemma same_keys_liquidity a b a' b' s t :
  same_keys s t -> same_keys (liquidity a b s) (liquidity a' b' t).
Proof. revert a b a' b' s t. same_keys_proof liquidity. Qed.

Lemma same_keys_leverage a b a' b' s t :
  same_keys s t -> same_keys (leverage a b s) (leverage a' b' t).
Proof. revert a b a' b' s t. same_keys_proof leverage. Qed.

Lemma same_keys_solvency a b a' b' s t :
  same_keys s t -> same_keys (solvency a b s) (solvency a' b' t).
Proof. revert a b a' b' s t. same_keys_proof solvency. Qed.

Lemma same_keys_profitability a b a' b' s t :
  same_keys s t -> same_keys (profitability a b s) (profitability a' b' t).
Proof. revert a b a' b' s t. same_keys_proof profitability. Qed.

Lemma same_keys_unit_economics a b a' b' s t :
  same_keys s t -> same_keys (unit_economics a b s) (unit_economics a' b' t).
Proof. revert a b a' b' s t. same_keys_proof unit_economics. Qed.

Lemma same_keys_earnings_quality a b a' b' s t :
  same_keys s t ->
  same_keys (earnings_quality a b s) (earnings_quality a' b' t).
Proof. revert a b a' b' s t. same_keys_proof earnings_quality. Qed.

Lemma same_keys_free_cash_flow a b a' b' s t :
  same_keys s t -> same_keys (free_cash_flow a b s) (free_cash_flow a' b' t).
Proof. revert a b a' b' s t. same_keys_proof free_cash_flow. Qed.

Ltac flag_count_proof step :=
  intros a b s; unfold step; cbv zeta;
  repeat match goal with
         | |- context [match ?c with _ => _ end] => destruct c
         end;
  simpl; rewrite ?length_app; simpl; lia.

Lemma flag_count_liquidity a b s :
  (List.length (s_flags (liquidity a b s)) <= S (List.length (s_flags s)))%nat.
Proof. revert a b s. flag_count_proof liquidity. Qed.

Lemma flag_count_leverage a b s :
  (List.length (s_flags (leverage a b s)) <= S (List.length (s_flags s)))%nat.
Proof. revert a b s. flag_count_proof leverage. Qed.

Lemma flag_count_solvency a b s :
  (List.length (s_flags (solvency a b s)) <= S (List.length (s_flags s)))%nat.
Proof. revert a b s. flag_count_proof solvency. Qed.

Lemma flag_count_profitability a b s :
  (List.length (s_flags (profitability a b s))
   <= S (List.length (s_flags s)))%nat.
Proof. revert a b s. flag_count_proof profitability. Qed.

Lemma flag_count_unit_economics a b s :
  (List.length (s_flags (unit_economics a b s))
   <= S (List.length (s_flags s)))%nat.
Proof. revert a b s. flag_count_proof unit_economics. Qed.

Lemma flag_count_earnings_quality a b s :
  (List.length (s_flags (earnings_quality a b s))
   <= S (List.length (s_flags s)))%nat.
Proof. revert a b s. flag_count_proof earnings_quality. Qed.

Lemma flag_count_free_cash_flow a b s :
  (List.length (s_flags (free_cash_flow a b s))
   <= S (List.length (s_flags s)))%nat.
Proof. revert a b s. flag_count_proof free_cash_flow. Qed.

Lemma flag_count_deduct c pts msg st :
  (List.length (s_flags (snd (deduct c pts msg st)))
   <= S (List.length (s_flags (snd st))))%nat.
Proof.
  unfold deduct. destruct c; simpl; rewrite ?length_app; simpl; lia.
Qed.

Lemma flag_count_trend_checks bs3 fs3 s s' :
  trend_checks bs3 fs3 s = Ok s' ->
  (List.length (s_flags s') <= 5 + List.length (s_flags s))%nat.
Proof.
  unfold trend_checks. intros H.
  apply bind_Ok in H as (liab & _ & H).
  apply bind_Ok in H as (rev & _ & H).
  apply bind_Ok in H as (ni & _ & H).
  apply bind_Ok in H as (rec & _ & H).
  apply bind_Ok in H as (inv & _ & H).
  cbv zeta in H. injection H as <-. unfold deduct.
  destruct (some_gt liab (Fin (1 # 2))), (some_lt rev (of_Z 0)),
    (some_lt ni (of_Z 0)), (faster_than rec rev), (faster_than inv rev);
    simpl; rewrite ?length_app; simpl; lia.
Qed.

Lemma score_latest_shape bs fs cf h :
  score_latest bs fs cf = Ok h ->
  keys (metric_scores h) = metric_keys /\
  keys (snapshot h) = snapshot_keys /\
  (List.length (flags h) <= 12)%nat.
Proof.
  unfold score_latest. cbv zeta. intros H. bind_inv H.
  injection H as <-. simpl.
  match type of Ha with
  | trend_checks _ _ ?S = Ok _ =>
      eassert (Hk : same_keys S _);
      [ repeat first
          [ apply (same_keys_free_cash_flow _ _ None None)
          | apply (same_keys_earnings_quality _ _ None None)
          | apply (same_keys_unit_economics _ _ None None)
          | apply (same_keys_profitability _ _ None None)
          | apply (same_keys_solvency _ _ None None)
          | apply (same_keys_leverage _ _ None None)
          | apply (same_keys_liquidity _ _ None None)
          | apply (same_keys_snap _ _ None) ];
        split; reflexivity
      | assert (Hf : (List.length (s_flags S) <= 7)%nat) ]
  end.
  { repeat (eapply Nat.le_trans;
            [ first [ apply flag_count_free_cash_flow
                    | apply flag_count_earnings_quality
                    | apply flag_count_unit_economics
                    | apply flag_count_profitability
                    | apply flag_count_solvency
                    | apply flag_count_leverage
                    | apply flag_count_liquidity ] |];
            apply le_n_S).
    simpl. lia. }
  pose proof (flag_count_trend_checks _ _ _ _ Ha) as Hfl.
  apply trend_checks_Ok in Ha as (liab & rev & ni & rec & inv & fl & _ & ->).
  destruct Hk as [Hm Hs]. simpl in Hfl |- *.
  split; [|split].
  - rewrite keys_dict_set, Hm. reflexivity.
  - rewrite Hs. reflexivity.
  - lia.
Qed.

Lemma scorer_cases ticker bs fs cf h :
  score_company_health ticker bs fs cf = Ok h ->
  h = no_data \/
  score_latest (sorted_or_empty bs) (sorted_or_empty fs) (sorted_or_empty cf)
  = Ok h.
Proof.
  unfold score_company_health. cbv zeta.
  destruct (empty (sorted_or_empty bs) || empty (sorted_or_empty fs)
            || empty (sorted_or_empty cf)).
  - intros [= <-]. now left.
  - intros H. now right.
Qed.

(** X13.  An assessment the scorer returns, on statements with distinct
    labels, is the "No Data" one, or it was computed: then its metric scores have the eight keys of the
    metrics, in the order of the code, its snapshot has the thirteen
    fields and the six ratios, in that order, and it has at most twelve
    flags. *)
Theorem computed_assessment_shape :
  forall ticker bs fs cf h,
    distinct_labels bs -> distinct_labels fs -> distinct_labels cf ->
    score_company_health ticker bs fs cf = Ok h ->
    h = no_data \/
    (keys (metric_scores h) = metric_keys /\
     keys (snapshot h) = snapshot_keys /\
     (List.length (flags h) <= 12)%nat).
Proof.
  intros ticker bs fs cf h _ _ _ H.
  apply scorer_cases in H as [->|H]; [now left|].
  right. exact (score_latest_shape _ _ _ h H).
Qed.

(** The assessment of the example statements. *)
Lemma computed_assessment_shape_witness :
  exists h,
    score_company_health "X" (Some ex_bs) (Some ex_fs) (Some ex_cf) = Ok h /\
    List.length (metric_scores h) = 8%nat /\
    List.length (snapshot h) = 19%nat.
Proof.
  destruct (score_company_health "X" (Some ex_bs) (Some ex_fs) (Some ex_cf))
    as [h|e] eqn:E; [|vm_compute in E; discriminate E].
  exists h. split; [reflexivity|].
  assert (Nb : NoDup (columns ex_bs))
    by (simpl; repeat constructor; simpl; intuition discriminate).
  assert (Nf : NoDup (columns ex_fs))
    by (simpl; repeat constructor; simpl; intuition discriminate).
  assert (Nc : NoDup (columns ex_cf))
    by (simpl; repeat constructor; simpl; intuition discriminate).
  destruct (computed_assessment_shape
              "X" (Some ex_bs) (Some ex_fs) (Some ex_cf) h Nb Nf Nc E)
    as [->|(Hm & Hs & _)]; [vm_compute in E; discriminate E|].
  split.
  - apply (f_equal (@List.length string)) in Hm. unfold keys in Hm.
    rewrite length_map in Hm. exact Hm.
  - apply (f_equal (@List.length string)) in Hs. unfold keys in Hs.
    rewrite length_map in Hs. exact Hs.
Defined.

(* ================================================================= *)
(** ** The score and the rating *)

Lemma round_half_even_quarters (a : Z) :
  -2 <= 4 * round_half_even (a # 4) - a <= 2.
Proof.
  unfold round_half_even, Qfloor, Qcompare, Qminus, Qplus, Qopp, inject_Z.
  cbn [Qnum Qden].
  pose proof (Z.div_mod a 4 ltac:(lia)) as Hd.
  pose proof (Z.mod_pos_bound a 4 ltac:(lia)) as Hm.
  change (Z.pos 4) with 4.
  set (f := a / 4) in *.
  destruct (Z.compare_spec ((a * 1 + - f * 4) * 2) (1 * Z.pos (4 * 1)))
    as [E|E|E];
    try destruct (Z.even f); lia.
Qed.

Lemma total_score_of_eight (ms : dict Z) :
  List.length ms = 8%nat ->
  -2 <= 4 * total_score ms - 5 * sum_Z (dict_values ms) <= 2.
Proof.
  intros Hlen. unfold total_score.
  destruct ms as [|kv ms']; [discriminate|].
  set (d := kv :: ms') in *. rewrite Hlen.
  rewrite (round_half_even_compat _ ((5 * sum_Z (dict_values d)) # 4)).
  - apply round_half_even_quarters.
  - generalize (sum_Z (dict_values d)). intros t.
    change (inject_Z (10 * Z.of_nat 8)) with (80 # 1).
    unfold Qdiv. change (/ (80 # 1))%Q with (1 # 80).
    unfold Qeq, Qmult, inject_Z. cbn [Qnum Qden]. lia.
Qed.

Lemma rating_of_bands sc :
  (rating_of sc = "Strong" <-> 80 <= sc) /\
  (rating_of sc = "Okay" <-> 60 <= sc < 80) /\
  (rating_of sc = "Weak" <-> 40 <= sc < 60) /\
  (rating_of sc = "Risky" <-> sc < 40).
Proof.
  unfold rating_of.
  destruct (Z.geb_spec sc 80); [repeat split; try discriminate; lia|].
  destruct (Z.geb_spec sc 60); [repeat split; try discriminate; lia|].
  destruct (Z.geb_spec sc 40); repeat split; try discriminate; lia.
Qed.

Lemma computed_score ticker bs fs cf h :
  score_company_health ticker bs fs cf = Ok h ->
  (rating h = "No Data" <-> h = no_data) /\
  (h <> no_data ->
   -2 <= 4 * score h - 5 * sum_Z (dict_values (metric_scores h)) <= 2 /\
   rating h = rating_of (score h)).
Proof.
  intros H. apply scorer_cases in H as [->|H].
  - split; [tauto|]. intros Hne. contradiction.
  - pose proof (score_latest_shape _ _ _ h H) as (Hk & _ & _).
    pose proof (score_latest_rating _ _ _ h H) as [Hsc Hr].
    assert (Hnd : rating h <> "No Data")
      by (rewrite Hr; apply rating_of_not_no_data).
    split.
    + split; [contradiction|]. intros ->. now contradiction Hnd.
    + intros _. split; [|exact Hr].
      rewrite Hsc. apply total_score_of_eight.
      apply (f_equal (@List.length string)) in Hk. unfold keys in Hk.
      now rewrite length_map in Hk.
Qed.

(** X12.  Of an assessment the scorer returns, on statements with
    distinct labels, the rating is "No Data" only for the one of the
    early exit.  Otherwise the score is the sum of
    the eight metric scores, scaled by 100/80 and rounded to a nearest
    integer (the statement leaves open which way a half goes, which in
    floating point depends on the rounding of the quotient), and the
    rating is Strong from 80, Okay from 60, Weak from 40 and Risky
    below. *)
Theorem score_and_rating_of_an_assessment :
  forall ticker bs fs cf h,
    distinct_labels bs -> distinct_labels fs -> distinct_labels cf ->
    score_company_health ticker bs fs cf = Ok h ->
    (rating h = "No Data" <-> h = no_data) /\
    (h <> no_data ->
     -2 <= 4 * score h - 5 * sum_Z (dict_values (metric_scores h)) <= 2 /\
     (rating h = "Strong" <-> 80 <= score h) /\
     (rating h = "Okay" <-> 60 <= score h < 80) /\
     (rating h = "Weak" <-> 40 <= score h < 60) /\
     (rating h = "Risky" <-> score h < 40)).
Proof.
  intros ticker bs fs cf h _ _ _ H.
  destruct (computed_score ticker bs fs cf h H) as [Hnd Hc].
  split; [exact Hnd|].
  intros Hne. destruct (Hc Hne) as [Hs Hr].
  split; [exact Hs|]. rewrite Hr. apply rating_of_bands.
Qed.

(** The assessment of the example statements: eight tens, 100, Strong. *)
Lemma score_and_rating_of_an_assessment_witness :
  exists h,
    score_company_health "X" (Some ex_bs) (Some ex_fs) (Some ex_cf) = Ok h /\
    (rating h = "Strong" <-> 80 <= score h).
Proof.
  destruct (score_company_health "X" (Some ex_bs) (Some ex_fs) (Some ex_cf))
    as [h|e] eqn:E; [|vm_compute in E; discriminate E].
  exists h. split; [reflexivity|].
  assert (Nb : NoDup (columns ex_bs))
    by (simpl; repeat constructor; simpl; intuition discriminate).
  assert (Nf : NoDup (columns ex_fs))
    by (simpl; repeat constructor; simpl; intuition discriminate).
  assert (Nc : NoDup (columns ex_cf))
    by (simpl; repeat constructor; simpl; intuition discriminate).
  destruct (score_and_rating_of_an_assessment
              "X" (Some ex_bs) (Some ex_fs) (Some ex_cf) h Nb Nf Nc E)
    as (_ & Hc).
  assert (Hne : h <> no_data)
    by (intros ->; vm_compute in E; discriminate E).
  exact (proj1 (proj2 (Hc Hne))).
Defined.

(* ================================================================= *)
(** ** The health table of the dashboard *)

Lemma empty_no_rows df :
  columns df <> [] -> (empty df = true <-> df_index df = []).
Proof.
  unfold empty, df_index. intros Hc.
  destruct (columns df) as [|c cs]; [congruence|].
  destruct (rows df); simpl; split; congruence.
Qed.

Lemma index_no_rows df : df_index df = [] <-> rows df = [].
Proof.
  unfold df_index. destruct (rows df); simpl; split; congruence.
Qed.

Lemma build_health_Ok bsT finT cfT ticker rb rf rc :
  bsT ticker = Ok rb -> finT ticker = Ok rf -> cfT ticker = Ok rc ->
  NoDup (columns rb) -> NoDup (columns rf) -> NoDup (columns rc) ->
  exists h,
    _build_health_for_ticker bsT finT cfT ticker = Ok h /\
    (rating h = "No Data" <-> rows rb = [] \/ rows rf = [] \/ rows rc = []).
Proof.
  intros Hrb Hrf Hrc Nb Nf Nc.
  destruct (extract_balance_sheet_Ok bsT ticker rb Hrb Nb)
    as (bs & Hbs & Hcols & Hidx).
  destruct (complete_balance_sheet_Ok bs _ Hcols Hidx)
    as (b & Hb & Cb & Ib).
  destruct (select_columns_Ok rf financialcolumns Nf) as (f & Hf & Cf & If).
  destruct (select_columns_Ok rc cashflowcolumns Nc) as (c & Hc & Cc & Ic).
  unfold _build_health_for_ticker. rewrite Hbs. simpl bind.
  unfold concat_axis1, parts in Hb. cbn [fold_left] in Hb.
  injection Hb as Hb. rewrite Hb.
  unfold get_Financial. rewrite Hrf. simpl bind. rewrite Hf. simpl bind.
  unfold get_CashFLow. rewrite Hrc. simpl bind. rewrite Hc. simpl bind.
  assert (Eb : empty b = true <-> rows rb = []).
  { rewrite empty_no_rows, Ib by (rewrite Cb; discriminate).
    apply index_no_rows. }
  assert (Ef : empty f = true <-> rows rf = []).
  { rewrite empty_no_rows, If by (rewrite Cf; discriminate).
    apply index_no_rows. }
  assert (Ec : empty c = true <-> rows rc = []).
  { rewrite empty_no_rows, Ic by (rewrite Cc; discriminate).
    apply index_no_rows. }
  destruct (empty b) eqn:Xb;
    [exists no_data; split; [apply early_exit; simpl; auto | simpl; tauto]|].
  destruct (empty f) eqn:Xf;
    [exists no_data; split; [apply early_exit; simpl; auto | simpl; tauto]|].
  destruct (empty c) eqn:Xc;
    [exists no_data; split; [apply early_exit; simpl; auto | simpl; tauto]|].
  rewrite (not_empty_scores ticker b f c Xb Xf Xc).
  destruct (score_latest_returns (sort_index b) (sort_index f) (sort_index c))
    as [h Hh].
  { unfold trend_columns_present. simpl columns. rewrite Cb, Cf.
    repeat split; reflexivity. }
  exists h. split; [exact Hh|].
  apply score_latest_rating in Hh as [_ Hr].
  pose proof (rating_of_not_no_data (score h)) as Hnd. rewrite <- Hr in Hnd.
  split; [contradiction|].
  intros [H|[H|H]]; [apply Eb in H | apply Ef in H | apply Ec in H];
    discriminate.
Qed.

Lemma build_health_raises bsT finT cfT ticker e :
  bsT ticker = Raise e ->
  _build_health_for_ticker bsT finT cfT ticker = Raise e.
Proof.
  intros H. unfold _build_health_for_ticker, extract_balance_sheet.
  now rewrite H.
Qed.

(** X10.  [_build_health_for_ticker] hands the scorer the statements as
    the column selection leaves them, which have the columns of the trend
    checks whatever the provider returned.  So when the provider returns
    the three statements, each with distinct labels, the build returns an
    assessment; its rating is "No Data" exactly when one of the
    statements has no period.  An exception of the provider on the
    balance sheet is not caught here. *)
Theorem health_build_returns :
  forall balancesheet_T financials_T cashflow_T ticker,
    (forall e,
        balancesheet_T ticker = Raise e ->
        _build_health_for_ticker balancesheet_T financials_T cashflow_T ticker
        = Raise e) /\
    (forall rb rf rc,
        balancesheet_T ticker = Ok rb ->
        financials_T ticker = Ok rf ->
        cashflow_T ticker = Ok rc ->
        NoDup (columns rb) -> NoDup (columns rf) -> NoDup (columns rc) ->
        exists h,
          _build_health_for_ticker balancesheet_T financials_T cashflow_T
                                   ticker = Ok h /\
          (rating h = "No Data" <->
           rows rb = [] \/ rows rf = [] \/ rows rc = [])).
Proof.
  intros bsT finT cfT ticker. split.
  - intros e. apply build_health_raises.
  - intros rb rf rc. apply build_health_Ok.
Qed.

(** The example statements as the provider returns them. *)
Lemma health_build_returns_witness :
  exists h,
    _build_health_for_ticker (fun _ => Ok ex_bs) (fun _ => Ok ex_fs)
                             (fun _ => Ok ex_cf) "X" = Ok h /\
    rating h <> "No Data".
Proof.
  destruct (proj2 (health_build_returns
                     (fun _ => Ok ex_bs) (fun _ => Ok ex_fs)
                     (fun _ => Ok ex_cf) "X")
                  ex_bs ex_fs ex_cf eq_refl eq_refl eq_refl)
    as (h & Hh & Hr).
  - simpl. repeat constructor; simpl; intuition discriminate.
  - simpl. repeat constructor; simpl; intuition discriminate.
  - simpl. repeat constructor; simpl; intuition discriminate.
  - exists h. split; [exact Hh|].
    intros E. apply Hr in E. simpl in E. intuition discriminate.
Defined.

Lemma insert_score_perm r l : Permutation (insert_score r l) (r :: l).
Proof.
  induction l as [|e l IH]; simpl; [reflexivity|].
  match goal with |- context [if ?c then _ else _] => destruct c end;
    [|reflexivity].
  rewrite IH. apply perm_swap.
Qed.

Lemma sort_by_score_perm l : Permutation (sort_by_score l) l.
Proof.
  induction l as [|r l IH]; simpl; [reflexivity|].
  unfold sort_by_score in *. simpl. rewrite insert_score_perm.
  now constructor.
Qed.

Lemma score_desc_trans r e z :
  score_desc r e -> score_desc e z -> score_desc r z.
Proof.
  unfold score_desc.
  destruct (Score r), (Score e), (Score z); try tauto; lia.
Qed.

Lemma insert_score_sorted r l :
  StronglySorted score_desc l -> StronglySorted score_desc (insert_score r l).
Proof.
  induction 1 as [|e l Hs IH Hall]; simpl.
  - repeat constructor.
  - match goal with |- context [if ?c then _ else _] => destruct c eqn:E end.
    + constructor; [exact IH|].
      rewrite Forall_forall in *. intros z Hz.
      apply (Permutation_in _ (insert_score_perm r l)) in Hz as [<-|Hz].
      * unfold score_desc. destruct (Score e), (Score r); try discriminate;
          try exact I. apply Z.ltb_lt in E. lia.
      * now apply Hall.
    + assert (Hre : score_desc r e).
      { unfold score_desc. destruct (Score e), (Score r); try discriminate;
          try exact I. apply Z.ltb_ge in E. lia. }
      constructor; [now constructor|].
      constructor; [exact Hre|].
      eapply Forall_impl; [|exact Hall].
      intros z. now apply score_desc_trans.
Qed.

Lemma sort_by_score_sorted l : StronglySorted score_desc (sort_by_score l).
Proof.
  induction l as [|r l IH]; [constructor|].
  unfold sort_by_score in *. simpl. now apply insert_score_sorted.
Qed.

Lemma health_rows_company bsT finT cfT tickers :
  map Company (health_rows bsT finT cfT tickers) = tickers.
Proof.
  unfold health_rows. rewrite map_map.
  induction tickers as [|t l IH]; simpl; [reflexivity|].
  rewrite IH. now destruct (_build_health_for_ticker bsT finT cfT t).
Qed.

Lemma health_rows_In bsT finT cfT tickers t :
  In t tickers ->
  In (match _build_health_for_ticker bsT finT cfT t with
      | Ok h => mkRow t (Some (score h)) (rating h)
      | Raise _ => mkRow t None "No Data"
      end) (health_rows bsT finT cfT tickers).
Proof.
  intros H. unfold health_rows.
  apply (in_map (fun t => match _build_health_for_ticker bsT finT cfT t with
                          | Ok h => mkRow t (Some (score h)) (rating h)
                          | Raise _ => mkRow t None "No Data"
                          end) _ _ H).
Qed.

Lemma health_df_spec bsT finT cfT tickers :
  map Company (health_rows bsT finT cfT tickers) = tickers /\
  (forall t,
      In t tickers ->
      (forall e,
          _build_health_for_ticker bsT finT cfT t = Raise e ->
          In (mkRow t None "No Data") (health_df bsT finT cfT tickers)) /\
      (forall h,
          _build_health_for_ticker bsT finT cfT t = Ok h ->
          In (mkRow t (Some (score h)) (rating h))
             (health_df bsT finT cfT tickers))) /\
  Permutation (health_df bsT finT cfT tickers)
              (health_rows bsT finT cfT tickers) /\
  StronglySorted score_desc (health_df bsT finT cfT tickers).
Proof.
  split; [apply health_rows_company|]. split; [|split].
  - intros t Ht.
    pose proof (health_rows_In bsT finT cfT tickers t Ht) as Hin.
    apply (Permutation_in _ (Permutation_sym (sort_by_score_perm _))) in Hin.
    split; intros x Hx; rewrite Hx in Hin; exact Hin.
  - apply sort_by_score_perm.
  - apply sort_by_score_sorted.
Qed.

(** X11.  The health table of the dashboard has one row for each ticker
    of the list: the score and the rating of its assessment, or no score
    and the rating "No Data" when the build raised, which is caught for
    every ticker on its own.  The table shown is these rows by descending
    score, those without a score last. *)
Theorem health_table_rows :
  forall balancesheet_T financials_T cashflow_T tickers,
    let build := _build_health_for_ticker balancesheet_T financials_T
                                          cashflow_T in
    let table := health_df balancesheet_T financials_T cashflow_T tickers in
    map Company (health_rows balancesheet_T financials_T cashflow_T tickers)
    = tickers /\
    (forall t,
        In t tickers ->
        (forall e, build t = Raise e -> In (mkRow t None "No Data") table) /\
        (forall h, build t = Ok h ->
                   In (mkRow t (Some (score h)) (rating h)) table)) /\
    Permutation table
                (health_rows balancesheet_T financials_T cashflow_T tickers) /\
    StronglySorted score_desc table.
Proof. intros bsT finT cfT tickers. apply health_df_spec. Qed.

(** A ticker the provider fails for, before one it knows. *)
Lemma health_table_rows_witness :
  In (mkRow "BAD" None "No Data")
     (health_df (ex_provider ex_bs) (ex_provider ex_fs) (ex_provider ex_cf)
                ["BAD"; "GOOD"]).
Proof.
  destruct (health_table_rows
              (ex_provider ex_bs) (ex_provider ex_fs) (ex_provider ex_cf)
              ["BAD"; "GOOD"]) as (_ & Hrow & _).
  apply (proj1 (Hrow "BAD" ltac:(simpl; auto)) (ProviderError "BAD")).
  reflexivity.
Defined.

(* ================================================================= *)
(** ** The order of the periods *)

Lemma sort_index_perm a b :
  columns a = columns b ->
  Permutation (rows a) (rows b) ->
  NoDup (df_index a) ->
  sort_index a = sort_index b.
Proof.
  intros Hc Hp Hnd. unfold sort_index. rewrite Hc.
  f_equal. now apply sort_by_date_perm_eq.
Qed.

(** X14.  The scorer sorts each statement by period before it reads it.
    So two lists of statements with the same columns and the same rows,
    listed in any order, the periods of each statement being distinct,
    are scored alike: the same assessment, or the same exception. *)
Theorem scorer_ignores_the_order_of_periods :
  forall ticker b f c b' f' c',
    columns b = columns b' -> columns f = columns f' ->
    columns c = columns c' ->
    Permutation (rows b) (rows b') -> Permutation (rows f) (rows f') ->
    Permutation (rows c) (rows c') ->
    NoDup (df_index b) -> NoDup (df_index f) -> NoDup (df_index c) ->
    score_company_health ticker (Some b) (Some f) (Some c)
    = score_company_health ticker (Some b') (Some f') (Some c').
Proof.
  intros ticker b f c b' f' c' Cb Cf Cc Pb Pf Pc Nb Nf Nc.
  unfold score_company_health. simpl sorted_or_empty.
  now rewrite (sort_index_perm b b' Cb Pb Nb), (sort_index_perm f f' Cf Pf Nf),
    (sort_index_perm c c' Cc Pc Nc).
Qed.

(** The example statements, newest period first, and the balance sheet
    with its two periods the other way round. *)
Lemma scorer_ignores_the_order_of_periods_witness :
  score_company_health "X" (Some ex_bs) (Some ex_fs) (Some ex_cf)
  = score_company_health "X"
      (Some (mkDF (columns ex_bs) (rev (rows ex_bs)))) (Some ex_fs)
      (Some ex_cf).
Proof.
  apply (scorer_ignores_the_order_of_periods
           "X" ex_bs ex_fs ex_cf (mkDF (columns ex_bs) (rev (rows ex_bs)))
           ex_fs ex_cf eq_refl eq_refl eq_refl).
  - apply Permutation_rev.
  - apply Permutation_refl.
  - apply Permutation_refl.
  - simpl. repeat constructor; simpl; intuition discriminate.
  - simpl. repeat constructor; simpl; intuition discriminate.
  - simpl. repeat constructor; simpl; intuition discriminate.
Defined.

(* ================================================================= *)
(** ** The rankings of liquidity and of efficiency *)

Lemma groupby_mean_missing cols rs col :
  ~ In col cols -> groupby_mean cols rs col = Raise (KeyError col).
Proof.
  intros H. unfold groupby_mean. apply position_None in H. now rewrite H.
Qed.

Lemma ranking_by_spec df latest col i :
  position col (cf_columns df) = Some i ->
  is_latest latest (cf_rows df) ->
  exists t, ranking_by df col = Ok t /\ ranking_of (cf_rows df) latest i t.
Proof.
  intros Hi Hl. unfold ranking_by.
  destruct (ranking_of_groupby _ _ _ _ _ Hi Hl) as (g & Hg & Hr).
  rewrite Hg. simpl. eauto.
Qed.

Lemma ranking_by_missing df col :
  ~ In col (cf_columns df) -> ranking_by df col = Raise (KeyError col).
Proof.
  intros H. unfold ranking_by. now rewrite groupby_mean_missing.
Qed.

Lemma ranking_tables_spec df latest :
  is_latest latest (cf_rows df) ->
  (forall i j,
      position "Current Ratio" (cf_columns df) = Some i ->
      position "Operating Cash Flow Ratio" (cf_columns df) = Some j ->
      exists current operating,
        get_RankingTableLiquidity df = Ok (current, operating) /\
        ranking_of (cf_rows df) latest i current /\
        ranking_of (cf_rows df) latest j operating) /\
  (forall i j,
      position "Cash Flow to Income Ratio" (cf_columns df) = Some i ->
      position "Cash Flow to Income Ratio YoY Change" (cf_columns df)
      = Some j ->
      exists ratio change,
        get_RankingTableEfficiency df = Ok (ratio, change) /\
        ranking_of (cf_rows df) latest i ratio /\
        ranking_of (cf_rows df) latest j change) /\
  (~ In "Current Ratio" (cf_columns df) ->
   get_RankingTableLiquidity df = Raise (KeyError "Current Ratio")) /\
  (~ In "Cash Flow to Income Ratio" (cf_columns df) ->
   get_RankingTableEfficiency df
   = Raise (KeyError "Cash Flow to Income Ratio")).
Proof.
  intros Hl. split; [|split; [|split]].
  - intros i j Hi Hj.
    destruct (ranking_by_spec df latest _ i Hi Hl) as (a & Ha & Hra).
    destruct (ranking_by_spec df latest _ j Hj Hl) as (b & Hb & Hrb).
    exists a, b. unfold get_RankingTableLiquidity.
    rewrite Ha. simpl bind. rewrite Hb. simpl. auto.
  - intros i j Hi Hj.
    destruct (ranking_by_spec df latest _ i Hi Hl) as (a & Ha & Hra).
    destruct (ranking_by_spec df latest _ j Hj Hl) as (b & Hb & Hrb).
    exists a, b. unfold get_RankingTableEfficiency.
    rewrite Ha. simpl bind. rewrite Hb. simpl. auto.
  - intros H. unfold get_RankingTableLiquidity.
    now rewrite ranking_by_missing.
  - intros H. unfold get_RankingTableEfficiency.
    now rewrite ranking_by_missing.
Qed.

(** X15.  [get_RankingTableLiquidity] and [get_RankingTableEfficiency]
    rank as the ranking of profitability does: on a table with a latest
    period and distinct labels, each of their two tables has one row for
    every company of the window of the last two years, with the mean of
    its non-null values there, in descending order.  The second table of
    the efficiency ranking is made of the year-over-year change of the
    cash flow to income ratio.  A table without the first column makes
    them raise KeyError. *)
Theorem liquidity_and_efficiency_rankings :
  forall df latest,
    NoDup (cf_columns df) ->
    is_latest latest (cf_rows df) ->
    (forall i j,
        position "Current Ratio" (cf_columns df) = Some i ->
        position "Operating Cash Flow Ratio" (cf_columns df) = Some j ->
        exists current operating,
          get_RankingTableLiquidity df = Ok (current, operating) /\
          ranking_of (cf_rows df) latest i current /\
          ranking_of (cf_rows df) latest j operating) /\
    (forall i j,
        position "Cash Flow to Income Ratio" (cf_columns df) = Some i ->
        position "Cash Flow to Income Ratio YoY Change" (cf_columns df)
        = Some j ->
        exists ratio change,
          get_RankingTableEfficiency df = Ok (ratio, change) /\
          ranking_of (cf_rows df) latest i ratio /\
          ranking_of (cf_rows df) latest j change) /\
    (~ In "Current Ratio" (cf_columns df) ->
     get_RankingTableLiquidity df = Raise (KeyError "Current Ratio")) /\
    (~ In "Cash Flow to Income Ratio" (cf_columns df) ->
     get_RankingTableEfficiency df
     = Raise (KeyError "Cash Flow to Income Ratio")).
Proof. intros df latest _. apply ranking_tables_spec. Qed.

(** Two companies in 2023: A has the higher current ratio, B the higher
    operating cash flow ratio. *)
Lemma liquidity_and_efficiency_rankings_witness :
  let liquidity :=
    mkCF ["Current Ratio"; "Current Ratio YoY Change";
          "Operating Cash Flow Ratio"; "Operating Cash Flow Ratio YoY Change"]
         [(mkDate 2023 12 31, (Some "A", [of_Z 2; NaN; of_Z 1; NaN]));
          (mkDate 2023 12 31, (Some "B", [of_Z 1; NaN; of_Z 3; NaN]))] in
  get_RankingTableLiquidity liquidity
  = Ok ([("A", of_Z 2); ("B", of_Z 1)], [("B", of_Z 3); ("A", of_Z 1)]) /\
  get_RankingTableEfficiency liquidity
  = Raise (KeyError "Cash Flow to Income Ratio").
Proof.
  intros liquidity.
  assert (Hnd : NoDup (cf_columns liquidity))
    by (simpl; repeat constructor; simpl; intuition discriminate).
  assert (Hlatest : is_latest (mkDate 2023 12 31) (cf_rows liquidity)).
  { split.
    - simpl. auto.
    - intros r H. simpl in H.
      repeat (destruct H as [<-|H]; [reflexivity|]). contradiction. }
  destruct (liquidity_and_efficiency_rankings
              liquidity (mkDate 2023 12 31) Hnd Hlatest)
    as (Hliq & _ & _ & Heff).
  split.
  - destruct (Hliq 0%nat 2%nat eq_refl eq_refl) as (a & b & Hab & _).
    rewrite Hab. vm_compute in Hab. injection Hab as <- <-. reflexivity.
  - apply Heff. simpl. intuition discriminate.
Defined.

(* ================================================================= *)
(** ** The statements of several tickers *)

Section ForEach.
Context {A B : Type}.
Variable f : A -> result B.

Lemma for_each_raises before x after e acc :
  (forall t, In t before -> exists y, f t = Ok y) ->
  f x = Raise e ->
  for_each f (before ++ x :: after) acc = Raise e.
Proof.
  revert acc. induction before as [|t before IH]; intros acc Hb Hx; simpl.
  - now rewrite Hx.
  - destruct (Hb t (or_introl eq_refl)) as [y Hy]. rewrite Hy. simpl.
    apply IH; [|exact Hx]. intros u Hu. apply Hb. now right.
Qed.

Lemma for_each_Ok l ys acc :
  Forall2 (fun t y => f t = Ok y) l ys ->
  for_each f l acc = Ok (acc ++ ys).
Proof.
  intros H. revert acc.
  induction H as [|t y l ys Hy _ IH]; intros acc; simpl.
  - now rewrite app_nil_r.
  - rewrite Hy. simpl. rewrite IH, <- app_assoc. reflexivity.
Qed.

End ForEach.

Lemma combine_repeat {A} (t : string) (l : list A) :
  combine l (repeat t (List.length l)) = map (fun r => (r, t)) l.
Proof. induction l as [|r l IH]; simpl; [reflexivity|]. now rewrite IH. Qed.

Lemma with_company_Ok get t df :
  get t = Ok df ->
  with_company get t = Ok (mkCF (columns df) (tag_rows t df)).
Proof.
  intros H. unfold with_company, set_company, tag_rows. rewrite H. simpl bind.
  rewrite repeat_length, Nat.eqb_refl, combine_repeat, map_map.
  reflexivity.
Qed.

Lemma with_company_Raise get t e :
  get t = Raise e -> with_company get t = Raise e.
Proof. intros H. unfold with_company. now rewrite H. Qed.

Lemma stacks_spec get cols :
  (forall t df, get t = Ok df -> columns df = cols) ->
  stacks get cols
         (fun l => df_list <- for_each (with_company get) l [] ;;
                   concat df_list).
Proof.
  intros Hcols. split; [reflexivity|]. split.
  - intros before t after e Hb Ht.
    rewrite (for_each_raises (with_company get) before t after e); auto.
    + intros x Hx. destruct (Hb x Hx) as [df Hdf].
      rewrite (with_company_Ok get x df Hdf). eauto.
    + now apply with_company_Raise.
  - intros l dfs Hne Hall.
    set (ys := map (fun p => mkCF cols (tag_rows (fst p) (snd p)))
                   (combine l dfs)).
    assert (Hys : Forall2 (fun t y => with_company get t = Ok y) l ys).
    { subst ys. clear Hne.
      induction Hall as [|t df l dfs Hdf _ IH]; simpl; constructor; auto.
      simpl. rewrite (with_company_Ok get t df Hdf).
      now rewrite (Hcols t df Hdf). }
    rewrite (for_each_Ok (with_company get) l ys [] Hys). simpl bind.
    rewrite (concat_same_columns cols ys).
    + subst ys. now rewrite flat_map_map.
    + subst ys. destruct Hall; [congruence|discriminate].
    + subst ys. apply Forall_forall. intros y Hy.
      apply in_map_iff in Hy as (p & <- & _). reflexivity.
Qed.

Lemma reindex_columns df cols t : reindex df cols = Ok t -> columns t = cols.
Proof.
  unfold reindex.
  destruct (cols_eqb (columns df) cols) eqn:E.
  - intros [= <-]. now apply cols_eqb_eq.
  - destruct (has_dup (columns df)); [discriminate|].
    now intros [= <-].
Qed.

Lemma get_Financial_columns finT t df :
  get_Financial finT t = Ok df -> columns df = financialcolumns.
Proof.
  unfold get_Financial. intros H. bind_inv H.
  now apply reindex_columns in H.
Qed.

Lemma get_CashFLow_columns cfT t df :
  get_CashFLow cfT t = Ok df -> columns df = cashflowcolumns.
Proof.
  unfold get_CashFLow. intros H. bind_inv H.
  now apply reindex_columns in H.
Qed.

Lemma get_CompleteBalancesheet_columns bsT t df :
  get_CompleteBalancesheet bsT t = Ok df ->
  columns df = List.concat balance_sheet_columns.
Proof.
  unfold get_CompleteBalancesheet. intros H.
  apply bind_Ok in H as (bs & Hbs & H).
  unfold concat_axis1 in H. cbn [fold_left] in H. injection H as <-.
  rewrite !columns_hconcat.
  unfold extract_balance_sheet in Hbs.
  apply bind_Ok in Hbs as (raw & _ & Hbs).
  apply bind_Ok in Hbs as ([[ca nca] ta] & Ha & Hbs).
  apply bind_Ok in Hbs as ([[cl ncl] tl] & Hl & Hbs).
  apply bind_Ok in Hbs as (eq & He & Hbs). injection Hbs as <-. simpl.
  unfold get_Assets in Ha.
  apply bind_Ok in Ha as (x1 & H1 & Ha). apply bind_Ok in Ha as (x2 & H2 & Ha).
  apply bind_Ok in Ha as (x3 & H3 & Ha). injection Ha as <- <- <-.
  unfold get_Liabilities in Hl.
  apply bind_Ok in Hl as (y1 & H4 & Hl). apply bind_Ok in Hl as (y2 & H5 & Hl).
  apply bind_Ok in Hl as (y3 & H6 & Hl). injection Hl as <- <- <-.
  apply reindex_columns in H1, H2, H3, H4, H5, H6.
  rewrite H1, H2, H3, H4, H5, H6.
  destruct (get_Equity_spec raw) as (eq' & He' & Ceq & _).
  rewrite He in He'. injection He' as <-. rewrite Ceq. reflexivity.
Qed.

(** X16.  [get_MultipleFinancial], [get_MultipleCashFlow] and
    [get_MultipleBalanceSheet] stack the statements of the tickers, in the
    order of the list, under the fixed columns of the statement, every row
    with its ticker as Company: the assignment of the Company column never
    fails, the first exception of a ticker is not caught, and an empty
    list of tickers is refused with ValueError. *)
Theorem multiple_statements_are_stacked :
  forall balancesheet_T financials_T cashflow_T,
    stacks (get_Financial financials_T) financialcolumns
           (get_MultipleFinancial financials_T) /\
    stacks (get_CashFLow cashflow_T) cashflowcolumns
           (get_MultipleCashFlow cashflow_T) /\
    stacks (get_CompleteBalancesheet balancesheet_T)
           (List.concat balance_sheet_columns)
           (get_MultipleBalanceSheet balancesheet_T).
Proof.
  intros bsT finT cfT. split; [|split].
  - apply (stacks_spec (get_Financial finT)).
    apply get_Financial_columns.
  - apply (stacks_spec (get_CashFLow cfT)).
    apply get_CashFLow_columns.
  - apply (stacks_spec (get_CompleteBalancesheet bsT)).
    apply get_CompleteBalancesheet_columns.
Qed.

(** The cash flow statement of GOOD alone, and of GOOD and a ticker the
    provider fails for. *)
Lemma multiple_statements_are_stacked_witness :
  (exists out,
      get_MultipleCashFlow (ex_provider ex_cf) ["GOOD"] = Ok out /\
      cf_columns out = cashflowcolumns /\
      List.length (cf_rows out) = 2%nat) /\
  get_MultipleCashFlow (ex_provider ex_cf) ["GOOD"; "BAD"]
  = Raise (ProviderError "BAD").
Proof.
  destruct (multiple_statements_are_stacked
              (ex_provider ex_bs) (ex_provider ex_fs) (ex_provider ex_cf))
    as (_ & (_ & Hraise & Hok) & _).
  split.
  - destruct (get_CashFLow (ex_provider ex_cf) "GOOD") as [df|e] eqn:E;
      [|vm_compute in E; discriminate E].
    rewrite (Hok ["GOOD"] [df]); [|discriminate|repeat constructor; exact E].
    eexists. split; [reflexivity|]. split; [reflexivity|].
    vm_compute in E. injection E as <-. reflexivity.
  - apply (Hraise ["GOOD"] "BAD" []).
    + intros x [<-|[]]. eexists. reflexivity.
    + reflexivity.
Defined.

(* ================================================================= *)
(** ** The relative difference of the ratios *)

Lemma ratios_loop_inv bsT finT cfT l acc lists :
  ratios_loop bsT finT cfT l acc = Ok lists ->
  exists rs,
    Forall2 (fun t r => ratios_of_ticker bsT finT cfT t = Ok r) l rs /\
    lists = fold_left append_ratios rs acc.
Proof.
  revert acc. induction l as [|t l IH]; simpl; intros acc H.
  - injection H as <-. exists []. split; constructor.
  - apply bind_Ok in H as (r & Hr & H).
    destruct (IH _ H) as (rs & Hall & ->).
    exists (r :: rs). split; [constructor; auto | reflexivity].
Qed.

Lemma batch_inv bsT finT cfT l out :
  get_RatiosofMultipleCompanies bsT finT cfT l = Ok out ->
  l <> [] /\
  exists rs,
    Forall2 (fun t r => ratios_of_ticker bsT finT cfT t = Ok r) l rs /\
    map cf_columns (tables out) = map (fun n => [n]) ratio_names /\
    map cf_rows (tables out) = stacked_rows rs.
Proof.
  intros H.
  assert (Hne : l <> []).
  { intros ->. discriminate H. }
  split; [exact Hne|].
  pose proof H as H0. unfold get_RatiosofMultipleCompanies in H0.
  apply bind_Ok in H0 as (lists & Hloop & _).
  apply ratios_loop_inv in Hloop as (rs & Hall & _).
  destruct (batch_Ok bsT finT cfT l rs Hne Hall) as (out' & Hout & Hc & Hr).
  rewrite H in Hout. injection Hout as <-. eauto.
Qed.

Lemma relative_difference_Ok name df :
  cf_columns df = [name] ->
  exists t,
    relative_difference name df = Ok t /\
    cf_columns t = [name; "Year"; "Comparison Ratio"; "Relative_Difference"] /\
    map (fun r => (fst r, fst (snd r))) (cf_rows t)
    = map (fun r => (fst r, fst (snd r))) (cf_rows df).
Proof.
  intros Hc. unfold relative_difference. rewrite Hc. simpl position.
  rewrite String.eqb_refl. eexists. split; [reflexivity|]. simpl.
  split; [reflexivity|]. now rewrite map_map.
Qed.

Lemma relative_difference_of_batch bsT finT cfT l r :
  get_RatiosofMultipleCompanies bsT finT cfT l = Ok r ->
  exists out,
    get_RelativeDifferenceofRatio bsT finT cfT l = Ok out /\
    operating_cash_flow_ratio out = cash_flow_to_net_income_ratio out /\
    map cf_columns (tables out)
    = map (fun n => [n; "Year"; "Comparison Ratio"; "Relative_Difference"])
          (firstn 6 ratio_list ++ ["Cash Flow to Income Ratio"]) /\
    map (fun t => map (fun r => (fst r, fst (snd r))) (cf_rows t))
        (tables out)
    = map (fun t => map (fun r => (fst r, fst (snd r))) (cf_rows t))
          (firstn 6 (tables r) ++ [cash_flow_to_net_income_ratio r]).
Proof.
  intros Hr.
  destruct (batch_inv bsT finT cfT l r Hr) as (_ & rs & _ & Hc & _).
  unfold tables, ratio_names in Hc. simpl in Hc.
  injection Hc as C0 C1 C2 C3 C4 C5 C6.
  unfold get_RelativeDifferenceofRatio. rewrite Hr. simpl bind.
  destruct (relative_difference_Ok _ _ C0) as (n0 & H0 & D0 & R0).
  destruct (relative_difference_Ok _ _ C1) as (n1 & H1 & D1 & R1).
  destruct (relative_difference_Ok _ _ C2) as (n2 & H2 & D2 & R2).
  destruct (relative_difference_Ok _ _ C3) as (n3 & H3 & D3 & R3).
  destruct (relative_difference_Ok _ _ C4) as (n4 & H4 & D4 & R4).
  destruct (relative_difference_Ok _ _ C5) as (n5 & H5 & D5 & R5).
  destruct (relative_difference_Ok _ _ C6) as (n6 & H6 & D6 & R6).
  rewrite H0; simpl bind. rewrite H1; simpl bind. rewrite H2; simpl bind.
  rewrite H3; simpl bind. rewrite H4; simpl bind. rewrite H5; simpl bind.
  rewrite H6; simpl bind.
  eexists. split; [reflexivity|]. split; [reflexivity|].
  unfold tables. simpl.
  rewrite D0, D1, D2, D3, D4, D5, R0, R1, R2, R3, R4, R5. auto.
Qed.

Lemma relative_difference_raises bsT finT cfT l e :
  get_RatiosofMultipleCompanies bsT finT cfT l = Raise e ->
  get_RelativeDifferenceofRatio bsT finT cfT l = Raise e.
Proof.
  intros H. unfold get_RelativeDifferenceofRatio. now rewrite H.
Qed.

(** X17.  [get_RelativeDifferenceofRatio] raises what
    [get_RatiosofMultipleCompanies] raises, and nothing else: on the
    seven tables of the batch its loop does not fail.  Each table it
    returns keeps the periods and the companies of a table of the batch
    and has the ratio and the three columns Year, Comparison Ratio and
    Relative_Difference.  The seventh table returned is the sixth one,
    of the cash flow to income ratio, again: the relative difference of
    the operating cash flow ratio is computed and not returned. *)
Theorem relative_difference_tables :
  forall balancesheet_T financials_T cashflow_T listoftickers,
    (forall e,
        get_RatiosofMultipleCompanies balancesheet_T financials_T cashflow_T
                                      listoftickers = Raise e ->
        get_RelativeDifferenceofRatio balancesheet_T financials_T cashflow_T
                                      listoftickers = Raise e) /\
    (forall r,
        get_RatiosofMultipleCompanies balancesheet_T financials_T cashflow_T
                                      listoftickers = Ok r ->
        exists out,
          get_RelativeDifferenceofRatio balancesheet_T financials_T
                                        cashflow_T listoftickers = Ok out /\
          operating_cash_flow_ratio out = cash_flow_to_net_income_ratio out /\
          map cf_columns (tables out)
          = map (fun n => [n; "Year"; "Comparison Ratio";
                           "Relative_Difference"])
                (firstn 6 ratio_list ++ ["Cash Flow to Income Ratio"]) /\
          map (fun t => map (fun r => (fst r, fst (snd r))) (cf_rows t))
              (tables out)
          = map (fun t => map (fun r => (fst r, fst (snd r))) (cf_rows t))
                (firstn 6 (tables r) ++ [cash_flow_to_net_income_ratio r])).
Proof.
  intros bsT finT cfT l. split.
  - intros e. apply relative_difference_raises.
  - intros r. apply relative_difference_of_batch.
Qed.

(** The batch of GOOD alone, and of a ticker the provider fails for. *)
Lemma relative_difference_tables_witness :
  (exists out,
      get_RelativeDifferenceofRatio
        (ex_provider ex_bs) (ex_provider ex_fs) (ex_provider ex_cf) ["GOOD"]
      = Ok out /\
      cf_columns (operating_cash_flow_ratio out)
      = ["Cash Flow to Income Ratio"; "Year"; "Comparison Ratio";
         "Relative_Difference"]) /\
  get_RelativeDifferenceofRatio
    (ex_provider ex_bs) (ex_provider ex_fs) (ex_provider ex_cf) ["BAD"]
  = Raise (ProviderError "BAD").
Proof.
  split.
  - destruct (get_RatiosofMultipleCompanies
                (ex_provider ex_bs) (ex_provider ex_fs) (ex_provider ex_cf)
                ["GOOD"]) as [r|e] eqn:E; [|vm_compute in E; discriminate E].
    destruct (proj2 (relative_difference_tables
                       (ex_provider ex_bs) (ex_provider ex_fs)
                       (ex_provider ex_cf) ["GOOD"]) r E)
      as (out & Hout & _ & Hc & _).
    exists out. split; [exact Hout|].
    unfold tables in Hc. simpl in Hc. now injection Hc.
  - apply (proj1 (relative_difference_tables
                    (ex_provider ex_bs) (ex_provider ex_fs)
                    (ex_provider ex_cf) ["BAD"])).
    reflexivity.
Defined.






(* ================================================================= *)
(** ** The latest row of each ticker *)

Lemma is_company_spec t (r : date * (option string * list number)) :
  is_company t r = true <-> fst (snd r) = Some t.
Proof.
  unfold is_company. destruct (fst (snd r)) as [c|].
  - rewrite String.eqb_eq. split; congruence.
  - split; discriminate.
Qed.

Lemma filter_nil_existsb {A} (p : A -> bool) l :
  filter p l = [] <-> existsb p l = false.
Proof.
  induction l as [|x l IH]; simpl; [tauto|].
  destruct (p x); simpl; [|exact IH]. split; discriminate.
Qed.

Lemma snapshot_row_None df t cols :
  snapshot_row df t cols = None <-> existsb (is_company t) (cf_rows df) = false.
Proof.
  unfold snapshot_row. cbv zeta. rewrite <- filter_nil_existsb.
  destruct (sort_by_date (filter (is_company t) (cf_rows df))) eqn:E.
  - apply (proj1 (sort_by_date_nil _)) in E.
    split; [intros _; exact E | reflexivity].
  - split; [discriminate|]. intros H. rewrite H in E. discriminate.
Qed.

Lemma snapshot_row_Some df t cols r :
  snapshot_row df t cols = Some r ->
  exists d c cells,
    In (d, (c, cells)) (cf_rows df) /\ c = Some t /\
    (forall x, In x (cf_rows df) -> fst (snd x) = Some t ->
               date_leb (fst x) d = true) /\
    r = (t, map (row_get (cf_columns df) cells) cols).
Proof.
  unfold snapshot_row. cbv zeta.
  set (l := sort_by_date (filter (is_company t) (cf_rows df))).
  destruct l as [|e l'] eqn:E; [discriminate|].
  intros H.
  assert (Hr : r = (t, map (row_get (cf_columns df)
                              (snd (snd (List.last
                                           l (mkDate 0 0 0, (None, []))))))
                           cols)).
  { rewrite E. congruence. }
  clear H.
  assert (Hne : l <> []) by (rewrite E; discriminate).
  clear E e l'.
  pose proof (last_In (mkDate 0 0 0, (None, [])) l Hne) as Hin.
  destruct (List.last l (mkDate 0 0 0, (None, []))) as [d [c cells]] eqn:El.
  simpl in Hr.
  exists d, c, cells. subst l.
  apply (proj1 (sort_by_date_In _ _)) in Hin.
  apply (proj1 (filter_In _ _ _)) in Hin as [Hin Hc].
  apply (proj1 (is_company_spec _ _)) in Hc. simpl in Hc.
  split; [exact Hin|]. split; [exact Hc|]. split; [|exact Hr].
  intros x Hx Hxc.
  assert (Hxl : In x (sort_by_date (filter (is_company t) (cf_rows df)))).
  { apply sort_by_date_In, filter_In. split; [exact Hx|].
    now apply is_company_spec. }
  pose proof (last_sorted_latest _ (mkDate 0 0 0, (None, [])) x
                (sort_by_date_sorted _) Hxl) as Hle.
  rewrite El in Hle. exact Hle.
Qed.

Lemma latest_snapshot_spec df tickers cols :
  map fst (_latest_snapshot df tickers cols)
  = filter (fun t => existsb (is_company t) (cf_rows df)) tickers /\
  forall t vals,
    In (t, vals) (_latest_snapshot df tickers cols) ->
    In t tickers /\
    exists d cells,
      In (d, (Some t, cells)) (cf_rows df) /\
      (forall x, In x (cf_rows df) -> fst (snd x) = Some t ->
                 date_leb (fst x) d = true) /\
      vals = map (row_get (cf_columns df) cells) cols.
Proof.
  unfold _latest_snapshot. split.
  - induction tickers as [|t l IH]; simpl; [reflexivity|].
    rewrite map_app, IH.
    destruct (snapshot_row df t cols) as [r|] eqn:E.
    + destruct (existsb (is_company t) (cf_rows df)) eqn:X.
      * apply snapshot_row_Some in E as (d & c & cells & _ & _ & _ & ->).
        reflexivity.
      * apply (proj2 (snapshot_row_None df t cols)) in X.
        rewrite X in E. discriminate.
    + apply (proj1 (snapshot_row_None df t cols)) in E. now rewrite E.
  - intros t vals Hin. apply in_flat_map in Hin as (u & Hu & Hin).
    destruct (snapshot_row df u cols) as [r|] eqn:E; [|contradiction].
    destruct Hin as [->|[]].
    apply snapshot_row_Some in E as (d & c & cells & Hr & -> & Hmax & Heq).
    injection Heq as -> ->.
    split; [exact Hu|]. exists d, cells. auto.
Qed.

(** X19.  [_latest_snapshot] has a row for each ticker of the list that
    has rows in the table, in the order of the list, and none for the
    others.  The row of a ticker holds, for each of the labels asked for,
    the value of a row of that company of the latest period the company
    has, and None for a label the table has not. *)
Theorem latest_snapshot_rows :
  forall df tickers cols,
    NoDup (cf_columns df) -> ~ In "Company" cols ->
    map fst (_latest_snapshot df tickers cols)
    = filter (fun t => existsb (is_company t) (cf_rows df)) tickers /\
    (forall t vals,
        In (t, vals) (_latest_snapshot df tickers cols) ->
        In t tickers /\
        exists d cells,
          In (d, (Some t, cells)) (cf_rows df) /\
          (forall x, In x (cf_rows df) -> fst (snd x) = Some t ->
                     date_leb (fst x) d = true) /\
          vals = map (row_get (cf_columns df) cells) cols) /\
    (forall cells c,
        ~ In c (cf_columns df) -> row_get (cf_columns df) cells c = None).
Proof.
  intros df tickers cols _ _.
  destruct (latest_snapshot_spec df tickers cols) as [H1 H2].
  split; [exact H1|]. split; [exact H2|].
  intros cells c Hc. unfold row_get.
  apply position_None in Hc. now rewrite Hc.
Qed.

(** The three companies of the ranking example, a ticker that is not
    among them, and a label the table has not. *)
Lemma latest_snapshot_rows_witness :
  _latest_snapshot ex_three_companies ["B"; "Z"; "A"]
                   ["Gross Profit Margin"; "EBIT"]
  = [("B", [Some (of_Z 29); None]); ("A", [Some (of_Z 42); None])].
Proof.
  assert (Hnd : NoDup (cf_columns ex_three_companies))
    by (simpl; repeat constructor; simpl; intuition discriminate).
  assert (Hc : ~ In "Company" ["Gross Profit Margin"; "EBIT"])
    by (simpl; intuition discriminate).
  pose proof (proj1 (latest_snapshot_rows
                       ex_three_companies ["B"; "Z"; "A"]
                       ["Gross Profit Margin"; "EBIT"] Hnd Hc)) as Hfst.
  destruct (_latest_snapshot ex_three_companies ["B"; "Z"; "A"]
                             ["Gross Profit Margin"; "EBIT"]) eqn:E.
  - discriminate Hfst.
  - rewrite <- E. reflexivity.
Defined.

(* ================================================================= *)
(** ** The table of the profitability ratios *)

Section SortPeriods.
Context {A B : Type}.



Lemma combine_fst_length (l : list (date * A)) (s : list B) :
  List.length s = List.length l ->
  map (fun p => fst (fst p)) (combine l s) = map fst l.
Proof.
  revert s. induction l as [|r l IH]; intros [|x s]; simpl;
    try discriminate; [reflexivity|].
  intros [= H]. now rewrite IH.
Qed.

End SortPeriods.


Lemma with_yoy_spec pad name g :
  columns g = [name] ->
  exists t,
    with_yoy pad name g = Ok t /\
    columns t = [name; (name ++ " YoY Change")%string] /\
    df_index t = map fst (sort_by_date (rows g)).
Proof.
  intros Hc. unfold with_yoy, getitem, df_get. cbv zeta.
  simpl columns. rewrite Hc. simpl position. rewrite String.eqb_refl.
  simpl bind. eexists. split; [reflexivity|].
  unfold add_column. simpl columns. rewrite Hc.
  split; [reflexivity|].
  unfold df_index. simpl rows. rewrite map_map. simpl.
  apply combine_fst_length.
  unfold yoy_change, values.
  now rewrite length_map, pct_change_length, !length_map.
Qed.

Lemma set_company_own_length df t :
  set_company df (repeat t (List.length (rows df)))
  = Ok (mkCF (columns df) (tag_rows t df)).
Proof.
  unfold set_company, tag_rows.
  rewrite repeat_length, Nat.eqb_refl, combine_repeat, map_map.
  reflexivity.
Qed.









(* ================================================================= *)
(** ** The bands follow the ratio *)

Lemma fgeb_mono r r' c :
  (r <= r')%Q -> fgeb (Fin r) c = true -> fgeb (Fin r') c = true.
Proof.
  intros Hle. unfold fgeb, fcmp. destruct c as [| [] |q]; try discriminate;
    try (intros _; reflexivity).
  destruct (r ?= q)%Q eqn:E; try discriminate; intros _.
  - apply Qeq_alt in E.
    destruct (r' ?= q)%Q eqn:E'; try reflexivity.
    apply Qlt_alt in E'. exfalso. apply (Qlt_irrefl q).
    eapply Qle_lt_trans; [|exact E']. now rewrite <- E.
  - apply Qgt_alt in E.
    destruct (r' ?= q)%Q eqn:E'; try reflexivity.
    apply Qlt_alt in E'. exfalso. apply (Qlt_irrefl q).
    eapply Qlt_trans; [exact E|]. eapply Qle_lt_trans; eassumption.
Qed.

Lemma fleb_mono r r' c :
  (r <= r')%Q -> fleb (Fin r') c = true -> fleb (Fin r) c = true.
Proof.
  intros Hle. unfold fleb, fcmp. destruct c as [| [] |q]; try discriminate;
    try (intros _; reflexivity).
  destruct (r' ?= q)%Q eqn:E; try discriminate; intros _.
  - apply Qeq_alt in E.
    destruct (r ?= q)%Q eqn:E'; try reflexivity.
    apply Qgt_alt in E'. exfalso. apply (Qlt_irrefl q).
    eapply Qlt_le_trans; [exact E'|]. now rewrite <- E.
  - apply Qlt_alt in E.
    destruct (r ?= q)%Q eqn:E'; try reflexivity.
    apply Qgt_alt in E'. exfalso. apply (Qlt_irrefl q).
    eapply Qlt_trans; [exact E'|]. eapply Qle_lt_trans; eassumption.
Qed.

Ltac band_values :=
  repeat match goal with
         | |- context [if ?c then _ else _] => destruct c
         end;
  simpl s_metric_scores; rewrite ?dict_get_set;
  do 2 eexists; (split; [reflexivity|]); (split; [reflexivity|]); lia.

Ltac rises step :=
  intros a b a' b' s s' r r' H1 H2 Hle; unfold step; cbv zeta;
  rewrite H1, H2;
  repeat match goal with
         | |- context [fgeb (Fin r) ?c] =>
             let E := fresh "E" in
             destruct (fgeb (Fin r) c) eqn:E;
             [rewrite ?(fgeb_mono r r' c Hle E)|]
         end;
  band_values.

Ltac falls step :=
  intros a b a' b' s s' r r' H1 H2 Hle; unfold step; cbv zeta;
  rewrite H1, H2;
  repeat match goal with
         | |- context [fleb (Fin r') ?c] =>
             let E := fresh "E" in
             destruct (fleb (Fin r') c) eqn:E;
             [rewrite ?(fleb_mono r r' c Hle E)|]
         end;
  band_values.

Lemma liquidity_rises : rises_with_ratio liquidity "Liquidity (Current Ratio)".
Proof. rises liquidity. Qed.

Lemma profitability_rises :
  rises_with_ratio profitability "Profitability (Operating Margin)".
Proof. rises profitability. Qed.

Lemma unit_economics_rises :
  rises_with_ratio unit_economics "Unit Economics (Gross Margin)".
Proof. rises unit_economics. Qed.

Lemma earnings_quality_rises :
  rises_with_ratio earnings_quality "Earnings Quality (OCF/Net Income)".
Proof. rises earnings_quality. Qed.

Lemma leverage_falls : falls_with_ratio leverage "Leverage (Debt/Equity proxy)".
Proof. falls leverage. Qed.

Lemma solvency_falls : falls_with_ratio solvency "Solvency (Liab/Assets)".
Proof. falls solvency. Qed.

Lemma fleb_Fin_true p q : (p <= q)%Q -> fleb (Fin p) (Fin q) = true.
Proof.
  intros H. unfold fleb, fcmp.
  destruct (p ?= q)%Q eqn:E; try reflexivity.
  apply Qgt_alt in E. exfalso. apply (Qlt_irrefl q).
  eapply Qlt_le_trans; eassumption.
Qed.

Lemma negative_leverage a b s r :
  _safe_div a b = Some (Fin r) -> (r < 0)%Q ->
  dict_get "Leverage (Debt/Equity proxy)" (s_metric_scores (leverage a b s))
  = Some 10 /\
  s_flags (leverage a b s) = s_flags s.
Proof.
  intros H Hr. unfold leverage. cbv zeta. rewrite H.
  rewrite fleb_Fin_true.
  - simpl s_metric_scores. rewrite dict_get_set. split; reflexivity.
  - apply Qlt_le_weak. eapply Qlt_trans; [exact Hr|]. reflexivity.
Qed.

(** X21.  The score of a threshold metric follows its ratio: of two
    finite ratios, the higher one scores at least as much for liquidity,
    operating margin, gross margin and earnings quality, and at most as
    much for leverage and solvency.  So a negative ratio of liabilities
    to equity, which a company with negative equity has, scores 10 for
    leverage and appends no flag. *)
Theorem bands_follow_the_ratio :
  rises_with_ratio liquidity "Liquidity (Current Ratio)" /\
  rises_with_ratio profitability "Profitability (Operating Margin)" /\
  rises_with_ratio unit_economics "Unit Economics (Gross Margin)" /\
  rises_with_ratio earnings_quality "Earnings Quality (OCF/Net Income)" /\
  falls_with_ratio leverage "Leverage (Debt/Equity proxy)" /\
  falls_with_ratio solvency "Solvency (Liab/Assets)" /\
  (forall a b s r,
      _safe_div a b = Some (Fin r) -> (r < 0)%Q ->
      dict_get "Leverage (Debt/Equity proxy)"
               (s_metric_scores (leverage a b s)) = Some 10 /\
      s_flags (leverage a b s) = s_flags s).
Proof.
  split; [exact liquidity_rises|]. split; [exact profitability_rises|].
  split; [exact unit_economics_rises|].
  split; [exact earnings_quality_rises|].
  split; [exact leverage_falls|]. split; [exact solvency_falls|].
  exact negative_leverage.
Qed.

(** Liabilities of 200 on an equity of -100; and current ratios of 0.9
    and 1.2. *)
Lemma bands_follow_the_ratio_witness :
  dict_get "Leverage (Debt/Equity proxy)"
           (s_metric_scores (leverage (Some (of_Z 200)) (Some (of_Z (-100)))
                                      s0)) = Some 10 /\
  exists v v',
    dict_get "Liquidity (Current Ratio)"
             (s_metric_scores (liquidity (Some (of_Z 90)) (Some (of_Z 100))
                                         s0)) = Some v /\
    dict_get "Liquidity (Current Ratio)"
             (s_metric_scores (liquidity (Some (of_Z 120)) (Some (of_Z 100))
                                         s0)) = Some v' /\
    v <= v'.
Proof.
  destruct bands_follow_the_ratio as (Hrise & _ & _ & _ & _ & _ & Hneg).
  split.
  - apply (Hneg (Some (of_Z 200)) (Some (of_Z (-100))) s0 (- 2 # 1) eq_refl).
    reflexivity.
  - apply (Hrise (Some (of_Z 90)) (Some (of_Z 100))
                 (Some (of_Z 120)) (Some (of_Z 100)) s0 s0
                 (9 # 10) (6 # 5) eq_refl eq_refl).
    unfold Qle. simpl. lia.
Defined.

(* ================================================================= *)
(** ** The table of the efficiency ratio *)


Lemma sort_by_date_periods {A} (l : list (date * A)) d :
  In d (map fst (sort_by_date l)) <-> In d (map fst l).
Proof.
  rewrite !in_map_iff. split; intros (x & Hx & Hin); exists x;
    (split; [exact Hx|]); now apply sort_by_date_In.
Qed.







(* ================================================================= *)
(** ** The statements are loaded before the health table *)

Lemma has_dup_false l : has_dup l = false -> NoDup l.
Proof.
  induction l as [|c l IH]; simpl; [constructor|].
  intros H. apply orb_false_iff in H as [Hc Hl].
  constructor; [|now apply IH].
  intros Hin. apply mem_col_In in Hin. congruence.
Qed.

Lemma reindex_NoDup df target t :
  reindex df target = Ok t -> has_dup target = false -> NoDup (columns df).
Proof.
  unfold reindex. intros H Ht.
  destruct (cols_eqb (columns df) target) eqn:E.
  - apply cols_eqb_eq in E. rewrite E. now apply has_dup_false.
  - destruct (has_dup (columns df)) eqn:D; [discriminate|].
    now apply has_dup_false.
Qed.

Lemma get_Financial_inv finT t f :
  get_Financial finT t = Ok f ->
  exists raw, finT t = Ok raw /\ NoDup (columns raw).
Proof.
  unfold get_Financial. intros H. apply bind_Ok in H as (raw & Hraw & H).
  exists raw. split; [exact Hraw|]. now apply reindex_NoDup in H.
Qed.

Lemma get_CashFLow_inv cfT t f :
  get_CashFLow cfT t = Ok f ->
  exists raw, cfT t = Ok raw /\ NoDup (columns raw).
Proof.
  unfold get_CashFLow. intros H. apply bind_Ok in H as (raw & Hraw & H).
  exists raw. split; [exact Hraw|]. now apply reindex_NoDup in H.
Qed.

Lemma get_CompleteBalancesheet_inv bsT t df :
  get_CompleteBalancesheet bsT t = Ok df ->
  exists raw, bsT t = Ok raw /\ NoDup (columns raw).
Proof.
  unfold get_CompleteBalancesheet, extract_balance_sheet. intros H.
  apply bind_Ok in H as (bs & Hbs & _).
  apply bind_Ok in Hbs as (raw & Hraw & Hbs).
  apply bind_Ok in Hbs as (a & Ha & _).
  unfold get_Assets in Ha. apply bind_Ok in Ha as (x & Hx & _).
  exists raw. split; [exact Hraw|]. now apply reindex_NoDup in Hx.
Qed.

Lemma for_each_inv {A B} (f : A -> result B) l acc out :
  for_each f l acc = Ok out ->
  exists ys, Forall2 (fun t y => f t = Ok y) l ys /\ out = acc ++ ys.
Proof.
  revert acc. induction l as [|t l IH]; simpl; intros acc H.
  - injection H as <-. exists []. split; [constructor|].
    now rewrite app_nil_r.
  - apply bind_Ok in H as (y & Hy & H).
    destruct (IH _ H) as (ys & Hall & ->).
    exists (y :: ys). split; [constructor; auto|].
    now rewrite <- app_assoc.
Qed.

Lemma multiple_inv get l out :
  (df_list <- for_each (with_company get) l [] ;; concat df_list) = Ok out ->
  l <> [] /\ forall t, In t l -> exists df, get t = Ok df.
Proof.
  intros H. split; [intros ->; discriminate H|].
  apply bind_Ok in H as (ys & Hys & _).
  apply for_each_inv in Hys as (zs & Hall & _).
  intros t Ht. clear ys.
  induction Hall as [|u y l zs Hu _ IH]; [contradiction|].
  destruct Ht as [->|Ht]; [|now apply IH].
  unfold with_company in Hu. apply bind_Ok in Hu as (df & Hdf & _). eauto.
Qed.

Lemma load_statements_Ok bsT finT cfT tickers x :
  _load_statements bsT finT cfT tickers = Ok x ->
  tickers <> [] /\
  forall t, In t tickers ->
    exists rb rf rc,
      bsT t = Ok rb /\ finT t = Ok rf /\ cfT t = Ok rc /\
      NoDup (columns rb) /\ NoDup (columns rf) /\ NoDup (columns rc).
Proof.
  unfold _load_statements. intros H.
  apply bind_Ok in H as (bs & Hbs & H).
  apply bind_Ok in H as (fs & Hfs & H).
  apply bind_Ok in H as (cf & Hcf & _).
  apply multiple_inv in Hbs as [Hne Hbs].
  apply multiple_inv in Hfs as [_ Hfs].
  apply multiple_inv in Hcf as [_ Hcf].
  split; [exact Hne|]. intros t Ht.
  destruct (Hbs t Ht) as [b Hb]. destruct (Hfs t Ht) as [f Hf].
  destruct (Hcf t Ht) as [c Hc].
  apply get_CompleteBalancesheet_inv in Hb as (rb & Hrb & Nb).
  apply get_Financial_inv in Hf as (rf & Hrf & Nf).
  apply get_CashFLow_inv in Hc as (rc & Hrc & Nc).
  exists rb, rf, rc. auto 10.
Qed.

Lemma loaded_tickers_have_scores bsT finT cfT tickers x :
  _load_statements bsT finT cfT tickers = Ok x ->
  tickers <> [] /\
  (forall t, In t tickers ->
             exists h, _build_health_for_ticker bsT finT cfT t = Ok h) /\
  (forall r, In r (health_df bsT finT cfT tickers) ->
             exists sc, Score r = Some sc).
Proof.
  intros H. apply load_statements_Ok in H as [Hne Hall].
  assert (Hbuild : forall t, In t tickers ->
             exists h, _build_health_for_ticker bsT finT cfT t = Ok h).
  { intros t Ht.
    destruct (Hall t Ht) as (rb & rf & rc & Hrb & Hrf & Hrc & Nb & Nf & Nc).
    destruct (build_health_Ok bsT finT cfT t rb rf rc Hrb Hrf Hrc Nb Nf Nc)
      as (h & Hh & _). eauto. }
  split; [exact Hne|]. split; [exact Hbuild|].
  intros r Hr. unfold health_df in Hr.
  apply (Permutation_in _ (sort_by_score_perm _)) in Hr.
  unfold health_rows in Hr. apply in_map_iff in Hr as (t & <- & Ht).
  destruct (Hbuild t Ht) as [h Hh]. rewrite Hh. simpl. eauto.
Qed.

Lemma load_statements_raises bsT finT cfT before t after e :
  (forall u, In u before ->
             exists raw, bsT u = Ok raw /\ NoDup (columns raw)) ->
  bsT t = Raise e ->
  _load_statements bsT finT cfT (before ++ t :: after) = Raise e.
Proof.
  intros Hb Ht. unfold _load_statements.
  destruct (stacks_spec (get_CompleteBalancesheet bsT)
                        (List.concat balance_sheet_columns)
                        (get_CompleteBalancesheet_columns bsT))
    as (_ & Hraise & _).
  assert (Hr : get_MultipleBalanceSheet bsT (before ++ t :: after)
               = Raise e).
  { apply (Hraise before t after e).
    - intros u Hu. destruct (Hb u Hu) as (raw & Hraw & Hnd).
      destruct (extract_balance_sheet_Ok bsT u raw Hraw Hnd)
        as (bs & Hbs & Hcols & Hidx).
      destruct (complete_balance_sheet_Ok bs _ Hcols Hidx) as (df & Hdf & _).
      exists df. unfold get_CompleteBalancesheet. rewrite Hbs. exact Hdf.
    - unfold get_CompleteBalancesheet, extract_balance_sheet.
      now rewrite Ht. }
  now rewrite Hr.
Qed.

(** X23.  The dashboard loads the statements of all tickers before it
    builds the health table, and outside the [try] of that table.  With a
    provider that answers a ticker the same way each time: when
    [_load_statements] returns, the list of tickers is not empty and the
    build of every ticker returns an assessment, so that every row of the
    health table has a score; and a ticker the provider fails for on its
    balance sheet makes [_load_statements] raise, before any row is
    made. *)
Theorem statements_are_loaded_before_the_health_table :
  forall balancesheet_T financials_T cashflow_T tickers,
    (forall x,
        _load_statements balancesheet_T financials_T cashflow_T tickers
        = Ok x ->
        tickers <> [] /\
        (forall t, In t tickers ->
                   exists h,
                     _build_health_for_ticker balancesheet_T financials_T
                                              cashflow_T t = Ok h) /\
        (forall r,
            In r (health_df balancesheet_T financials_T cashflow_T tickers) ->
            exists sc, Score r = Some sc)) /\
    (forall before t after e,
        tickers = before ++ t :: after ->
        (forall u, In u before ->
                   exists raw,
                     balancesheet_T u = Ok raw /\ NoDup (columns raw)) ->
        balancesheet_T t = Raise e ->
        _load_statements balancesheet_T financials_T cashflow_T tickers
        = Raise e).
Proof.
  intros bsT finT cfT tickers. split.
  - intros x. apply loaded_tickers_have_scores.
  - intros before t after e ->. apply load_statements_raises.
Qed.

(** GOOD alone is loaded and scored; with a ticker the provider fails
    for, nothing is loaded. *)
Lemma statements_are_loaded_before_the_health_table_witness :
  (exists sc,
      map Score (health_df (ex_provider ex_bs) (ex_provider ex_fs)
                           (ex_provider ex_cf) ["GOOD"]) = [Some sc]) /\
  _load_statements (ex_provider ex_bs) (ex_provider ex_fs)
                   (ex_provider ex_cf) ["GOOD"; "BAD"]
  = Raise (ProviderError "BAD").
Proof.
  split.
  - destruct (_load_statements (ex_provider ex_bs) (ex_provider ex_fs)
                               (ex_provider ex_cf) ["GOOD"])
      as [x|e] eqn:E; [|vm_compute in E; discriminate E].
    destruct (proj1 (statements_are_loaded_before_the_health_table
                       (ex_provider ex_bs) (ex_provider ex_fs)
                       (ex_provider ex_cf) ["GOOD"]) x E)
      as (_ & _ & Hrows).
    destruct (health_df (ex_provider ex_bs) (ex_provider ex_fs)
                        (ex_provider ex_cf) ["GOOD"])
      as [|r [|r' l]] eqn:Hdf; try (vm_compute in Hdf; discriminate Hdf).
    destruct (Hrows r (or_introl eq_refl)) as [sc Hsc].
    exists sc. simpl. now rewrite Hsc.
  - apply (proj2 (statements_are_loaded_before_the_health_table
                    (ex_provider ex_bs) (ex_provider ex_fs)
                    (ex_provider ex_cf) ["GOOD"; "BAD"])
                 ["GOOD"] "BAD" [] (ProviderError "BAD") eq_refl).
    + intros u [<-|[]]. exists ex_bs. split; [reflexivity|].
      simpl. repeat constructor; simpl; intuition discriminate.
    + reflexivity.
Defined.

(* ================================================================= *)
(** ** The table of the liquidity ratios *)

Lemma lookup_row_tagged t df d :
  In d (df_index df) ->
  exists cells, lookup_row d (tag_rows t df) = Some (Some t, cells).
Proof.
  unfold tag_rows, df_index.
  induction (rows df) as [|[e x] l IH]; simpl; [contradiction|].
  intros [<-|H].
  - rewrite date_eqb_refl. eauto.
  - destruct (date_eqb d e); eauto.
Qed.

Lemma ratio_frame_periods name a num b den df :
  ratio_frame name a num b den = Ok df ->
  forall d, In d (df_index df) <-> In d (df_index a) \/ In d (df_index b).
Proof.
  intros H d. apply ratio_frame_index in H as [Isame Idiff].
  destruct (dates_eqb (df_index a) (df_index b)) eqn:E.
  - apply dates_eqb_eq in E. rewrite (Isame E), <- E. tauto.
  - assert (Hne : df_index a <> df_index b).
    { intros H. apply dates_eqb_eq in H. congruence. }
    rewrite (Idiff Hne). apply union_index_In.
Qed.

Lemma concat_columns_r_spec t a b :
  (forall d, In d (df_index a) -> In d (df_index b)) ->
  let f := concat_columns_r a (mkCF (columns b) (tag_rows t b)) in
  cf_columns f = columns a ++ columns b /\
  tagged t f /\
  (forall d, In d (map fst (cf_rows f)) <-> In d (df_index b)).
Proof.
  intros Hsub f. subst f. unfold concat_columns_r. simpl cf_rows.
  simpl cf_columns.
  assert (Et : map fst (tag_rows t b) = df_index b).
  { unfold tag_rows, df_index. rewrite map_map. reflexivity. }
  rewrite Et.
  destruct (dates_eqb (df_index a) (df_index b)) eqn:E; simpl.
  - apply dates_eqb_eq in E. split; [reflexivity|]. split.
    + unfold tagged. simpl. apply Forall_forall. intros row Hrow.
      apply in_map_iff in Hrow as ([x y] & <- & Hxy). simpl.
      apply in_combine_r in Hxy. unfold tag_rows in Hxy.
      apply in_map_iff in Hxy as (r & <- & _). reflexivity.
    + intros d. rewrite map_map. simpl.
      rewrite (combine_same_fst (rows a) (tag_rows t b))
        by (rewrite Et; exact E).
      fold (df_index a). rewrite E. tauto.
  - split; [reflexivity|]. split.
    + unfold tagged. simpl. apply Forall_forall. intros row Hrow.
      apply in_map_iff in Hrow as (d & <- & Hd). simpl.
      apply union_index_In in Hd.
      assert (Hb : In d (df_index b)) by (destruct Hd; auto).
      destruct (lookup_row_tagged t b d Hb) as [cells ->]. reflexivity.
    + intros d. rewrite map_map. simpl. rewrite map_id.
      rewrite union_index_In. split; [intros [H|H]; auto | auto].
Qed.

Lemma liquidity_of_ticker_Ok bsT cfT pad t rb rc :
  bsT t = Ok rb -> cfT t = Ok rc ->
  NoDup (columns rb) -> NoDup (columns rc) ->
  exists f,
    liquidity_of_ticker bsT cfT pad t = Ok f /\
    cf_columns f = ["Current Ratio"; "Current Ratio YoY Change";
                    "Operating Cash Flow Ratio";
                    "Operating Cash Flow Ratio YoY Change"] /\
    tagged t f /\
    (forall d, In d (map fst (cf_rows f)) <->
               In d (df_index rb) \/ In d (df_index rc)).
Proof.
  intros Hrb Hrc Nb Nc.
  destruct (extract_balance_sheet_Ok bsT t rb Hrb Nb)
    as (bs & Hbs & Hcols & Hidx).
  unfold parts in Hcols, Hidx. injection Hcols as C0 C1 C2 C3 C4 C5 C6.
  inversion Hidx as [|? ? I0 Hidx1]; subst.
  inversion Hidx1 as [|? ? I1 Hidx2]; subst.
  inversion Hidx2 as [|? ? I2 Hidx3]; subst.
  inversion Hidx3 as [|? ? I3 _]; subst.
  destruct (select_columns_Ok rc cashflowcolumns Nc) as (c & Hc & Cc & Ic).
  destruct (ratio_frame_Ok "Current Ratio" (current_Assets bs)
                           "Current Assets" (current_Liabilities bs)
                           "Current Liabilities") as [cr Hcr];
    [rewrite C0; simpl; auto 20 | rewrite C3; simpl; auto 20 |].
  destruct (ratio_frame_Ok "Operating Cash Flow Ratio" c
                           "Operating Cash Flow" (current_Liabilities bs)
                           "Current Liabilities") as [o Ho];
    [rewrite Cc; simpl; auto 20 | rewrite C3; simpl; auto 20 |].
  pose proof (ratio_frame_columns _ _ _ _ _ _ Hcr) as Ccr.
  pose proof (ratio_frame_columns _ _ _ _ _ _ Ho) as Co.
  pose proof (ratio_frame_periods _ _ _ _ _ _ Hcr) as Pcr.
  pose proof (ratio_frame_periods _ _ _ _ _ _ Ho) as Po.
  destruct (with_yoy_spec pad _ cr Ccr) as (cr' & Hcr' & Ccr' & Icr').
  destruct (with_yoy_spec pad _ o Co) as (o' & Ho' & Co' & Io').
  unfold liquidity_of_ticker, get_CashFLow.
  rewrite Hbs. simpl bind. rewrite Hrc. simpl bind. rewrite Hc. simpl bind.
  unfold get_CurrentRatio, get_OperatingCashFlowRatio.
  rewrite Hcr. simpl bind. rewrite Hcr'. simpl bind.
  rewrite Ho. simpl bind. rewrite Ho'. simpl bind.
  rewrite set_company_own_length. simpl bind.
  assert (Pcr' : forall d, In d (df_index cr') <-> In d (df_index rb)).
  { intros d. rewrite Icr', sort_by_date_periods.
    change (map fst (rows cr)) with (df_index cr).
    rewrite Pcr, I0, I3. tauto. }
  assert (Po' : forall d, In d (df_index o') <->
                          In d (df_index rb) \/ In d (df_index rc)).
  { intros d. rewrite Io', sort_by_date_periods.
    change (map fst (rows o)) with (df_index o).
    rewrite Po, Ic, I3. tauto. }
  destruct (concat_columns_r_spec t cr' o') as (Hc1 & Hc2 & Hc3).
  { intros d Hd. apply Po'. left. now apply Pcr'. }
  eexists. split; [reflexivity|].
  split; [rewrite Hc1, Ccr', Co'; reflexivity|].
  split; [exact Hc2|].
  intros d. rewrite Hc3. apply Po'.
Qed.
